(** * Teknic ClearPath-SC single-threaded example: bring-up and OS shim

    A shallow embedding of
    - [src/foundation/lnkAccessLinux.cpp]: [infcCoreTime], [infcErrCodeStrA],
      [infcDbgDepth];
    - [src/main.cpp]: [msgUser], [InitializeSysManager], [main].

    The driver core ([SysManager], [IPort], [INode], [Axis]) is closed source.
    It is modelled as an environment: a static snapshot of the network (what
    the accessors return) and an oracle saying which driver call throws.
    Everything the program does is recorded in a trace of events. *)

From Stdlib Require Import ZArith NArith List Bool Lia String Ascii.
From Stdlib Require Import Strings.HexString.
From Stdlib Require Import Floats.PrimFloat Numbers.Cyclic.Int63.Uint63.
Import ListNotations.

Set Implicit Arguments.

(* ================================================================== *)
(** * Part I: definitions                                              *)
(* ================================================================== *)

(** ** lnkAccessLinux.cpp *)

Module LnkAccess.

(** [struct timespec] as filled in by [clock_gettime]. *)
Record timespec := { tv_sec : Z; tv_nsec : Z }.

(** [double(x)] for an integer [x] with [|x| < 2^63]. *)
Definition double (x : Z) : float :=
  if (x <? 0)%Z
  then PrimFloat.opp (PrimFloat.of_uint63 (Uint63.of_Z (- x)))
  else PrimFloat.of_uint63 (Uint63.of_Z x).

(** The literal [1e-6] rounded to binary64. *)
Definition lit_1e_6 : float := 0x1.0c6f7a0b5ed8dp-20%float.

(** [!initial] on a double. *)
Definition is_zero (d : float) : bool := PrimFloat.eqb d 0%float.

(** [infcCoreTime], lines 115-128 (the [#if 1] branch).  The function-local
    [static double initial] is threaded through: the function takes its
    current value and returns the new one next to the result.  [clock] is
    what [clock_gettime(CLOCK_REALTIME, &now)] delivers, [None] standing for
    the return value -1.  Arithmetic is IEEE binary64, one rounding per
    operation. *)
Definition infcCoreTime (clock : option timespec) (initial : float)
  : float * float :=
  match clock with
  | None => (0%float, initial)
  | Some now =>
      let tNow :=
        PrimFloat.sub
          (PrimFloat.add (PrimFloat.mul (double (tv_sec now)) 1000%float)
                         (PrimFloat.mul (double (tv_nsec now)) lit_1e_6))
          initial in
      let initial' := if is_zero initial then tNow else initial in
      (tNow, initial')
  end.

(** A run of successive calls, starting from the given value of the static. *)
Fixpoint infcCoreTime_calls (clocks : list (option timespec)) (initial : float)
  : list float :=
  match clocks with
  | [] => []
  | c :: rest =>
      let '(r, initial') := infcCoreTime c initial in
      r :: infcCoreTime_calls rest initial'
  end.

(** [cnErrCode] is an enum of the missing header [mnErrors.h]; only its
    integer value matters here. *)
Definition cnErrCode := Z.

(** What ["Error: 0x%x"] formats to: [%x] prints its argument as an
    [unsigned int], lower-case, no padding. *)
Definition format_Error (lookupCode : cnErrCode) : string :=
  ("Error: " ++ HexString.of_Z (lookupCode mod 2 ^ 32))%string.

(** [snprintf(resultStr, maxLen, "Error: 0x%x", lookupCode)]: at most
    [maxLen - 1] characters are stored (nothing when [maxLen] is 0); the
    return value is the length of the complete formatted text. *)
Definition snprintf_Error (resultStr : string) (maxLen : Z)
    (lookupCode : cnErrCode) : string * Z :=
  let s := format_Error lookupCode in
  (if (maxLen =? 0)%Z then resultStr
   else substring 0 (Z.to_nat (maxLen - 1)) s,
   Z.of_nat (String.length s)).

(** [infcErrCodeStrA], lines 214-222.  [MN_OK] and [MN_ERR_BADARG] are
    enumerators of the missing header and are taken as parameters.  Returns
    the code and the contents of [resultStr]. *)
Definition infcErrCodeStrA (MN_OK MN_ERR_BADARG : cnErrCode)
    (lookupCode : cnErrCode) (maxLen : Z) (resultStr : string)
  : cnErrCode * string :=
  let '(buf, nChars) := snprintf_Error resultStr maxLen lookupCode in
  (if (nChars =? maxLen)%Z then MN_OK else MN_ERR_BADARG, buf).

(** [netStateInfo]: only [pSerialPort->MaxDepth()] is used. *)
Record netStateInfo := { MaxDepth : Z }.

(** [mnNetInvRecords]: only the [pNCS] pointer is used; [None] is NULL. *)
Record mnNetInvRecords := { pNCS : option netStateInfo }.

(** Result of code that indexes a C array. *)
Inductive access (A : Type) : Type :=
| Returns (a : A)
| OutOfBounds (index size : N).
Arguments OutOfBounds {A} index size.

(** [infcDbgDepth], lines 313-321.  [NET_CONTROLLER_MAX] is a constant of a
    missing header and is a parameter; [SysInventory] is the extern array
    [mnNetInvRecords SysInventory[NET_CONTROLLER_MAX]], a list of that
    length.  Reading [SysInventory[cNum]] outside the array is reported as
    [OutOfBounds]. *)
Definition infcDbgDepth (NET_CONTROLLER_MAX : N)
    (SysInventory : list mnNetInvRecords) (cNum : N) : access Z :=
  if (NET_CONTROLLER_MAX <? cNum)%N then Returns 0%Z
  else
    match nth_error SysInventory (N.to_nat cNum) with
    | None => OutOfBounds cNum (N.of_nat (List.length SysInventory))
    | Some rec =>
        match pNCS rec with
        | Some ncs => Returns (MaxDepth ncs)
        | None => Returns 0%Z
        end
    end.

End LnkAccess.

(** ** The driver as seen from main.cpp *)

(** Modelled from the spec: the node-type enum [IInfo::nodeTypes] of the
    missing driver headers.  The program compares against [CLEARPATH_SC]
    and [CLEARPATH_SC_ADV]; every other enumerator is [OTHER_NODE]. *)
Inductive nodeTypes : Type :=
| CLEARPATH_SC
| CLEARPATH_SC_ADV
| OTHER_NODE (tag : N).

Definition nodeTypes_eqb (a b : nodeTypes) : bool :=
  match a, b with
  | CLEARPATH_SC, CLEARPATH_SC => true
  | CLEARPATH_SC_ADV, CLEARPATH_SC_ADV => true
  | OTHER_NODE x, OTHER_NODE y => N.eqb x y
  | _, _ => false
  end.

(** What the accessors of one [INode] return. *)
Record INode := {
  nodeType : nodeTypes;          (* Info.NodeType() *)
  userID : string;               (* Info.UserID.Value() *)
  firmwareVersion : string;      (* Info.FirmwareVersion.Value() *)
  hardwareVersion : string;      (* Info.HardwareVersion.Value() *)
  serialNumber : Z;              (* Info.SerialNumber.Value() *)
  model : string;                (* Info.Model.Value() *)
  accessLevelIsFull : bool       (* Setup.AccessLevelIsFull() *)
}.

(** What the accessors of one [IPort] return; [nodes i] is [Nodes(i)]. *)
Record IPort := {
  netNumber : Z;
  openState : Z;
  nodeCount : N;
  nodes : N -> INode
}.

(** The exceptions the program distinguishes: the driver's [mnErr] with its
    three fields, and anything else. *)
Inductive exn : Type :=
| mnErr (TheAddr : Z) (ErrorCode : Z) (ErrorMsg : string)
| OtherExn.

(** The calls the program makes into the driver and into Axis. *)
Inductive call : Type :=
| ComHubPort (iPort : N) (name : string)
| PortsOpen (numPorts : N)
| PortsClose
| Ports (iPort : N)
| NetNumber (iPort : N)
| OpenState (iPort : N)
| NodeCount (iPort : N)
| Nodes (iPort iNode : N)
| NodeType (iPort iNode : N)
| UserID (iPort iNode : N)
| FirmwareVersion (iPort iNode : N)
| HardwareVersion (iPort iNode : N)
| SerialNumber (iPort iNode : N)
| Model (iPort iNode : N)
| AccessLevelIsFull (iPort iNode : N)
| NewAxis (iPort iNode : N)
| AxisMain (iPort iNode : N)
| DeleteAxis (iPort iNode : N).

(** The network manager: the ports it holds once opened, and which calls
    throw.  [throws k c] is consulted when [c] is the [k]-th driver call of
    the run (counting from 0). *)
Record SysManager := {
  ports : N -> IPort;
  throws : nat -> call -> option exn
}.

(** A [printf] argument. *)
Inductive arg : Type :=
| Int (z : Z)
| Str (s : string)
| Enum (t : nodeTypes).

(** Observable events. *)
Inductive event : Type :=
| Call (c : call)
| Printf (fmt : string) (args : list arg)
| Fprintf_stderr (fmt : string) (args : list arg)
| Cout (msg : string)
| Getchar.

(** ** A monad for the program: trace, call counter, exceptions *)

Inductive result (A : Type) : Type :=
| Val (a : A)
| Throw (e : exn)
| Diverge.
Arguments Throw {A} e.
Arguments Diverge {A}.

(** A computation takes the number of driver calls made so far and gives a
    result, the events it produced and the new number of calls. *)
Definition M (A : Type) : Type := nat -> result A * list event * nat.

Definition ret {A} (a : A) : M A := fun n => (Val a, [], n).

Definition bind {A B} (m : M A) (f : A -> M B) : M B :=
  fun n =>
    match m n with
    | (Val a, t1, n1) =>
        let '(r, t2, n2) := f a n1 in (r, t1 ++ t2, n2)
    | (Throw e, t1, n1) => (Throw e, t1, n1)
    | (Diverge, t1, n1) => (Diverge, t1, n1)
    end.

Declare Scope prog_scope.
Delimit Scope prog_scope with prog.
Notation "x <- m ;; k" := (bind m (fun x => k))
  (at level 61, m at next level, right associativity) : prog_scope.
Notation "m ;; k" := (bind m (fun _ => k))
  (at level 61, right associativity) : prog_scope.
Open Scope prog_scope.

Definition emit (e : event) : M unit := fun n => (Val tt, [e], n).

Definition printf (fmt : string) (args : list arg) : M unit :=
  emit (Printf fmt args).

Definition fprintf_stderr (fmt : string) (args : list arg) : M unit :=
  emit (Fprintf_stderr fmt args).

(** [try { m } catch (mnErr theErr) { on_mnErr theErr } catch (...) { h }];
    [on_other] is [None] where the [try] has no [catch (...)].  A handler
    runs outside the [try]: what it throws is not caught here. *)
Definition try_catch {A} (m : M A) (on_mnErr : Z -> Z -> string -> M A)
    (on_other : option (M A)) : M A :=
  fun n =>
    match m n with
    | (Throw (mnErr a c s), t1, n1) =>
        let '(r, t2, n2) := on_mnErr a c s n1 in (r, t1 ++ t2, n2)
    | (Throw OtherExn, t1, n1) =>
        match on_other with
        | Some h => let '(r, t2, n2) := h n1 in (r, t1 ++ t2, n2)
        | None => (Throw OtherExn, t1, n1)
        end
    | other => other
    end.

(** [for (c = i; cond(c); c = next(c)) s = body(c, s)].  [St] holds the
    locals the body updates.  [fuel] bounds the number of iterations; a loop
    that uses it up is reported as [Diverge].  Every loop of the program
    counts from 0 up to a bound that does not change while it runs, and is
    given one more than that bound as fuel: enough whenever the counter
    reaches the bound, which it fails to do only when it wraps first, and
    then the loop does not end. *)
Fixpoint for_loop {St} (next : N -> N) (fuel : nat)
    (cond : N -> St -> M bool) (body : N -> St -> M St)
    (i : N) (s : St) : M St :=
  match fuel with
  | O => fun n => (Diverge, [], n)
  | S fuel' =>
      b <- cond i s ;;
      if b : bool
      then s' <- body i s ;; for_loop next fuel' cond body (next i) s'
      else ret s
  end.

(** [c++] on the counter types of the program. *)
Definition incr_size_t (i : N) : N := ((i + 1) mod 2 ^ 64)%N.
Definition incr_unsigned (i : N) : N := ((i + 1) mod 2 ^ 32)%N.
Definition incr_Uint16 (i : N) : N := ((i + 1) mod 2 ^ 16)%N.
(** [int]: the counters stay below [INT_MAX] wherever the loop condition
    compares them with an [int]. *)
Definition incr_int (i : N) : N := (i + 1)%N.

(** [(int)u] for an [unsigned] value. *)
Definition to_int (u : N) : Z :=
  if (u mod 2 ^ 32 <? 2 ^ 31)%N then Z.of_N (u mod 2 ^ 32)
  else (Z.of_N (u mod 2 ^ 32) - 2 ^ 32)%Z.

(** ** main.cpp *)

(** [msgUser], lines 23-26. *)
Definition msgUser (msg : string) : M unit :=
  emit (Cout msg) ;; emit Getchar.

(** The array [portsList] of [main] after [portsList[0] = argv[1]], lines
    128-129.  The other slots are not initialised; with [numPorts = 1] they
    are not read. *)
Definition portsList (argv : list string) (i : N) : string :=
  if (i =? 0)%N then nth 1 argv EmptyString else EmptyString.

Section Program.

(** The [SysManager] object ([myMgr] in [main], [*sysMgr] in
    [InitializeSysManager]). *)
Variable sysMgr : SysManager.

(** A call into the driver: recorded, then it returns or throws. *)
Definition drv (c : call) : M unit :=
  fun n =>
    match throws sysMgr n c with
    | Some e => (Throw e, [Call c], S n)
    | None => (Val tt, [Call c], S n)
    end.

(** A call that returns the value [v] read off the snapshot. *)
Definition query {A} (c : call) (v : A) : M A := drv c ;; ret v.

Definition theNode (iPort iNode : N) : INode := nodes (ports sysMgr iPort) iNode.

(** [printf(" Port[%d]: state=%d, nodes=%d\n", myPort.NetNumber(),
    myPort.OpenState(), myPort.NodeCount())], lines 78 and 152.  C++ leaves
    the order in which the three arguments are evaluated open; they are
    taken left to right. *)
Definition print_port (iPort : N) : M unit :=
  a <- query (NetNumber iPort) (netNumber (ports sysMgr iPort)) ;;
  b <- query (OpenState iPort) (openState (ports sysMgr iPort)) ;;
  c <- query (NodeCount iPort) (nodeCount (ports sysMgr iPort)) ;;
  printf " Port[%d]: state=%d, nodes=%d\n" [Int a; Int b; Int (Z.of_N c)].

(** The condition [iNode < myPort.NodeCount()] of the node loops. *)
Definition node_cond {St} (iPort : N) (iNode : N) (_ : St) : M bool :=
  c <- query (NodeCount iPort) (nodeCount (ports sysMgr iPort)) ;;
  ret (iNode <? c)%N.

(** Body of the loop of lines 80-89. *)
Definition print_node (iPort iNode : N) (_ : unit) : M unit :=
  drv (Nodes iPort iNode) ;;
  t <- query (NodeType iPort iNode) (nodeType (theNode iPort iNode)) ;;
  printf "   Node[%d]: type=%d\n" [Int (Z.of_N iNode); Enum t] ;;
  u <- query (UserID iPort iNode) (userID (theNode iPort iNode)) ;;
  printf "            userID: %s\n" [Str u] ;;
  f <- query (FirmwareVersion iPort iNode) (firmwareVersion (theNode iPort iNode)) ;;
  printf "        FW version: %s\n" [Str f] ;;
  h <- query (HardwareVersion iPort iNode) (hardwareVersion (theNode iPort iNode)) ;;
  printf "        HW version: %s\n" [Str h] ;;
  s <- query (SerialNumber iPort iNode) (serialNumber (theNode iPort iNode)) ;;
  printf "          Serial #: %d\n" [Int s] ;;
  m <- query (Model iPort iNode) (model (theNode iPort iNode)) ;;
  printf "             Model: %s\n" [Str m].

(** Body of the loop of lines 76-90. *)
Definition print_port_stats (iPort : N) (_ : unit) : M unit :=
  drv (Ports iPort) ;;
  print_port iPort ;;
  for_loop incr_size_t (S (N.to_nat (nodeCount (ports sysMgr iPort))))
    (node_cond iPort) (print_node iPort) 0%N tt.

(** [InitializeSysManager], lines 42-95, the branch compiled outside
    Windows.  [listOfPorts] is the C array, read at the indices below
    [numPorts]. *)
Definition InitializeSysManager (numPorts : N) (listOfPorts : N -> string)
    (printNodeStats : bool) : M bool :=
  for_loop incr_int (S (N.to_nat numPorts))
    (fun iPort _ => ret (Z.of_N iPort <? to_int numPorts)%Z)
    (fun iPort _ =>
       printf "Initializing port %d, port number %s\n"
         [Int (Z.of_N iPort); Str (listOfPorts iPort)] ;;
       drv (ComHubPort iPort (listOfPorts iPort)))
    0%N tt ;;
  opened <-
    try_catch
      (printf "Opening ports...\n" [] ;;
       drv (PortsOpen numPorts) ;;
       printf "  ... ports are open\n" [] ;;
       ret true)
      (fun TheAddr ErrorCode ErrorMsg =>
         fprintf_stderr "Error - Port setup issue\n" [] ;;
         fprintf_stderr " Caught error: addr=%d, err=0x%0x\n  msg=%s\n"
           [Int TheAddr; Int ErrorCode; Str ErrorMsg] ;;
         printf " Caught error: addr=%d, err=0x%0x\n  msg=%s\n"
           [Int TheAddr; Int ErrorCode; Str ErrorMsg] ;;
         ret false)
      None ;;
  if opened : bool then
    (if printNodeStats : bool then
       for_loop incr_size_t (S (N.to_nat numPorts))
         (fun iPort _ => ret (iPort <? numPorts)%N)
         print_port_stats 0%N tt
     else ret tt) ;;
    ret true
  else ret false.

(** An [Axis*]: the object made by [new Axis(&theNode)] for node [iNode] of
    port [iPort]. *)
Record Axis := { axis_port : N; axis_node : N }.

(** The locals of [main] that the node loop updates, lines 139-142. *)
Record locals := {
  listOfAxes : list Axis;
  nodeTypesGood : bool;
  accessLvlsGood : bool
}.

(** Body of the node loop, lines 155-174.  [NodeType()] is read a second
    time only when the first comparison of the [&&] holds. *)
Definition check_node (iPort iNode : N) (l : locals) : M locals :=
  drv (Nodes iPort iNode) ;;
  t1 <- query (NodeType iPort iNode) (nodeType (theNode iPort iNode)) ;;
  mismatch <-
    (if negb (nodeTypes_eqb t1 CLEARPATH_SC_ADV) then
       t2 <- query (NodeType iPort iNode) (nodeType (theNode iPort iNode)) ;;
       ret (negb (nodeTypes_eqb t2 CLEARPATH_SC))
     else ret false) ;;
  l1 <-
    (if mismatch : bool then
       printf "---> ERROR: Uh-oh! Node %d is not a ClearPath-SC Motor\n"
         [Int (Z.of_N iNode)] ;;
       ret {| listOfAxes := listOfAxes l;
              nodeTypesGood := false;
              accessLvlsGood := accessLvlsGood l |}
     else ret l) ;;
  if nodeTypesGood l1 then
    drv (NewAxis iPort iNode) ;;
    let l2 := {| listOfAxes := listOfAxes l1 ++ [{| axis_port := iPort; axis_node := iNode |}];
                 nodeTypesGood := nodeTypesGood l1;
                 accessLvlsGood := accessLvlsGood l1 |} in
    full <- query (AccessLevelIsFull iPort iNode)
                  (accessLevelIsFull (theNode iPort iNode)) ;;
    if negb full then
      printf "---> ERROR: Oh snap! Access level is not good for node %u\n"
        [Int (Z.of_N iNode)] ;;
      ret {| listOfAxes := listOfAxes l2;
             nodeTypesGood := nodeTypesGood l2;
             accessLvlsGood := false |}
    else ret l2
  else ret l1.

(** Body of the port loop, lines 144-176. *)
Definition check_port (iPort : N) (l : locals) : M locals :=
  drv (Ports iPort) ;;
  print_port iPort ;;
  for_loop incr_unsigned (S (N.to_nat (nodeCount (ports sysMgr iPort))))
    (node_cond iPort) (check_node iPort) 0%N l.

(** Lines 139-176 of [main]: the axis list, the two flags and the loops
    that fill them. *)
Definition bringup (numPorts : N) : M locals :=
  for_loop incr_size_t (S (N.to_nat numPorts))
    (fun iPort _ => ret (iPort <? numPorts)%N)
    check_port 0%N
    {| listOfAxes := []; nodeTypesGood := true; accessLvlsGood := true |}.

(** [listOfAxes.at(iAxis)]: throws [std::out_of_range] outside the vector. *)
Definition at_ (v : list Axis) (iAxis : N) : M Axis :=
  match nth_error v (N.to_nat iAxis) with
  | Some a => ret a
  | None => fun n => (Throw OtherExn, [], n)
  end.

(** Lines 180-196: run the axes, or say what is wrong.  Gives the new value
    of [returnVal]. *)
Definition run_axes (l : locals) (returnVal : Z) : M Z :=
  if nodeTypesGood l && accessLvlsGood l then
    for_loop incr_Uint16 (S (List.length (listOfAxes l)))
      (fun iAxis _ => ret (iAxis <? N.of_nat (List.length (listOfAxes l)))%N)
      (fun iAxis _ =>
         a <- at_ (listOfAxes l) iAxis ;;
         drv (AxisMain (axis_port a) (axis_node a)))
      0%N tt ;;
    ret returnVal
  else if negb (nodeTypesGood l) then
    printf "\n\tFAILURE: Please attach only ClearPath-SC nodes.\n\n" [] ;;
    ret (-5)%Z
  else if negb (accessLvlsGood l) then
    printf "\n\tFAILURE: Please get full access on all your nodes.\n\n" [] ;;
    ret (-6)%Z
  else ret returnVal.

(** Lines 198-204: delete the axes, close the ports. *)
Definition teardown (l : locals) : M unit :=
  for_loop incr_size_t (S (List.length (listOfAxes l)))
    (fun iAxis _ => ret (iAxis <? N.of_nat (List.length (listOfAxes l)))%N)
    (fun iAxis _ =>
       a <- at_ (listOfAxes l) iAxis ;;
       drv (DeleteAxis (axis_port a) (axis_node a)))
    0%N tt ;;
  drv PortsClose.

(** How control leaves the [try] block of [main]: through a [return]
    statement inside it, or at its end with the current [returnVal]. *)
Inductive flow : Type :=
| Returned (code : Z)
| Continues (returnVal : Z).

(** The [try] block of [main], lines 111-206.  [argv] has [argc]
    entries. *)
Definition main_try (argv : list string) (returnVal : Z) : M flow :=
  let argc := Z.of_nat (List.length argv) in
  if negb (argc =? 2)%Z then
    printf " USAGE: Example-SingleThreaded.exe <Port#>\n" [] ;;
    printf "   Given Args: count: %d\n" [Int argc] ;;
    printf "                argv: " [] ;;
    for_loop incr_int (S (List.length argv))
      (fun i _ => ret (Z.of_N i <? argc)%Z)
      (fun i _ => printf "%s " [Str (nth (N.to_nat i) argv EmptyString)])
      0%N tt ;;
    printf "\n" [] ;;
    msgUser "Press any key to continue." ;;
    ret (Returned (-1))
  else
    let numPorts := 1%N in
    initialized <- InitializeSysManager numPorts (portsList argv) true ;;
    if negb initialized then
      printf "Error: Unable to initialize the system\n" [] ;;
      msgUser "Press any key to continue." ;;
      ret (Returned (-2))
    else
      l <- bringup numPorts ;;
      returnVal' <- run_axes l returnVal ;;
      teardown l ;;
      ret (Continues returnVal').

(** [main], lines 104-223: the [try] block, the two handlers and the
    good-bye.  A [return] inside the [try] block leaves [main] at once.
    The constructor and the destructor of [myMgr] run outside the [try];
    they belong to the driver and are not part of the model. *)
Definition main_prog (argv : list string) : M Z :=
  let returnVal := 0%Z in
  f <-
    try_catch (main_try argv returnVal)
      (fun TheAddr ErrorCode ErrorMsg =>
         fprintf_stderr "Caught error: addr=%d, err=0x%0x\nmsg=%s\n"
           [Int TheAddr; Int ErrorCode; Str ErrorMsg] ;;
         printf "Caught error: addr=%d, err=0x%08x\nmsg=%s\n"
           [Int TheAddr; Int ErrorCode; Str ErrorMsg] ;;
         ret (Continues (-3)))
      (Some
         (fprintf_stderr "Error generic caught\n" [] ;;
          printf "Generic error caught\n" [] ;;
          ret (Continues (-4)))) ;;
  match f with
  | Returned code => ret code
  | Continues returnVal' =>
      msgUser "Press any key to continue." ;;
      ret returnVal'
  end.

(** A run of the program: the exit code ([None] when it does not return)
    and everything it did. *)
Definition main (argv : list string) : option Z * list event :=
  match main_prog argv 0 with
  | (Val code, t, _) => (Some code, t)
  | (_, t, _) => (None, t)
  end.

End Program.

(** ** Runs in which no driver call throws *)

Definition never_throws (mgr : SysManager) : Prop :=
  forall n c, throws mgr n c = None.

(** The same network with a driver none of whose calls throws. *)
Definition quiet_of (mgr : SysManager) : SysManager :=
  {| ports := ports mgr; throws := fun _ _ => None |}.

(** Whenever [m] returns a value, [mq] returns the same value with the
    same events. *)
Definition completes_alike {A} (m mq : M A) : Prop :=
  forall n a t n', m n = (Val a, t, n') -> mq n = (Val a, t, n').

(** [m] returns [a] and produces exactly the events [t], whatever the
    number of driver calls made before. *)
Definition returns {A} (m : M A) (a : A) (t : list event) : Prop :=
  forall n, exists n', m n = (Val a, t, n').

(** [m] throws [e] after producing exactly the events [t]. *)
Definition raises {A} (m : M A) (e : exn) (t : list event) : Prop :=
  forall n, exists n', m n = (Throw e, t, n').

(** The [k] counter values from [i] on. *)
Fixpoint Nseq (i : N) (k : nat) : list N :=
  match k with
  | O => []
  | S k' => i :: Nseq (i + 1) k'
  end.

(** The longest run of counter values from [i], at most [k] of them, on
    which [f] holds. *)
Fixpoint prefix_while (f : N -> bool) (i : N) (k : nat) : list N :=
  match k with
  | O => []
  | S k' => if f i then i :: prefix_while f (i + 1) k' else []
  end.

(** A loop of [k] iterations from counter [i] whose body, at counter [c]
    and locals [s], gives [step c s], and whose condition produces the
    events [ctrace] each time it is evaluated. *)
Fixpoint loop_run {St} (step : N -> St -> St * list event)
    (ctrace : list event) (k : nat) (i : N) (s : St) : St * list event :=
  match k with
  | O => (s, ctrace)
  | S k' =>
      let '(s1, t1) := step i s in
      let '(s2, t2) := loop_run step ctrace k' (i + 1) s1 in
      (s2, ctrace ++ t1 ++ t2)
  end.

(** The type check of lines 159-160 and the access check of line 170. *)
Definition typeOk (nd : INode) : bool :=
  nodeTypes_eqb (nodeType nd) CLEARPATH_SC_ADV
  || nodeTypes_eqb (nodeType nd) CLEARPATH_SC.

Definition accessOk (nd : INode) : bool := accessLevelIsFull nd.

Definition mkAxis (iPort iNode : N) : Axis :=
  {| axis_port := iPort; axis_node := iNode |}.

Definition type_diagnostic (iNode : N) : event :=
  Printf "---> ERROR: Uh-oh! Node %d is not a ClearPath-SC Motor\n"
    [Int (Z.of_N iNode)].

Definition access_diagnostic (iNode : N) : event :=
  Printf "---> ERROR: Oh snap! Access level is not good for node %u\n"
    [Int (Z.of_N iNode)].

Section Runs.

Variable sysMgr : SysManager.

Definition print_port_run (iPort : N) : list event :=
  [Call (NetNumber iPort); Call (OpenState iPort); Call (NodeCount iPort);
   Printf " Port[%d]: state=%d, nodes=%d\n"
     [Int (netNumber (ports sysMgr iPort));
      Int (openState (ports sysMgr iPort));
      Int (Z.of_N (nodeCount (ports sysMgr iPort)))]].

(** One iteration of the node loop of [main]. *)
Definition check_node_run (iPort iNode : N) (l : locals)
  : locals * list event :=
  let nd := theNode sysMgr iPort iNode in
  let reads :=
    if nodeTypes_eqb (nodeType nd) CLEARPATH_SC_ADV
    then [Call (Nodes iPort iNode); Call (NodeType iPort iNode)]
    else [Call (Nodes iPort iNode); Call (NodeType iPort iNode);
          Call (NodeType iPort iNode)] in
  let l1 :=
    if typeOk nd then l
    else {| listOfAxes := listOfAxes l; nodeTypesGood := false;
            accessLvlsGood := accessLvlsGood l |} in
  let t1 := if typeOk nd then reads else reads ++ [type_diagnostic iNode] in
  if nodeTypesGood l1 then
    ({| listOfAxes := listOfAxes l1 ++ [mkAxis iPort iNode];
        nodeTypesGood := nodeTypesGood l1;
        accessLvlsGood := accessLvlsGood l1 && accessOk nd |},
     t1 ++ [Call (NewAxis iPort iNode); Call (AccessLevelIsFull iPort iNode)]
        ++ (if accessOk nd then [] else [access_diagnostic iNode]))
  else (l1, t1).

Definition check_port_run (iPort : N) (l : locals) : locals * list event :=
  let '(l', t) :=
    loop_run (check_node_run iPort) [Call (NodeCount iPort)]
      (N.to_nat (nodeCount (ports sysMgr iPort))) 0%N l in
  (l', Call (Ports iPort) :: print_port_run iPort ++ t).

Definition bringup_run (numPorts : N) : locals * list event :=
  loop_run check_port_run [] (N.to_nat numPorts) 0%N
    {| listOfAxes := []; nodeTypesGood := true; accessLvlsGood := true |}.

(** One iteration of the node loop of [InitializeSysManager]. *)
Definition print_node_run (iPort iNode : N) : list event :=
  let nd := theNode sysMgr iPort iNode in
  [Call (Nodes iPort iNode);
   Call (NodeType iPort iNode);
   Printf "   Node[%d]: type=%d\n" [Int (Z.of_N iNode); Enum (nodeType nd)];
   Call (UserID iPort iNode);
   Printf "            userID: %s\n" [Str (userID nd)];
   Call (FirmwareVersion iPort iNode);
   Printf "        FW version: %s\n" [Str (firmwareVersion nd)];
   Call (HardwareVersion iPort iNode);
   Printf "        HW version: %s\n" [Str (hardwareVersion nd)];
   Call (SerialNumber iPort iNode);
   Printf "          Serial #: %d\n" [Int (serialNumber nd)];
   Call (Model iPort iNode);
   Printf "             Model: %s\n" [Str (model nd)]].

Definition print_port_stats_run (iPort : N) : list event :=
  Call (Ports iPort) :: print_port_run iPort
  ++ snd (loop_run (fun iNode s => (s, print_node_run iPort iNode))
            [Call (NodeCount iPort)]
            (N.to_nat (nodeCount (ports sysMgr iPort))) 0%N tt).

Definition ComHubPort_run (listOfPorts : N -> string) (iPort : N)
  : list event :=
  [Printf "Initializing port %d, port number %s\n"
     [Int (Z.of_N iPort); Str (listOfPorts iPort)];
   Call (ComHubPort iPort (listOfPorts iPort))].

(** [InitializeSysManager] when the ports open. *)
Definition InitializeSysManager_run (numPorts : N) (listOfPorts : N -> string)
    (printNodeStats : bool) : list event :=
  snd (loop_run (fun iPort s => (s, ComHubPort_run listOfPorts iPort)) []
         (N.to_nat numPorts) 0%N tt)
  ++ [Printf "Opening ports...\n" []; Call (PortsOpen numPorts);
      Printf "  ... ports are open\n" []]
  ++ (if printNodeStats
      then snd (loop_run (fun iPort s => (s, print_port_stats_run iPort)) []
                  (N.to_nat numPorts) 0%N tt)
      else []).

(** [InitializeSysManager] when [PortsOpen] throws [mnErr]. *)
Definition InitializeSysManager_fail (numPorts : N) (listOfPorts : N -> string)
    (TheAddr ErrorCode : Z) (ErrorMsg : string) : list event :=
  snd (loop_run (fun iPort s => (s, ComHubPort_run listOfPorts iPort)) []
         (N.to_nat numPorts) 0%N tt)
  ++ [Printf "Opening ports...\n" []; Call (PortsOpen numPorts);
      Fprintf_stderr "Error - Port setup issue\n" [];
      Fprintf_stderr " Caught error: addr=%d, err=0x%0x\n  msg=%s\n"
        [Int TheAddr; Int ErrorCode; Str ErrorMsg];
      Printf " Caught error: addr=%d, err=0x%0x\n  msg=%s\n"
        [Int TheAddr; Int ErrorCode; Str ErrorMsg]].

End Runs.

Definition axis_main_call (a : Axis) : event :=
  Call (AxisMain (axis_port a) (axis_node a)).
Definition delete_axis_call (a : Axis) : event :=
  Call (DeleteAxis (axis_port a) (axis_node a)).
Definition new_axis_call (a : Axis) : event :=
  Call (NewAxis (axis_port a) (axis_node a)).

(** Lines 180-196 and 198-204. *)
Definition run_axes_run (l : locals) (returnVal : Z) : Z * list event :=
  if nodeTypesGood l && accessLvlsGood l
  then (returnVal, map axis_main_call (listOfAxes l))
  else if negb (nodeTypesGood l)
  then ((-5)%Z,
        [Printf "\n\tFAILURE: Please attach only ClearPath-SC nodes.\n\n" []])
  else ((-6)%Z,
        [Printf "\n\tFAILURE: Please get full access on all your nodes.\n\n" []]).

Definition teardown_run (l : locals) : list event :=
  map delete_axis_call (listOfAxes l) ++ [Call PortsClose].

(** [main] with one argument when nothing throws: exit code and trace. *)
Definition main_run (mgr : SysManager) (argv : list string)
  : Z * list event :=
  let '(l, t_bringup) := bringup_run mgr 1 in
  let '(returnVal, t_run) := run_axes_run l 0 in
  (returnVal,
   InitializeSysManager_run mgr 1 (portsList argv) true
   ++ t_bringup ++ t_run ++ teardown_run l
   ++ [Cout "Press any key to continue."; Getchar]).

(** ** Reading a trace *)

(** The calls that make, run and release axes and close the ports. *)
Definition is_lifecycle (e : event) : bool :=
  match e with
  | Call (NewAxis _ _) | Call (AxisMain _ _) | Call (DeleteAxis _ _)
  | Call PortsClose => true
  | _ => false
  end.

Definition lifecycle (t : list event) : list event := filter is_lifecycle t.

Definition is_NewAxis (e : event) : bool :=
  match e with Call (NewAxis _ _) => true | _ => false end.

Definition is_AxisMain (e : event) : bool :=
  match e with Call (AxisMain _ _) => true | _ => false end.

Definition is_AccessLevelIsFull (e : event) : bool :=
  match e with Call (AccessLevelIsFull _ _) => true | _ => false end.

Definition is_teardown (e : event) : bool :=
  match e with
  | Call (DeleteAxis _ _) | Call PortsClose => true
  | _ => false
  end.

(** The axes made during a run, in the order they were made. *)
Fixpoint constructed (t : list event) : list Axis :=
  match t with
  | [] => []
  | Call (NewAxis p i) :: t' => mkAxis p i :: constructed t'
  | _ :: t' => constructed t'
  end.

(** Calls that enumerate or query a port or a node. *)
Definition is_enumeration (e : event) : bool :=
  match e with
  | Call (Ports _) | Call (NetNumber _) | Call (OpenState _)
  | Call (NodeCount _) | Call (Nodes _ _) | Call (NodeType _ _)
  | Call (UserID _ _) | Call (FirmwareVersion _ _)
  | Call (HardwareVersion _ _) | Call (SerialNumber _ _)
  | Call (Model _ _) | Call (AccessLevelIsFull _ _)
  | Call (NewAxis _ _) | Call (AxisMain _ _) | Call (DeleteAxis _ _) => true
  | _ => false
  end.

(** The program reported that [PortsOpen] came back. *)
Definition ports_opened (t : list event) : Prop :=
  In (Printf "  ... ports are open\n" []) t.

(** ** Example networks *)

Definition node_of (t : nodeTypes) (full : bool) : INode :=
  {| nodeType := t; userID := "axis"; firmwareVersion := "1.6";
     hardwareVersion := "B"; serialNumber := 1234; model := "CPM-SCSK";
     accessLevelIsFull := full |}.

(** A port that holds the given nodes, in order. *)
Definition port_of (nds : list INode) : IPort :=
  {| netNumber := 0; openState := 1;
     nodeCount := N.of_nat (List.length nds);
     nodes := fun i => nth (N.to_nat i) nds (node_of CLEARPATH_SC true) |}.

(** A manager with these nodes on its port, none of whose calls throws. *)
Definition quiet_mgr (nds : list INode) : SysManager :=
  {| ports := fun _ => port_of nds; throws := fun _ _ => None |}.

(** Two nodes: a ClearPath-SC, then a node of another type. *)
Definition mgr_sc_then_other : SysManager :=
  quiet_mgr [node_of CLEARPATH_SC true; node_of (OTHER_NODE 1) true].

(** Two ClearPath-SC nodes, the second without full access. *)
Definition mgr_access_missing : SysManager :=
  quiet_mgr [node_of CLEARPATH_SC true; node_of CLEARPATH_SC_ADV false].

(** Two ClearPath-SC nodes with full access. *)
Definition mgr_ready : SysManager :=
  quiet_mgr [node_of CLEARPATH_SC true; node_of CLEARPATH_SC_ADV true].

(** One good node whose [AxisMain] throws the driver's error. *)
Definition mgr_AxisMain_throws : SysManager :=
  {| ports := fun _ => port_of [node_of CLEARPATH_SC true];
     throws := fun _ c =>
       match c with
       | AxisMain _ _ => Some (mnErr 0 256 "move failed")
       | _ => None
       end |}.

(** [PortsOpen] throws the driver's error. *)
Definition mgr_PortsOpen_throws : SysManager :=
  {| ports := fun _ => port_of [node_of CLEARPATH_SC true];
     throws := fun _ c =>
       match c with
       | PortsOpen _ => Some (mnErr 0 17 "port not found")
       | _ => None
       end |}.

Definition example_argv : list string :=
  ["Example-SingleThreaded"%string; "/dev/ttyXRUSB0"%string].

(** ** lnkAccessLinux.cpp: the functions that fill a caller's buffer *)

Module LnkBuffers.
Import LnkAccess.

(** A [char] array is the list of its bytes. *)
Definition NUL : ascii := Ascii.zero.

Definition is_NUL (c : ascii) : bool := Ascii.eqb c NUL.

(** The characters of a C string held in [s]: those before its
    terminator. *)
Fixpoint c_chars (s : string) : list ascii :=
  match s with
  | EmptyString => []
  | String c s' => if is_NUL c then [] else c :: c_chars s'
  end.

(** Reading a [char] array as a C string: the bytes before the first NUL,
    [None] when there is no NUL inside the array. *)
Fixpoint c_str (buf : list ascii) : option (list ascii) :=
  match buf with
  | [] => None
  | c :: rest =>
      if is_NUL c then Some []
      else match c_str rest with
           | Some s => Some (c :: s)
           | None => None
           end
  end.

(** Conversion of a signed argument to [size_t]. *)
Definition to_size_t (n : Z) : Z := (n mod 2 ^ 64)%Z.

(** [strncpy(dest, src, n)]: exactly [n] bytes are written, the characters
    of [src] first and NUL for the rest; no terminator is written when
    [src] has [n] characters or more.  Writing past the end of [dest] is
    reported as [OutOfBounds], with the first index written outside. *)
Definition strncpy (dest : list ascii) (src : string) (n : Z)
  : access (list ascii) :=
  if (Z.of_nat (List.length dest) <? n)%Z
  then OutOfBounds (N.of_nat (List.length dest)) (N.of_nat (List.length dest))
  else
    let k := Z.to_nat n in
    Returns (firstn k (c_chars src ++ repeat NUL k) ++ skipn k dest).

(** What [mkdir] came back with: its return value, [errno] and the text
    [strerror(errno)]. *)
Record mkdir_result := { mkdir_ret : Z; mkdir_errno : Z; mkdir_strerror : string }.

(** [EEXIST] of [errno.h] on Linux. *)
Definition EEXIST : Z := 17.

(** [infcGetDumpDir], lines 180-191: what is written to standard error
    and the contents of [pStr] afterwards. *)
Definition infcGetDumpDir (mk : mkdir_result) (pStr : list ascii) (maxLen : Z)
  : list event * access (list ascii) :=
  ((if negb (mkdir_ret mk =? 0)%Z
    then if negb (mkdir_errno mk =? EEXIST)%Z
         then [Fprintf_stderr "ERROR %d: unable to mkdir; %s\n"
                 [Int (mkdir_errno mk); Str (mkdir_strerror mk)]]
         else []
    else []),
   strncpy pStr "/tmp/Teknic/" (to_size_t maxLen)).

(** The text [infcGetDumpDir] copies. *)
Definition dump_dir : list ascii := list_ascii_of_string "/tmp/Teknic/".

(** [infcFileNameA], lines 264-270.  [dli_fname] is the path that [dladdr]
    left in [dl_info]. *)
Definition infcFileNameA (dli_fname : string) (fname : list ascii) (len : Z)
  : access (list ascii) :=
  strncpy fname dli_fname (to_size_t len).

(** [_controllerSpec]: the member array [PortName] and [PortRate]
    ([netRates] is an enum of a missing header, taken by its value). *)
Record controllerSpec := { PortName : list ascii; PortRate : Z }.

(** The constructor, lines 363-366.  [MAX_PATH] is a constant of a missing
    header and is a parameter; [PortName0] is the member array as the
    constructor finds it, of the size it is declared with. *)
Definition new_controllerSpec (MAX_PATH : Z) (PortName0 : list ascii)
    (name : string) (rate : Z) : access controllerSpec :=
  match strncpy PortName0 name MAX_PATH with
  | Returns buf => Returns {| PortName := buf; PortRate := rate |}
  | OutOfBounds i s => OutOfBounds i s
  end.

End LnkBuffers.

(** ** Reading a trace, continued *)

Definition is_call (e : event) : bool :=
  match e with Call _ => true | _ => false end.

(** The driver calls of a run, in order. *)
Fixpoint calls (t : list event) : list call :=
  match t with
  | [] => []
  | Call c :: t' => c :: calls t'
  | _ :: t' => calls t'
  end.

(** The two diagnostics of the node loop, whatever node they name. *)
Definition is_type_diagnostic (e : event) : bool :=
  match e with
  | Printf fmt _ =>
      String.eqb fmt "---> ERROR: Uh-oh! Node %d is not a ClearPath-SC Motor\n"
  | _ => false
  end.

Definition is_access_diagnostic (e : event) : bool :=
  match e with
  | Printf fmt _ =>
      String.eqb fmt
        "---> ERROR: Oh snap! Access level is not good for node %u\n"
  | _ => false
  end.

(** The [new Axis] and [AccessLevelIsFull] calls that come after a type
    diagnostic; [failed] says whether one was printed before [t]. *)
Fixpoint after_type_failure (failed : bool) (t : list event) : list event :=
  match t with
  | [] => []
  | e :: t' =>
      if is_type_diagnostic e then after_type_failure true t'
      else if failed && (is_NewAxis e || is_AccessLevelIsFull e)
      then e :: after_type_failure failed t'
      else after_type_failure failed t'
  end.

(** Every event [m] produces satisfies [P], however [m] ends. *)
Definition emits_only {A} (P : event -> Prop) (m : M A) : Prop :=
  forall n r t n', m n = (r, t, n') -> Forall P t.

(** A result that is not a value. *)
Definition stops {A} (r : result A) : Prop :=
  match r with Val _ => False | _ => True end.

(** What [msgUser("Press any key to continue.")] does. *)
Definition wait_for_user : list event :=
  [Cout "Press any key to continue."; Getchar].

(** Lines 115-122 of [main]: the usage message. *)
Definition usage_run (argv : list string) : list event :=
  [Printf " USAGE: Example-SingleThreaded.exe <Port#>\n" [];
   Printf "   Given Args: count: %d\n" [Int (Z.of_nat (List.length argv))];
   Printf "                argv: " []]
  ++ map (fun a => Printf "%s " [Str a]) argv
  ++ [Printf "\n" []] ++ wait_for_user.

(** The exit codes [main] has. *)
Definition exit_codes : list Z := [0; -1; -2; -3; -4; -5; -6]%Z.

(** What the node loop keeps true between the locals [l0] it started
    from, the events [t] produced since, and the locals [l] reached: the
    axis list grows by the axes made; a flag is true only if it was true
    and its diagnostic was not printed; after a type diagnostic no axis is
    made and no access level read. *)
Definition bringup_invariant (l0 : locals) (t : list event) (l : locals) : Prop :=
  listOfAxes l = listOfAxes l0 ++ constructed t
  /\ nodeTypesGood l
     = nodeTypesGood l0 && negb (existsb is_type_diagnostic t)
  /\ accessLvlsGood l
     = accessLvlsGood l0 && negb (existsb is_access_diagnostic t)
  /\ after_type_failure (negb (nodeTypesGood l0)) t = [].

(** The events the invariant speaks of. *)
Definition is_mark (e : event) : bool :=
  is_NewAxis e || is_AccessLevelIsFull e
  || is_type_diagnostic e || is_access_diagnostic e.

(** [m], started with the locals [l], keeps the invariant however it
    ends. *)
Definition bringup_step (m : M locals) (l : locals) : Prop :=
  forall n r t n', m n = (r, t, n') ->
  match r with
  | Val l' => bringup_invariant l t l'
  | _ => after_type_failure (negb (nodeTypesGood l)) t = []
  end.

(** A node of another type followed by a ClearPath-SC node. *)
Definition mgr_other_then_sc : SysManager :=
  quiet_mgr [node_of (OTHER_NODE 1) true; node_of CLEARPATH_SC true].

Definition is_ComHubPort (e : event) : bool :=
  match e with Call (ComHubPort _ _) => true | _ => false end.

(* ================================================================== *)
(** * Part II: theorems                                                *)
(* ================================================================== *)

Unset Implicit Arguments.

(** ** lnkAccessLinux.cpp *)

Module LnkAccessFacts.
Import LnkAccess.

Local Open Scope Z_scope.

(** *** infcCoreTime *)

(** C8 (the code departs from the claim).  Two calls on a fresh process,
    the clock reading 1700000000 s and then 1.5 s later: the first call
    returns the raw reading, 1.7e12 ms, not zero; only the second call is
    relative to the first. *)
Theorem infcCoreTime_first_call_returns_raw_clock :
  infcCoreTime_calls
    [Some {| tv_sec := 1700000000; tv_nsec := 0 |};
     Some {| tv_sec := 1700000001; tv_nsec := 500000000 |}] 0%float
  = [1700000000000%float; 1500%float]
  /\ 1700000000000%float <> 0%float.
Proof.
  split; [reflexivity|].
  intro E. apply (f_equal (fun f => PrimFloat.eqb f 0%float)) in E.
  vm_compute in E. discriminate.
Qed.

(** *** infcErrCodeStrA *)

Lemma substring_whole (s : string) :
  forall n, (String.length s <= n)%nat -> substring 0 n s = s.
Proof.
  induction s as [|c s IH]; intros [|n] H; simpl in *; try reflexivity; try lia.
  f_equal. apply IH. lia.
Qed.

(** C9.  [infcErrCodeStrA] answers [MN_OK] exactly when the length of the
    complete formatted text equals [maxLen]; when the text fits strictly
    inside the buffer it is stored whole and the answer is
    [MN_ERR_BADARG]. *)
Theorem infcErrCodeStrA_ok_iff_length_is_maxLen
    (MN_OK MN_ERR_BADARG lookupCode maxLen : cnErrCode) (resultStr : string) :
  MN_OK <> MN_ERR_BADARG ->
  let nChars := Z.of_nat (String.length (format_Error lookupCode)) in
  (fst (infcErrCodeStrA MN_OK MN_ERR_BADARG lookupCode maxLen resultStr) = MN_OK
   <-> nChars = maxLen)
  /\ (nChars < maxLen ->
      infcErrCodeStrA MN_OK MN_ERR_BADARG lookupCode maxLen resultStr
      = (MN_ERR_BADARG, format_Error lookupCode)).
Proof.
  intros Hne nChars. unfold infcErrCodeStrA, snprintf_Error.
  cbn beta iota zeta. fold nChars. split.
  - cbn [fst]. destruct (Z.eqb_spec nChars maxLen) as [E|E]; split; intro H;
      try reflexivity; try assumption; congruence.
  - intro Hlt.
    destruct (Z.eqb_spec nChars maxLen) as [E|E]; [lia|].
    destruct (Z.eqb_spec maxLen 0) as [E0|E0]; [subst nChars; lia|].
    f_equal. apply substring_whole. subst nChars. lia.
Qed.

Lemma infcErrCodeStrA_ok_iff_witness :
  (0 <> 3)
  /\ infcErrCodeStrA 0 3 255 100 EmptyString = (3, "Error: 0xff"%string).
Proof.
  split; [discriminate|].
  apply (infcErrCodeStrA_ok_iff_length_is_maxLen 0 3 255 100 EmptyString);
    [discriminate | reflexivity].
Defined.

(** *** infcDbgDepth *)

(** C10 (the code departs from the claim).  The guard lets
    [cNum = NET_CONTROLLER_MAX] through, and the read that follows is one
    past the end of [SysInventory]. *)
Theorem infcDbgDepth_reads_past_end
    (NET_CONTROLLER_MAX : N) (SysInventory : list mnNetInvRecords) :
  N.of_nat (List.length SysInventory) = NET_CONTROLLER_MAX ->
  infcDbgDepth NET_CONTROLLER_MAX SysInventory NET_CONTROLLER_MAX
  = OutOfBounds NET_CONTROLLER_MAX NET_CONTROLLER_MAX.
Proof.
  intro Hlen. unfold infcDbgDepth.
  rewrite N.ltb_irrefl.
  assert (Hnone : nth_error SysInventory (N.to_nat NET_CONTROLLER_MAX) = None).
  { apply nth_error_None. lia. }
  rewrite Hnone, Hlen. reflexivity.
Qed.

Lemma infcDbgDepth_reads_past_end_witness :
  infcDbgDepth 2 [ {| pNCS := None |};
                   {| pNCS := Some {| MaxDepth := 4 |} |} ] 2
  = OutOfBounds 2 2.
Proof.
  apply (infcDbgDepth_reads_past_end 2
           [ {| pNCS := None |}; {| pNCS := Some {| MaxDepth := 4 |} |} ]).
  reflexivity.
Defined.

(** What the guard does get right: a rejected [cNum] gives 0, and below
    [NET_CONTROLLER_MAX] the read is inside the array. *)
Lemma infcDbgDepth_rejected
    (NET_CONTROLLER_MAX cNum : N) (SysInventory : list mnNetInvRecords) :
  (NET_CONTROLLER_MAX < cNum)%N ->
  infcDbgDepth NET_CONTROLLER_MAX SysInventory cNum = Returns 0.
Proof.
  intro H. unfold infcDbgDepth.
  apply N.ltb_lt in H. rewrite H. reflexivity.
Qed.

Lemma infcDbgDepth_below_max
    (NET_CONTROLLER_MAX cNum : N) (SysInventory : list mnNetInvRecords) :
  N.of_nat (List.length SysInventory) = NET_CONTROLLER_MAX ->
  (cNum < NET_CONTROLLER_MAX)%N ->
  exists d, infcDbgDepth NET_CONTROLLER_MAX SysInventory cNum = Returns d.
Proof.
  intros Hlen Hlt. unfold infcDbgDepth.
  destruct (N.ltb_spec NET_CONTROLLER_MAX cNum) as [H|H]; [lia|].
  destruct (nth_error SysInventory (N.to_nat cNum)) as [r|] eqn:E.
  - destruct (pNCS r); eauto.
  - apply nth_error_None in E. lia.
Qed.

End LnkAccessFacts.

(** ** main.cpp: rules for runs without exceptions *)

Lemma returns_ret {A} (a : A) : returns (ret a) a [].
Proof. intro n. exists n. reflexivity. Qed.

Lemma returns_bind {A B} (m : M A) (f : A -> M B) a t1 b t2 :
  returns m a t1 -> returns (f a) b t2 -> returns (bind m f) b (t1 ++ t2).
Proof.
  intros Hm Hf n. unfold bind.
  destruct (Hm n) as [n1 E1]. rewrite E1.
  destruct (Hf n1) as [n2 E2]. rewrite E2.
  exists n2. reflexivity.
Qed.

Lemma returns_emit (e : event) : returns (emit e) tt [e].
Proof. intro n. exists n. reflexivity. Qed.

Lemma returns_printf fmt args : returns (printf fmt args) tt [Printf fmt args].
Proof. apply returns_emit. Qed.

Lemma returns_msgUser msg : returns (msgUser msg) tt [Cout msg; Getchar].
Proof.
  unfold msgUser.
  apply (returns_bind _ _ tt [Cout msg] tt [Getchar]); apply returns_emit.
Qed.

Lemma returns_drv mgr c :
  (forall n, throws mgr n c = None) -> returns (drv mgr c) tt [Call c].
Proof.
  intros H n. unfold drv. rewrite H. exists (S n). reflexivity.
Qed.

Lemma returns_query {A} mgr c (v : A) :
  (forall n, throws mgr n c = None) -> returns (query mgr c v) v [Call c].
Proof.
  intro H. unfold query.
  apply (returns_bind _ _ tt [Call c] v []).
  - apply returns_drv, H.
  - apply returns_ret.
Qed.

Lemma returns_try_catch {A} (m : M A) h1 h2 a t :
  returns m a t -> returns (try_catch m h1 h2) a t.
Proof.
  intros H n. unfold try_catch. destruct (H n) as [n' E]. rewrite E.
  exists n'. reflexivity.
Qed.

Lemma returns_eq {A} (m : M A) a a' t t' :
  returns m a t -> a = a' -> t = t' -> returns m a' t'.
Proof. intros H <- <-. exact H. Qed.

(** A counted loop whose counter does not wrap runs its body once for
    each value below the bound, in order. *)
Lemma returns_for_loop {St} (next : N -> N)
    (cond : N -> St -> M bool) (body : N -> St -> M St)
    (bound : N) (step : N -> St -> St * list event) (ctrace : list event) :
  (forall i s, (i <= bound)%N -> returns (cond i s) (i <? bound)%N ctrace) ->
  (forall i s, (i < bound)%N ->
               returns (body i s) (fst (step i s)) (snd (step i s))) ->
  (forall i, (i < bound)%N -> next i = (i + 1)%N) ->
  forall k i s, (i + N.of_nat k = bound)%N ->
  returns (for_loop next (S k) cond body i s)
          (fst (loop_run step ctrace k i s))
          (snd (loop_run step ctrace k i s)).
Proof.
  intros Hcond Hbody Hnext k.
  induction k as [|k IH]; intros i s Hk.
  - cbn [for_loop loop_run fst snd].
    eapply returns_eq; [|reflexivity|apply app_nil_r].
    apply (returns_bind _ _ false ctrace s []).
    + replace false with (i <? bound)%N by (apply N.ltb_ge; lia).
      apply Hcond. lia.
    + apply returns_ret.
  - assert (Hlt : (i < bound)%N) by lia.
    change (for_loop next (S (S k)) cond body i s)
      with (bind (cond i s)
              (fun b : bool =>
                 if b
                 then bind (body i s)
                        (fun s' => for_loop next (S k) cond body (next i) s')
                 else ret s)).
    cbn [loop_run].
    destruct (step i s) as [s1 t1] eqn:Es.
    destruct (loop_run step ctrace k (i + 1) s1) as [s2 t2] eqn:El.
    cbn [fst snd].
    apply (returns_bind _ _ true ctrace s2 (t1 ++ t2)).
    + replace true with (i <? bound)%N by (apply N.ltb_lt; exact Hlt).
      apply Hcond. lia.
    + apply (returns_bind _ _ s1 t1 s2 t2).
      * generalize (Hbody i s Hlt). rewrite Es. exact (fun H => H).
      * rewrite (Hnext i Hlt).
        generalize (IH (i + 1)%N s1 ltac:(lia)). rewrite El.
        exact (fun H => H).
Qed.

(** The same for a loop without locals. *)
Lemma returns_for_loop_unit (next : N -> N)
    (cond : N -> unit -> M bool) (body : N -> unit -> M unit)
    (bound : N) (tr : N -> list event) (ctrace : list event) :
  (forall i s, (i <= bound)%N -> returns (cond i s) (i <? bound)%N ctrace) ->
  (forall i, (i < bound)%N -> returns (body i tt) tt (tr i)) ->
  (forall i, (i < bound)%N -> next i = (i + 1)%N) ->
  forall k i, (i + N.of_nat k = bound)%N ->
  returns (for_loop next (S k) cond body i tt) tt
          (snd (loop_run (fun c (s : unit) => (s, tr c)) ctrace k i tt)).
Proof.
  intros Hcond Hbody Hnext k i Hk.
  eapply returns_eq;
    [ apply (returns_for_loop next cond body bound
               (fun c (s : unit) => (s, tr c)) ctrace Hcond) with (k := k);
      [ intros c [] Hc; apply Hbody, Hc | exact Hnext | exact Hk ]
    | | reflexivity ].
  destruct (fst _). reflexivity.
Qed.

(** Facts about [loop_run] that do not depend on the body. *)
Lemma loop_run_Forall {St} (P : event -> Prop)
    (step : N -> St -> St * list event) ctrace :
  Forall P ctrace ->
  (forall i s, Forall P (snd (step i s))) ->
  forall k i s, Forall P (snd (loop_run step ctrace k i s)).
Proof.
  intros Hc Hs k. induction k as [|k IH]; intros i s; cbn [loop_run].
  - exact Hc.
  - specialize (Hs i s). destruct (step i s) as [s1 t1].
    specialize (IH (i + 1)%N s1).
    destruct (loop_run step ctrace k (i + 1) s1) as [s2 t2].
    cbn [snd] in *. repeat (apply Forall_app; split); assumption.
Qed.

Lemma raises_drv mgr c e :
  (forall n, throws mgr n c = Some e) -> raises (drv mgr c) e [Call c].
Proof.
  intros H n. unfold drv. rewrite H. exists (S n). reflexivity.
Qed.

Lemma raises_bind_l {A B} (m : M A) (f : A -> M B) e t :
  raises m e t -> raises (bind m f) e t.
Proof.
  intros H n. unfold bind. destruct (H n) as [n' E]. rewrite E.
  exists n'. reflexivity.
Qed.

Lemma raises_bind_r {A B} (m : M A) (f : A -> M B) a t1 e t2 :
  returns m a t1 -> raises (f a) e t2 -> raises (bind m f) e (t1 ++ t2).
Proof.
  intros Hm Hf n. unfold bind.
  destruct (Hm n) as [n1 E1]. rewrite E1.
  destruct (Hf n1) as [n2 E2]. rewrite E2.
  exists n2. reflexivity.
Qed.

Lemma returns_try_catch_mnErr {A} (m : M A) h1 h2 a c s t1 b t2 :
  raises m (mnErr a c s) t1 -> returns (h1 a c s) b t2 ->
  returns (try_catch m h1 h2) b (t1 ++ t2).
Proof.
  intros Hm Hh n. unfold try_catch.
  destruct (Hm n) as [n1 E1]. rewrite E1.
  destruct (Hh n1) as [n2 E2]. rewrite E2.
  exists n2. reflexivity.
Qed.

(** Straight-line code: decompose the binds, close the leaves. *)
Ltac run_leaf :=
  first
    [ apply returns_ret
    | apply returns_printf
    | apply returns_emit
    | apply returns_msgUser
    | apply returns_query; solve [auto]
    | apply returns_drv; solve [auto] ].

Ltac run := repeat first [ run_leaf | eapply returns_bind ].

Ltac run_exact := eapply returns_eq; [ run | reflexivity | reflexivity ].

Lemma to_int_small (u : N) : (u < 2 ^ 31)%N -> to_int u = Z.of_N u.
Proof.
  intro H. unfold to_int.
  assert (E : (u mod 2 ^ 32 = u)%N) by (apply N.mod_small; lia).
  rewrite E. destruct (N.ltb_spec u (2 ^ 31)); [reflexivity | lia].
Qed.

Lemma returns_ComHubPort_loop mgr numPorts listOfPorts :
  (forall n i s, throws mgr n (ComHubPort i s) = None) ->
  (numPorts < 2 ^ 31)%N ->
  returns
    (for_loop incr_int (S (N.to_nat numPorts))
       (fun iPort _ => ret (Z.of_N iPort <? to_int numPorts)%Z)
       (fun iPort _ =>
          printf "Initializing port %d, port number %s\n"
            [Int (Z.of_N iPort); Str (listOfPorts iPort)] ;;
          drv mgr (ComHubPort iPort (listOfPorts iPort)))
       0%N tt)
    tt
    (snd (loop_run (fun iPort (s : unit) => (s, ComHubPort_run listOfPorts iPort))
            [] (N.to_nat numPorts) 0%N tt)).
Proof.
  intros Hq Hn.
  apply (returns_for_loop_unit incr_int _ _ numPorts
           (ComHubPort_run listOfPorts) []).
  - intros i s Hi. eapply returns_eq; [apply returns_ret | | reflexivity].
    rewrite (to_int_small numPorts Hn).
    destruct (N.ltb_spec i numPorts); [apply Z.ltb_lt | apply Z.ltb_ge]; lia.
  - intros i Hi. unfold ComHubPort_run. run_exact.
  - intros i Hi. reflexivity.
  - lia.
Qed.

(** [InitializeSysManager] when [PortsOpen] throws the driver's error. *)
Lemma returns_InitializeSysManager_fail mgr numPorts listOfPorts stats a c msg :
  (forall n i s, throws mgr n (ComHubPort i s) = None) ->
  (forall n, throws mgr n (PortsOpen numPorts) = Some (mnErr a c msg)) ->
  (numPorts < 2 ^ 31)%N ->
  returns (InitializeSysManager mgr numPorts listOfPorts stats) false
          (InitializeSysManager_fail numPorts listOfPorts a c msg).
Proof.
  intros Hq Ho Hn. unfold InitializeSysManager, InitializeSysManager_fail.
  eapply returns_bind; [apply returns_ComHubPort_loop; assumption|].
  eapply returns_eq; [ | reflexivity | ].
  - eapply returns_bind.
    + eapply returns_try_catch_mnErr.
      * eapply raises_bind_r; [apply returns_printf|].
        apply raises_bind_l. apply raises_drv. exact Ho.
      * run.
    + apply returns_ret.
  - reflexivity.
Qed.

Section NeverThrows.

Variable mgr : SysManager.
Hypothesis quiet : never_throws mgr.

Lemma quiet_call c : forall n, throws mgr n c = None.
Proof. intro n. apply quiet. Qed.
Hint Resolve quiet_call : core.

Lemma returns_print_port iPort :
  returns (print_port mgr iPort) tt (print_port_run mgr iPort).
Proof. unfold print_port, print_port_run. run_exact. Qed.

Lemma returns_node_cond {St} iPort iNode (s : St) :
  returns (node_cond mgr iPort iNode s)
          (iNode <? nodeCount (ports mgr iPort))%N [Call (NodeCount iPort)].
Proof. unfold node_cond. run_exact. Qed.

Lemma returns_print_node iPort iNode :
  returns (print_node mgr iPort iNode tt) tt (print_node_run mgr iPort iNode).
Proof. unfold print_node, print_node_run. run_exact. Qed.

Lemma returns_print_port_stats iPort :
  (nodeCount (ports mgr iPort) < 2 ^ 64)%N ->
  returns (print_port_stats mgr iPort tt) tt (print_port_stats_run mgr iPort).
Proof.
  intro Hn. unfold print_port_stats, print_port_stats_run.
  apply (returns_bind _ _ tt [Call (Ports iPort)] tt _); [run_leaf|].
  apply (returns_bind _ _ tt (print_port_run mgr iPort) tt _);
    [apply returns_print_port|].
  apply (returns_for_loop_unit incr_size_t (node_cond mgr iPort)
           (print_node mgr iPort) (nodeCount (ports mgr iPort))
           (print_node_run mgr iPort) [Call (NodeCount iPort)]).
  - intros i s _. apply returns_node_cond.
  - intros i _. apply returns_print_node.
  - intros i Hi. unfold incr_size_t. apply N.mod_small. lia.
  - lia.
Qed.

Lemma returns_InitializeSysManager numPorts listOfPorts stats :
  (numPorts < 2 ^ 31)%N ->
  (forall iPort, (iPort < numPorts)%N ->
                 (nodeCount (ports mgr iPort) < 2 ^ 64)%N) ->
  returns (InitializeSysManager mgr numPorts listOfPorts stats) true
          (InitializeSysManager_run mgr numPorts listOfPorts stats).
Proof.
  intros Hn Hc. unfold InitializeSysManager, InitializeSysManager_run.
  eapply returns_bind; [apply returns_ComHubPort_loop; auto|].
  eapply returns_bind.
  - apply returns_try_catch. run_exact.
  - cbn iota. destruct stats.
    + eapply returns_eq; [ | reflexivity | apply app_nil_r ].
      eapply returns_bind; [|apply returns_ret].
      apply (returns_for_loop_unit incr_size_t _ _ numPorts
               (print_port_stats_run mgr) []).
      * intros i s _. apply returns_ret.
      * intros i Hi. apply returns_print_port_stats, Hc, Hi.
      * intros i Hi. unfold incr_size_t. apply N.mod_small. lia.
      * lia.
    + run_exact.
Qed.

Lemma returns_check_node iPort iNode l :
  returns (check_node mgr iPort iNode l)
          (fst (check_node_run mgr iPort iNode l))
          (snd (check_node_run mgr iPort iNode l)).
Proof.
  unfold check_node, check_node_run, typeOk, accessOk.
  destruct (nodeTypes_eqb (nodeType (theNode mgr iPort iNode)) CLEARPATH_SC_ADV)
    eqn:Eadv;
  destruct (nodeTypes_eqb (nodeType (theNode mgr iPort iNode)) CLEARPATH_SC)
    eqn:Esc;
  destruct (nodeTypesGood l) eqn:Eg;
  destruct (accessLevelIsFull (theNode mgr iPort iNode)) eqn:Ea;
  cbn [orb negb nodeTypesGood listOfAxes accessLvlsGood fst snd];
  rewrite ?Eg;
  (eapply returns_eq;
   [ eapply returns_bind; [run_leaf|];
     eapply returns_bind; [run_leaf|];
     cbn beta; rewrite ?Eadv; cbn [negb];
     eapply returns_bind;
     [ first [ apply returns_ret
             | eapply returns_bind; [run_leaf|]; cbn beta; rewrite ?Esc;
               apply returns_ret ] |];
     cbn [negb]; cbn iota;
     eapply returns_bind; [ run |];
     cbn beta iota; cbn [nodeTypesGood]; rewrite ?Eg; cbn iota;
     first [ apply returns_ret
           | eapply returns_bind; [run_leaf|];
             eapply returns_bind; [run_leaf|];
             cbn beta; rewrite ?Ea; cbn [negb]; cbn iota; run ]
   | cbn [nodeTypesGood listOfAxes accessLvlsGood];
     rewrite ?andb_true_r, ?andb_false_r; try reflexivity;
     destruct l; cbn in *; congruence
   | cbn [app]; reflexivity ]).
Qed.

Lemma returns_check_port iPort l :
  (nodeCount (ports mgr iPort) < 2 ^ 32)%N ->
  returns (check_port mgr iPort l)
          (fst (check_port_run mgr iPort l))
          (snd (check_port_run mgr iPort l)).
Proof.
  intro Hn. unfold check_port, check_port_run.
  destruct (loop_run (check_node_run mgr iPort) [Call (NodeCount iPort)]
              (N.to_nat (nodeCount (ports mgr iPort))) 0%N l)
    as [l' t] eqn:El.
  cbn [fst snd].
  apply (returns_bind _ _ tt [Call (Ports iPort)] l' _); [run_leaf|].
  apply (returns_bind _ _ tt (print_port_run mgr iPort) l' t);
    [apply returns_print_port|].
  eapply returns_eq;
    [ apply (returns_for_loop incr_unsigned (node_cond mgr iPort)
               (check_node mgr iPort) (nodeCount (ports mgr iPort))
               (check_node_run mgr iPort) [Call (NodeCount iPort)])
        with (k := N.to_nat (nodeCount (ports mgr iPort)))
    | rewrite El; reflexivity | rewrite El; reflexivity ].
  - intros i s _. apply returns_node_cond.
  - intros i s _. apply returns_check_node.
  - intros i Hi. unfold incr_unsigned. apply N.mod_small. lia.
  - lia.
Qed.

Lemma returns_bringup numPorts :
  (numPorts < 2 ^ 64)%N ->
  (forall iPort, (iPort < numPorts)%N ->
                 (nodeCount (ports mgr iPort) < 2 ^ 32)%N) ->
  returns (bringup mgr numPorts)
          (fst (bringup_run mgr numPorts)) (snd (bringup_run mgr numPorts)).
Proof.
  intros Hn Hc. unfold bringup, bringup_run.
  apply (returns_for_loop incr_size_t _ (check_port mgr) numPorts
           (check_port_run mgr) []).
  - intros i s _. apply returns_ret.
  - intros i s Hi. apply returns_check_port, Hc, Hi.
  - intros i Hi. unfold incr_size_t. apply N.mod_small. lia.
  - lia.
Qed.

(** The two loops over [listOfAxes]. *)
Lemma axis_loop_run (f : Axis -> call) (post : list Axis) :
  forall pre,
  snd (loop_run
         (fun i (s : unit) =>
            (s, match nth_error (pre ++ post) (N.to_nat i) with
                | Some a => [Call (f a)]
                | None => []
                end))
         [] (List.length post) (N.of_nat (List.length pre)) tt)
  = map (fun a => Call (f a)) post.
Proof.
  induction post as [|a post IH]; intro pre; cbn [loop_run List.length map].
  - reflexivity.
  - specialize (IH (pre ++ [a])).
    rewrite <- app_assoc in IH. cbn [app] in IH.
    rewrite length_app in IH. cbn [List.length] in IH.
    replace (N.of_nat (List.length pre + 1)) with (N.of_nat (List.length pre) + 1)%N
      in IH by lia.
    destruct (loop_run _ [] (List.length post) (N.of_nat (List.length pre) + 1) tt)
      as [u t] eqn:E.
    cbn [snd] in *. rewrite Nat2N.id.
    rewrite nth_error_app2 by lia. rewrite Nat.sub_diag. cbn [nth_error app].
    f_equal. exact IH.
Qed.

Lemma returns_axis_loop (next : N -> N) (f : Axis -> call) (axes : list Axis) :
  (forall i, (i < N.of_nat (List.length axes))%N -> next i = (i + 1)%N) ->
  returns
    (for_loop next (S (List.length axes))
       (fun iAxis _ => ret (iAxis <? N.of_nat (List.length axes))%N)
       (fun iAxis _ => a <- at_ axes iAxis ;; drv mgr (f a))
       0%N tt)
    tt (map (fun a => Call (f a)) axes).
Proof.
  intro Hnext.
  eapply returns_eq;
    [ apply (returns_for_loop_unit next _ _ (N.of_nat (List.length axes))
               (fun i => match nth_error axes (N.to_nat i) with
                         | Some a => [Call (f a)]
                         | None => []
                         end) [])
        with (k := List.length axes) (i := 0%N)
    | reflexivity
    | exact (axis_loop_run f axes []) ].
  - intros i s _. apply returns_ret.
  - intros i Hi. unfold at_.
    destruct (nth_error axes (N.to_nat i)) as [a|] eqn:E.
    + run_exact.
    + apply nth_error_None in E. lia.
  - exact Hnext.
  - lia.
Qed.

Lemma returns_run_axes l returnVal :
  (nodeTypesGood l && accessLvlsGood l = true ->
   (N.of_nat (List.length (listOfAxes l)) < 2 ^ 16)%N) ->
  returns (run_axes mgr l returnVal)
          (fst (run_axes_run l returnVal)) (snd (run_axes_run l returnVal)).
Proof.
  intro Hn. unfold run_axes, run_axes_run.
  destruct (nodeTypesGood l), (accessLvlsGood l); cbn [andb negb fst snd] in *.
  - specialize (Hn eq_refl).
    eapply returns_eq; [ | reflexivity | apply app_nil_r ].
    eapply returns_bind; [|apply returns_ret].
    apply (returns_axis_loop incr_Uint16
             (fun a => AxisMain (axis_port a) (axis_node a))).
    intros i Hi. unfold incr_Uint16. apply N.mod_small. lia.
  - run_exact.
  - run_exact.
  - run_exact.
Qed.

Lemma returns_teardown l :
  (N.of_nat (List.length (listOfAxes l)) < 2 ^ 64)%N ->
  returns (teardown mgr l) tt (teardown_run l).
Proof.
  intro Hn. unfold teardown, teardown_run.
  eapply returns_bind; [|run_leaf].
  apply (returns_axis_loop incr_size_t
           (fun a => DeleteAxis (axis_port a) (axis_node a))).
  intros i Hi. unfold incr_size_t. apply N.mod_small. lia.
Qed.

End NeverThrows.

(** ** Counter ranges and prefixes *)

Lemma In_Nseq k : forall i j, In j (Nseq i k) <-> (i <= j < i + N.of_nat k)%N.
Proof.
  induction k as [|k IH]; intros i j; cbn [Nseq In].
  - split; [tauto | lia].
  - rewrite IH. split.
    + intros [H|H]; lia.
    + intro H. destruct (N.eq_dec i j); [left; assumption | right; lia].
Qed.

Lemma length_Nseq k : forall i, List.length (Nseq i k) = k.
Proof. induction k; intro i; cbn; [reflexivity | f_equal; auto]. Qed.

Lemma forallb_Nseq (f : N -> bool) k i :
  forallb f (Nseq i k) = true <->
  (forall j, (i <= j < i + N.of_nat k)%N -> f j = true).
Proof.
  rewrite forallb_forall. split; intros H j Hj; apply H, In_Nseq, Hj.
Qed.

Lemma prefix_while_all (f : N -> bool) k :
  forall i, forallb f (Nseq i k) = true -> prefix_while f i k = Nseq i k.
Proof.
  induction k as [|k IH]; intros i H; cbn in *; [reflexivity|].
  apply andb_true_iff in H. destruct H as [Hi Hr].
  rewrite Hi. f_equal. apply IH, Hr.
Qed.

(** Up to the first counter value at which [f] fails. *)
Lemma prefix_while_first (f : N -> bool) d :
  forall i k,
  (d < k)%nat ->
  f (i + N.of_nat d)%N = false ->
  (forall j, (i <= j < i + N.of_nat d)%N -> f j = true) ->
  prefix_while f i k = Nseq i d.
Proof.
  induction d as [|d IH]; intros i k Hk Hbad Hgood.
  - destruct k as [|k]; [lia|]. cbn.
    replace (i + N.of_nat 0)%N with i in Hbad by lia.
    rewrite Hbad. reflexivity.
  - destruct k as [|k]; [lia|]. cbn [prefix_while Nseq].
    rewrite (Hgood i) by lia. f_equal.
    apply IH; [lia | | ].
    + replace (i + 1 + N.of_nat d)%N with (i + N.of_nat (S d))%N by lia.
      exact Hbad.
    + intros j Hj. apply Hgood. lia.
Qed.

Lemma prefix_while_incl (f : N -> bool) k :
  forall i j, In j (prefix_while f i k) ->
  (i <= j < i + N.of_nat k)%N /\ (forall c, (i <= c <= j)%N -> f c = true).
Proof.
  induction k as [|k IH]; intros i j H; cbn in H; [contradiction|].
  destruct (f i) eqn:Ef; [|contradiction].
  destruct H as [<-|H].
  - split; [lia|]. intros c Hc. replace c with i by lia. exact Ef.
  - apply IH in H. destruct H as [Hr Hc]. split; [lia|].
    intros c Hcr. destruct (N.eq_dec c i) as [->|Hne]; [exact Ef|].
    apply Hc. lia.
Qed.

Lemma length_prefix_while (f : N -> bool) k :
  forall i, (List.length (prefix_while f i k) <= k)%nat.
Proof.
  induction k as [|k IH]; intro i; cbn; [lia|].
  destruct (f i); cbn; [specialize (IH (i + 1)%N) |]; lia.
Qed.

Lemma forallb_Nseq_false (f : N -> bool) k i j :
  (i <= j < i + N.of_nat k)%N -> f j = false -> forallb f (Nseq i k) = false.
Proof.
  intros Hj Hf. destruct (forallb f (Nseq i k)) eqn:E; [|reflexivity].
  rewrite forallb_Nseq in E. rewrite (E j Hj) in Hf. discriminate.
Qed.

(** ** Projections of traces *)

Lemma filter_nil_Forall {A} (f : A -> bool) (l : list A) :
  Forall (fun x => f x = false) l -> filter f l = [].
Proof.
  induction 1 as [|x l Hx _ IH]; cbn; [reflexivity|].
  rewrite Hx. exact IH.
Qed.

Lemma lifecycle_app t1 t2 : lifecycle (t1 ++ t2) = lifecycle t1 ++ lifecycle t2.
Proof. apply filter_app. Qed.

Lemma constructed_app t1 t2 :
  constructed (t1 ++ t2) = constructed t1 ++ constructed t2.
Proof.
  induction t1 as [|e t1 IH]; cbn; [reflexivity|].
  destruct e as [[]| | | |]; cbn; rewrite ?IH; reflexivity.
Qed.

Lemma constructed_lifecycle t : constructed (lifecycle t) = constructed t.
Proof.
  unfold lifecycle.
  induction t as [|e t IH]; cbn; [reflexivity|].
  destruct e as [[]| | | |]; cbn; rewrite ?IH; reflexivity.
Qed.

Lemma constructed_new axes : constructed (map new_axis_call axes) = axes.
Proof.
  induction axes as [|[p i] axes IH]; cbn; [reflexivity|].
  unfold mkAxis. f_equal. exact IH.
Qed.

Lemma constructed_none t :
  Forall (fun e => is_NewAxis e = false) t -> constructed t = [].
Proof.
  induction 1 as [|e t He _ IH]; cbn; [reflexivity|].
  destruct e as [[]| | | |]; cbn in *; try exact IH; discriminate.
Qed.

(** ** The node loop of [main] *)

Section NodeLoop.

Variable mgr : SysManager.
Variable iPort : N.

Let tOk (j : N) : bool := typeOk (theNode mgr iPort j).
Let aOk (j : N) : bool := accessOk (theNode mgr iPort j).

Lemma check_node_run_spec i l :
  let l' := fst (check_node_run mgr iPort i l) in
  let t := snd (check_node_run mgr iPort i l) in
  let b := nodeTypesGood l && tOk i in
  listOfAxes l' = listOfAxes l ++ (if b then [mkAxis iPort i] else [])
  /\ nodeTypesGood l' = b
  /\ accessLvlsGood l' = accessLvlsGood l && (if b then aOk i else true)
  /\ lifecycle t = (if b then [Call (NewAxis iPort i)] else [])
  /\ filter is_AccessLevelIsFull t
     = (if b then [Call (AccessLevelIsFull iPort i)] else [])
  /\ In (Call (NodeType iPort i)) t
  /\ (tOk i = false -> In (type_diagnostic i) t).
Proof.
  unfold tOk, aOk, check_node_run, typeOk, accessOk.
  destruct l as [axes good acc]. cbn [listOfAxes nodeTypesGood accessLvlsGood].
  destruct (nodeTypes_eqb (nodeType (theNode mgr iPort i)) CLEARPATH_SC_ADV);
  destruct (nodeTypes_eqb (nodeType (theNode mgr iPort i)) CLEARPATH_SC);
  destruct good; destruct acc;
  destruct (accessLevelIsFull (theNode mgr iPort i));
  cbn; rewrite ?app_nil_r;
  repeat split; try reflexivity; try discriminate; intros; cbn; tauto.
Qed.

(** The locals and the trace after [k] iterations from counter [i]. *)
Lemma node_loop_spec k : forall i l,
  let R := loop_run (check_node_run mgr iPort) [Call (NodeCount iPort)] k i l in
  let pw := if nodeTypesGood l then prefix_while tOk i k else [] in
  listOfAxes (fst R) = listOfAxes l ++ map (mkAxis iPort) pw
  /\ nodeTypesGood (fst R) = nodeTypesGood l && forallb tOk (Nseq i k)
  /\ accessLvlsGood (fst R) = accessLvlsGood l && forallb aOk pw
  /\ lifecycle (snd R) = map (fun j => Call (NewAxis iPort j)) pw
  /\ filter is_AccessLevelIsFull (snd R)
     = map (fun j => Call (AccessLevelIsFull iPort j)) pw
  /\ (forall j, In j (Nseq i k) -> In (Call (NodeType iPort j)) (snd R))
  /\ (forall j, In j (Nseq i k) -> tOk j = false ->
                In (type_diagnostic j) (snd R)).
Proof.
  induction k as [|k IH]; intros i l; cbn zeta.
  - cbn [loop_run fst snd prefix_while Nseq forallb map].
    destruct (nodeTypesGood l); cbn; rewrite ?app_nil_r, ?andb_true_r;
      repeat split; try reflexivity; intros; contradiction.
  - cbn [loop_run].
    pose proof (check_node_run_spec i l) as Hs. cbn zeta in Hs.
    destruct (check_node_run mgr iPort i l) as [l1 t1]. cbn [fst snd] in Hs.
    destruct Hs as (Hax & Hg & Hac & Hlc & Hfa & Hin & Hdiag).
    specialize (IH (i + 1)%N l1). cbn zeta in IH.
    destruct (loop_run (check_node_run mgr iPort) [Call (NodeCount iPort)] k
                (i + 1) l1) as [l2 t2].
    cbn [fst snd] in *.
    destruct IH as (IHax & IHg & IHac & IHlc & IHfa & IHin & IHdiag).
    rewrite IHax, IHg, IHac, Hax, Hg, Hac.
    unfold lifecycle in *. rewrite !filter_app, Hlc, IHlc, Hfa, IHfa, Hg.
    cbn [prefix_while Nseq forallb filter is_lifecycle is_AccessLevelIsFull app].
    split; [|split; [|split; [|split; [|split; [|split]]]]].
    + destruct (nodeTypesGood l), (tOk i); cbn; rewrite <- ?app_assoc;
        rewrite ?app_nil_r; reflexivity.
    + destruct (nodeTypesGood l), (tOk i); reflexivity.
    + destruct (nodeTypesGood l), (tOk i); cbn; rewrite ?andb_true_r;
        rewrite ?andb_assoc; reflexivity.
    + destruct (nodeTypesGood l), (tOk i); reflexivity.
    + destruct (nodeTypesGood l), (tOk i); reflexivity.
    + intros j [<-|Hj].
      * right. apply in_or_app. left. exact Hin.
      * right. apply in_or_app. right. apply IHin, Hj.
    + intros j [<-|Hj] Hbad.
      * right. apply in_or_app. left. apply Hdiag, Hbad.
      * right. apply in_or_app. right. apply IHdiag; assumption.
Qed.

End NodeLoop.

(** ** [main] on one port when nothing throws *)

Section OnePort.

Variable mgr : SysManager.

Let count : nat := N.to_nat (nodeCount (ports mgr 0)).
Let tOk (j : N) : bool := typeOk (nodes (ports mgr 0) j).
Let aOk (j : N) : bool := accessOk (nodes (ports mgr 0) j).
Let checked : list N := prefix_while tOk 0 count.

Lemma lifecycle_print_port iPort : lifecycle (print_port_run mgr iPort) = [].
Proof. reflexivity. Qed.

Lemma bringup_run_spec :
  let R := bringup_run mgr 1 in
  listOfAxes (fst R) = map (mkAxis 0) checked
  /\ nodeTypesGood (fst R) = forallb tOk (Nseq 0 count)
  /\ accessLvlsGood (fst R) = forallb aOk checked
  /\ lifecycle (snd R) = map (fun j => Call (NewAxis 0 j)) checked
  /\ filter is_AccessLevelIsFull (snd R)
     = map (fun j => Call (AccessLevelIsFull 0 j)) checked
  /\ (forall j, In j (Nseq 0 count) -> In (Call (NodeType 0 j)) (snd R))
  /\ (forall j, In j (Nseq 0 count) -> tOk j = false ->
                In (type_diagnostic j) (snd R)).
Proof.
  cbn zeta. unfold bringup_run.
  change (N.to_nat 1) with 1%nat. cbn [loop_run]. unfold check_port_run.
  pose proof (node_loop_spec mgr 0 count 0
                {| listOfAxes := []; nodeTypesGood := true;
                   accessLvlsGood := true |}) as H.
  cbn zeta in H. fold count.
  destruct (loop_run (check_node_run mgr 0) [Call (NodeCount 0)] count 0
              {| listOfAxes := []; nodeTypesGood := true;
                 accessLvlsGood := true |}) as [l t].
  cbn [fst snd listOfAxes nodeTypesGood accessLvlsGood app andb] in *.
  destruct H as (Hax & Hg & Hac & Hlc & Hfa & Hin & Hdiag).
  rewrite app_nil_r.
  repeat split; try assumption.
  - intros j Hj. right. apply in_or_app. right. apply Hin, Hj.
  - intros j Hj Hb. right. apply in_or_app. right. apply Hdiag; assumption.
Qed.

Lemma length_checked : (List.length checked <= count)%nat.
Proof. apply length_prefix_while. Qed.

Hypothesis quiet : never_throws mgr.

(** The counters of the loops do not wrap: [iNode] is an [unsigned], and
    [iAxis], used when the axes are run, a [Uint16]. *)
Hypothesis NodeCount_unsigned : (nodeCount (ports mgr 0) < 2 ^ 32)%N.

Lemma returns_bringup_one :
  returns (bringup mgr 1) (fst (bringup_run mgr 1)) (snd (bringup_run mgr 1)).
Proof.
  apply returns_bringup; [exact quiet | reflexivity |].
  intros iPort Hi. replace iPort with 0%N by lia. exact NodeCount_unsigned.
Qed.

Hypothesis NodeCount_Uint16 :
  nodeTypesGood (fst (bringup_run mgr 1))
  && accessLvlsGood (fst (bringup_run mgr 1)) = true ->
  (nodeCount (ports mgr 0) < 2 ^ 16)%N.

Lemma returns_main_prog argv :
  List.length argv = 2%nat ->
  returns (main_prog mgr argv) (fst (main_run mgr argv)) (snd (main_run mgr argv)).
Proof.
  intro Hlen.
  destruct argv as [|a0 [|a1 [|a2 argv]]]; try discriminate. clear Hlen.
  unfold main_prog, main_run.
  pose proof bringup_run_spec as Hb. cbn zeta in Hb.
  destruct Hb as (Hax & _).
  pose proof returns_bringup_one as Hr.
  pose proof NodeCount_Uint16 as H16.
  destruct (bringup_run mgr 1) as [l tb]. cbn [fst snd] in *.
  assert (Hlen : (List.length (listOfAxes l) <= count)%nat).
  { rewrite Hax, length_map. apply length_checked. }
  assert (Hl : nodeTypesGood l && accessLvlsGood l = true ->
               (N.of_nat (List.length (listOfAxes l)) < 2 ^ 16)%N).
  { intro Hready. specialize (H16 Hready). unfold count in *. lia. }
  pose proof (returns_run_axes mgr quiet l 0 Hl) as Hrun.
  destruct (run_axes_run l 0) as [rv tr]. cbn [fst snd] in *.
  eapply returns_eq; [ | reflexivity | ].
  - eapply returns_bind.
    + apply returns_try_catch. unfold main_try.
      change (negb (Z.of_nat (List.length [a0; a1]) =? 2)%Z) with false.
      cbn iota zeta.
      eapply returns_bind.
      * apply (returns_InitializeSysManager mgr quiet 1
                 (portsList [a0; a1]) true); [reflexivity|].
        intros iPort Hi. replace iPort with 0%N by lia. lia.
      * cbn [negb]. cbn iota.
        eapply returns_bind; [exact Hr|].
        eapply returns_bind; [exact Hrun|].
        eapply returns_bind;
          [apply returns_teardown; [exact quiet | unfold count in *; lia]|].
        apply returns_ret.
    + cbn iota. eapply returns_bind; [apply returns_msgUser | apply returns_ret].
  - rewrite ?app_nil_r, <- ?app_assoc. reflexivity.
Qed.

Lemma main_quiet argv :
  List.length argv = 2%nat ->
  main mgr argv = (Some (fst (main_run mgr argv)), snd (main_run mgr argv)).
Proof.
  intro Hlen. unfold main.
  destruct (returns_main_prog argv Hlen 0%nat) as [n' E]. rewrite E.
  reflexivity.
Qed.

End OnePort.

(** ** What the pieces of a quiet run contribute to the life cycle *)

Lemma filter_all {A} (f : A -> bool) (l : list A) :
  Forall (fun x => f x = true) l -> filter f l = l.
Proof.
  induction 1 as [|x l Hx _ IH]; cbn; [reflexivity|].
  rewrite Hx, IH. reflexivity.
Qed.

Lemma Forall_ComHubPort_loop (P : event -> Prop) listOfPorts k :
  (forall fmt args, P (Printf fmt args)) ->
  (forall i s, P (Call (ComHubPort i s))) ->
  forall i,
  Forall P (snd (loop_run (fun iPort (s : unit) =>
                             (s, ComHubPort_run listOfPorts iPort))
                   [] k i tt)).
Proof.
  intros Hp Hc i. apply loop_run_Forall; [constructor|].
  intros c s. cbn [snd]. unfold ComHubPort_run.
  repeat constructor; auto.
Qed.

Lemma lifecycle_InitializeSysManager_run mgr numPorts listOfPorts stats :
  lifecycle (InitializeSysManager_run mgr numPorts listOfPorts stats) = [].
Proof.
  apply filter_nil_Forall. unfold InitializeSysManager_run.
  repeat (apply Forall_app; split).
  - apply Forall_ComHubPort_loop; reflexivity.
  - repeat constructor.
  - destruct stats; [|constructor].
    apply loop_run_Forall; [constructor|].
    intros iPort s. cbn [snd]. unfold print_port_stats_run.
    constructor; [reflexivity|].
    apply Forall_app; split; [repeat constructor|].
    apply loop_run_Forall; [repeat constructor|].
    intros iNode u. cbn [snd]. unfold print_node_run. repeat constructor.
Qed.

Lemma lifecycle_axis_main axes :
  lifecycle (map axis_main_call axes) = map axis_main_call axes.
Proof.
  apply filter_all. apply Forall_forall. intros e He.
  apply in_map_iff in He. destruct He as (a & <- & _). reflexivity.
Qed.

Lemma lifecycle_teardown_run l : lifecycle (teardown_run l) = teardown_run l.
Proof.
  apply filter_all. unfold teardown_run. apply Forall_app. split.
  - apply Forall_forall. intros e He.
    apply in_map_iff in He. destruct He as (a & <- & _). reflexivity.
  - repeat constructor.
Qed.

Lemma map_new_axis_call iPort (js : list N) :
  map (fun j => Call (NewAxis iPort j)) js
  = map new_axis_call (map (mkAxis iPort) js).
Proof. rewrite map_map. reflexivity. Qed.

Lemma ports_opened_InitializeSysManager_run mgr numPorts listOfPorts stats :
  ports_opened (InitializeSysManager_run mgr numPorts listOfPorts stats).
Proof.
  unfold ports_opened, InitializeSysManager_run.
  apply in_or_app. right. apply in_or_app. left. cbn. tauto.
Qed.

(** Exit code and life cycle of a quiet run on one port. *)
Lemma main_summary mgr argv :
  never_throws mgr ->
  (nodeCount (ports mgr 0) < 2 ^ 32)%N ->
  (nodeTypesGood (fst (bringup_run mgr 1))
   && accessLvlsGood (fst (bringup_run mgr 1)) = true ->
   (nodeCount (ports mgr 0) < 2 ^ 16)%N) ->
  List.length argv = 2%nat ->
  let count := N.to_nat (nodeCount (ports mgr 0)) in
  let tOk := fun j => typeOk (nodes (ports mgr 0) j) in
  let aOk := fun j => accessOk (nodes (ports mgr 0) j) in
  let axes := map (mkAxis 0) (prefix_while tOk 0 count) in
  let tgood := forallb tOk (Nseq 0 count) in
  let agood := forallb aOk (prefix_while tOk 0 count) in
  exists t,
    main mgr argv
    = (Some (if tgood && agood then 0 else if negb tgood then -5 else -6)%Z, t)
    /\ lifecycle t
       = map new_axis_call axes
         ++ (if tgood && agood then map axis_main_call axes else [])
         ++ map delete_axis_call axes ++ [Call PortsClose]
    /\ ports_opened t.
Proof.
  intros Hq Hn H16 Hlen. cbn zeta.
  rewrite (main_quiet mgr Hq Hn H16 argv Hlen).
  unfold main_run.
  pose proof (bringup_run_spec mgr) as Hb. cbn zeta in Hb.
  destruct (bringup_run mgr 1) as [l tb]. cbn [fst snd] in Hb.
  destruct Hb as (Hax & Hg & Hac & Hlc & _).
  unfold run_axes_run. rewrite Hg, Hac.
  set (tgood := forallb _ (Nseq 0 _)) in *.
  set (agood := forallb _ (prefix_while _ 0 _)) in *.
  destruct tgood, agood; cbn [andb negb fst snd];
    (eexists; split; [reflexivity|]; split;
     [ rewrite !lifecycle_app, lifecycle_InitializeSysManager_run, Hlc,
         ?lifecycle_axis_main, lifecycle_teardown_run, map_new_axis_call;
       unfold teardown_run; rewrite Hax; cbn [app];
       change (lifecycle [Cout "Press any key to continue."; Getchar])
         with (@nil event);
       rewrite ?app_nil_r, <- ?app_assoc; reflexivity
     | apply in_or_app; left; apply ports_opened_InitializeSysManager_run ]).
Qed.

(** ** A run that completes is a run without exceptions *)

Lemma alike_refl {A} (m : M A) : completes_alike m m.
Proof. intros n a t n' H. exact H. Qed.

Lemma alike_bind {A B} (m mq : M A) (f fq : A -> M B) :
  completes_alike m mq -> (forall a, completes_alike (f a) (fq a)) ->
  completes_alike (bind m f) (bind mq fq).
Proof.
  intros Hm Hf n b t n' H. unfold bind in *.
  destruct (m n) as [[[a| |] t1] n1] eqn:E; try discriminate.
  rewrite (Hm _ _ _ _ E).
  destruct (f a n1) as [[r t2] n2] eqn:E2.
  injection H as -> <- <-.
  rewrite (Hf _ _ _ _ _ E2). reflexivity.
Qed.

Lemma alike_drv mgr c : completes_alike (drv mgr c) (drv (quiet_of mgr) c).
Proof.
  intros n a t n' H. unfold drv in *. cbn [throws quiet_of].
  destruct (throws mgr n c); [discriminate | exact H].
Qed.

Lemma alike_for_loop {St} next (cond condq : N -> St -> M bool)
    (body bodyq : N -> St -> M St) fuel :
  (forall i s, completes_alike (cond i s) (condq i s)) ->
  (forall i s, completes_alike (body i s) (bodyq i s)) ->
  forall i s,
  completes_alike (for_loop next fuel cond body i s)
                  (for_loop next fuel condq bodyq i s).
Proof.
  intros Hc Hb. induction fuel as [|fuel IH]; intros i s.
  - intros n a t n' H. discriminate H.
  - cbn [for_loop]. apply alike_bind; [apply Hc|].
    intros [|]; [|apply alike_refl].
    apply alike_bind; [apply Hb|]. intro s'. apply IH.
Qed.

Ltac alike :=
  repeat first
    [ apply alike_drv
    | apply alike_refl
    | apply alike_bind; [|intro]
    | apply alike_for_loop; intros
    | match goal with
      | |- completes_alike (if ?b then _ else _) _ => destruct b
      | |- completes_alike (match ?x with _ => _ end) _ => destruct x
      end ].

Lemma alike_bringup mgr numPorts :
  completes_alike (bringup mgr numPorts) (bringup (quiet_of mgr) numPorts).
Proof.
  unfold bringup, check_port, check_node, node_cond, print_port, query.
  cbn [ports quiet_of]. alike.
Qed.

Lemma alike_run_axes mgr l rv :
  completes_alike (run_axes mgr l rv) (run_axes (quiet_of mgr) l rv).
Proof. unfold run_axes, at_. alike. Qed.

Lemma alike_teardown mgr l :
  completes_alike (teardown mgr l) (teardown (quiet_of mgr) l).
Proof. unfold teardown, at_. alike. Qed.

Lemma bind_Val_inv {A B} (m : M A) (f : A -> M B) n b t n' :
  bind m f n = (Val b, t, n') ->
  exists a t1 n1 t2,
    m n = (Val a, t1, n1) /\ f a n1 = (Val b, t2, n') /\ t = t1 ++ t2.
Proof.
  unfold bind. intro H.
  destruct (m n) as [[[a| |] t1] n1]; try discriminate.
  destruct (f a n1) as [[r t2] n2] eqn:E. injection H as -> <- <-.
  exists a, t1, n1, t2. auto.
Qed.

Lemma bind_Val_intro {A B} (m : M A) (f : A -> M B) n a t1 n1 b t2 n2 :
  m n = (Val a, t1, n1) -> f a n1 = (Val b, t2, n2) ->
  bind m f n = (Val b, t1 ++ t2, n2).
Proof. intros H1 H2. unfold bind. rewrite H1, H2. reflexivity. Qed.

Lemma alike_apply {A} (m mq : M A) n a t n' :
  m n = (Val a, t, n') -> completes_alike m mq -> mq n = (Val a, t, n').
Proof. intros H Ha. apply Ha, H. Qed.

(** [InitializeSysManager] returns true only if [PortsOpen] returned. *)
Lemma InitializeSysManager_true_quiet mgr numPorts listOfPorts stats n t n' :
  InitializeSysManager mgr numPorts listOfPorts stats n = (Val true, t, n') ->
  InitializeSysManager (quiet_of mgr) numPorts listOfPorts stats n
  = (Val true, t, n').
Proof.
  unfold InitializeSysManager. intro H.
  apply bind_Val_inv in H. destruct H as ([] & t1 & n1 & t2 & H1 & H2 & ->).
  apply bind_Val_inv in H2. destruct H2 as (opened & t3 & n3 & t4 & H3 & H4 & ->).
  destruct opened.
  2:{ discriminate H4. }
  eapply bind_Val_intro.
  - apply (alike_apply _ _ _ _ _ _ H1). alike.
  - eapply bind_Val_intro.
    + unfold try_catch in *.
      match type of H3 with
      | context [match ?m n1 with _ => _ end] =>
          destruct (m n1) as [[[a| [a c s|] |] t5] n5] eqn:E
      end; try discriminate.
      injection H3 as -> -> ->.
      match goal with
      | |- context [match ?m n1 with _ => _ end] =>
          assert (Eq : m n1 = (Val true, t3, n3))
      end.
      { apply (alike_apply _ _ _ _ _ _ E). alike. }
      rewrite Eq. reflexivity.
    + apply (alike_apply _ _ _ _ _ _ H4).
      unfold print_port_stats, print_node, node_cond, print_port, query.
      cbn [ports quiet_of]. alike.
Qed.

(** When the [try] block of [main] runs to its end, the run is the one
    with the quiet driver, and [main] was given exactly one argument. *)
Lemma main_try_completes mgr argv rv0 rv t n' :
  main_try mgr argv rv0 0 = (Val (Continues rv), t, n') ->
  List.length argv = 2%nat
  /\ main_try (quiet_of mgr) argv rv0 0 = (Val (Continues rv), t, n').
Proof.
  unfold main_try. intro H.
  destruct (Z.of_nat (List.length argv) =? 2)%Z eqn:Eargc; cbn [negb] in *.
  - split; [apply Z.eqb_eq in Eargc; lia|].
    apply bind_Val_inv in H.
    destruct H as (initialized & t1 & n1 & t2 & H1 & H2 & ->).
    destruct initialized; cbn [negb] in *.
    + eapply bind_Val_intro.
      * apply InitializeSysManager_true_quiet. exact H1.
      * cbn [negb]. apply (alike_apply _ _ _ _ _ _ H2).
        apply alike_bind; [apply alike_bringup | intro l].
        apply alike_bind; [apply alike_run_axes | intro r].
        apply alike_bind; [apply alike_teardown | intro u].
        apply alike_refl.
    + exfalso. revert H2. unfold bind, printf, msgUser, emit, ret. cbn.
      discriminate.
  - exfalso.
    repeat (apply bind_Val_inv in H;
            destruct H as (? & ? & ? & ? & _ & H & _)).
    discriminate H.
Qed.

(** ** Loops whose counter wraps before it reaches the bound *)

Lemma for_loop_never_returns {St} (next : N -> N)
    (cond : N -> St -> M bool) (body : N -> St -> M St) (P : N -> Prop) :
  (forall i, P i -> P (next i)) ->
  (forall i s n b t n', P i -> cond i s n = (Val b, t, n') -> b = true) ->
  forall fuel i s n a t n',
  P i -> for_loop next fuel cond body i s n <> (Val a, t, n').
Proof.
  intros Hnext Hcond fuel.
  induction fuel as [|fuel IH]; intros i s n a t n' Hi H.
  - discriminate H.
  - cbn [for_loop] in H.
    apply bind_Val_inv in H. destruct H as (b & t1 & n1 & t2 & Hc & H & _).
    rewrite (Hcond _ _ _ _ _ _ Hi Hc) in H.
    apply bind_Val_inv in H. destruct H as (s' & t3 & n3 & t4 & _ & H & _).
    exact (IH _ _ _ _ _ _ (Hnext i Hi) H).
Qed.

Lemma node_cond_Val {St} mgr iPort iNode (s : St) n b t n' :
  node_cond mgr iPort iNode s n = (Val b, t, n') ->
  b = (iNode <? nodeCount (ports mgr iPort))%N.
Proof.
  unfold node_cond, query, bind, drv, ret.
  destruct (throws mgr n (NodeCount iPort)); [discriminate|].
  intro H. injection H as <- _ _. reflexivity.
Qed.

(** Bring-up on one port returns only if the node count fits the
    [unsigned] counter [iNode]. *)
Lemma bringup_returns_unsigned mgr n l t n' :
  bringup mgr 1 n = (Val l, t, n') ->
  (nodeCount (ports mgr 0) < 2 ^ 32)%N.
Proof.
  intro H. destruct (N.ltb_spec (nodeCount (ports mgr 0)) (2 ^ 32)) as [Hlt|Hge];
    [exact Hlt | exfalso].
  unfold bringup in H. change (N.to_nat 1) with 1%nat in H.
  cbn [for_loop] in H.
  apply bind_Val_inv in H. destruct H as (b & t1 & n1 & t2 & Hc & H & _).
  injection Hc as <- _ _. cbn iota in H.
  apply bind_Val_inv in H. destruct H as (l1 & t3 & n3 & t4 & H & _ & _).
  unfold check_port in H.
  apply bind_Val_inv in H. destruct H as (u1 & t5 & n5 & t6 & _ & H & _).
  apply bind_Val_inv in H. destruct H as (u2 & t7 & n7 & t8 & _ & H & _).
  revert H.
  apply (for_loop_never_returns incr_unsigned _ _ (fun i => (i < 2 ^ 32)%N)).
  - intros i _. unfold incr_unsigned. apply N.mod_lt. discriminate.
  - intros i s m b t9 n9 Hi Hb. apply node_cond_Val in Hb. subst b.
    apply N.ltb_lt. lia.
  - reflexivity.
Qed.

(** Running the axes returns only if their number fits the [Uint16]
    counter [iAxis]. *)
Lemma run_axes_returns_Uint16 mgr l rv0 n rv t n' :
  run_axes mgr l rv0 n = (Val rv, t, n') ->
  nodeTypesGood l && accessLvlsGood l = true ->
  (N.of_nat (List.length (listOfAxes l)) < 2 ^ 16)%N.
Proof.
  intros H Hready.
  destruct (N.ltb_spec (N.of_nat (List.length (listOfAxes l))) (2 ^ 16))
    as [Hlt|Hge]; [exact Hlt | exfalso].
  unfold run_axes in H. rewrite Hready in H.
  apply bind_Val_inv in H. destruct H as (u & t1 & n1 & t2 & H & _ & _).
  revert H.
  apply (for_loop_never_returns incr_Uint16 _ _ (fun i => (i < 2 ^ 16)%N)).
  - intros i _. unfold incr_Uint16. apply N.mod_lt. discriminate.
  - intros i s m b t9 n9 Hi Hb. injection Hb as <- _ _.
    apply N.ltb_lt. lia.
  - reflexivity.
Qed.

(** ** The claims about bring-up *)

Lemma quiet_mgr_never_throws nds : never_throws (quiet_mgr nds).
Proof. intros n c. reflexivity. Qed.

Lemma constructed_bringup mgr :
  constructed (snd (bringup_run mgr 1))
  = map (mkAxis 0)
      (prefix_while (fun j => typeOk (nodes (ports mgr 0) j)) 0
         (N.to_nat (nodeCount (ports mgr 0)))).
Proof.
  destruct (bringup_run_spec mgr) as (_ & _ & _ & Hlc & _).
  rewrite <- constructed_lifecycle, Hlc, map_new_axis_call.
  apply constructed_new.
Qed.

(** C1 as stated fails: with a ClearPath-SC node followed by a node of
    another type, an [Axis] is made for the first node and the axis list at
    the end of bring-up is not empty. *)
Lemma axes_before_type_failure_counterexample :
  ~ (forall mgr : SysManager,
       never_throws mgr ->
       (exists j, (j < nodeCount (ports mgr 0))%N
                  /\ typeOk (nodes (ports mgr 0) j) = false) ->
       forall l t n',
         bringup mgr 1 0 = (Val l, t, n') ->
         listOfAxes l = [] /\ constructed t = []).
Proof.
  intro H.
  destruct (H mgr_sc_then_other (quiet_mgr_never_throws _)
              (ex_intro _ 1%N (conj eq_refl eq_refl))
              _ _ _ eq_refl) as [Hl _].
  discriminate Hl.
Qed.

(** C1, amended.  When some node has a type other than CLEARPATH_SC and
    CLEARPATH_SC_ADV, let [j] be the first such node.  If no driver call
    throws (and the node count fits the [unsigned] counter), bring-up makes an
    [Axis] exactly for the nodes before [j], in order, and for no node from
    [j] on: these axes are the axis list at its end, and [nodeTypesGood] is
    false. *)
Theorem axes_up_to_first_type_failure (mgr : SysManager) (j : N) :
  never_throws mgr ->
  (nodeCount (ports mgr 0) < 2 ^ 32)%N ->
  (j < nodeCount (ports mgr 0))%N ->
  typeOk (nodes (ports mgr 0) j) = false ->
  (forall i, (i < j)%N -> typeOk (nodes (ports mgr 0) i) = true) ->
  exists l t,
    returns (bringup mgr 1) l t
    /\ listOfAxes l = map (mkAxis 0) (Nseq 0 (N.to_nat j))
    /\ constructed t = map (mkAxis 0) (Nseq 0 (N.to_nat j))
    /\ nodeTypesGood l = false.
Proof.
  intros Hq Hn Hj Hbad Hgood.
  exists (fst (bringup_run mgr 1)), (snd (bringup_run mgr 1)).
  split.
  { apply returns_bringup; [exact Hq | reflexivity |].
    intros iPort Hi. replace iPort with 0%N by lia. exact Hn. }
  rewrite constructed_bringup.
  destruct (bringup_run_spec mgr) as (Hax & Hg & _).
  rewrite Hax, Hg.
  assert (Hpw : prefix_while (fun c => typeOk (nodes (ports mgr 0) c)) 0
                  (N.to_nat (nodeCount (ports mgr 0)))
                = Nseq 0 (N.to_nat j)).
  { apply prefix_while_first.
    - lia.
    - rewrite N2Nat.id. exact Hbad.
    - intros i Hi. apply Hgood. lia. }
  rewrite Hpw. repeat split.
  apply (forallb_Nseq_false _ _ _ j); [lia | exact Hbad].
Qed.

Lemma axes_up_to_first_type_failure_witness :
  exists l t,
    returns (bringup mgr_sc_then_other 1) l t
    /\ listOfAxes l = [mkAxis 0 0]
    /\ constructed t = [mkAxis 0 0]
    /\ nodeTypesGood l = false.
Proof.
  apply (axes_up_to_first_type_failure mgr_sc_then_other 1).
  - apply quiet_mgr_never_throws.
  - reflexivity.
  - reflexivity.
  - reflexivity.
  - intros i Hi. replace i with 0%N by lia. reflexivity.
Defined.

(** C2 as stated fails: when [AxisMain] throws, control goes from the
    [try] block to the handler, and neither the [delete] loop nor
    [PortsClose] runs, although the ports were opened and an axis made. *)
Lemma teardown_skipped_when_AxisMain_throws :
  ~ (forall (mgr : SysManager) (argv : list string),
       ports_opened (snd (main mgr argv)) ->
       filter is_teardown (snd (main mgr argv))
       = map delete_axis_call (constructed (snd (main mgr argv)))
         ++ [Call PortsClose]).
Proof.
  intro H.
  specialize (H mgr_AxisMain_throws example_argv).
  assert (Hopen : ports_opened (snd (main mgr_AxisMain_throws example_argv))).
  { unfold ports_opened. vm_compute. tauto. }
  specialize (H Hopen). vm_compute in H. discriminate H.
Qed.

Lemma filter_is_AxisMain_lifecycle t :
  filter is_AxisMain (lifecycle t) = filter is_AxisMain t.
Proof.
  unfold lifecycle. induction t as [|e t IH]; cbn; [reflexivity|].
  destruct e as [[]| | | |]; cbn; rewrite ?IH; reflexivity.
Qed.

Lemma filter_is_teardown_lifecycle t :
  filter is_teardown (lifecycle t) = filter is_teardown t.
Proof.
  unfold lifecycle. induction t as [|e t IH]; cbn; [reflexivity|].
  destruct e as [[]| | | |]; cbn; rewrite ?IH; reflexivity.
Qed.

Lemma filter_map_none {A} (f : event -> bool) (g : A -> event) (l : list A) :
  (forall a, f (g a) = false) -> filter f (map g l) = [].
Proof.
  intro H. induction l as [|a l IH]; cbn; [reflexivity|].
  rewrite H. exact IH.
Qed.

Lemma filter_map_all {A} (f : event -> bool) (g : A -> event) (l : list A) :
  (forall a, f (g a) = true) -> filter f (map g l) = map g l.
Proof.
  intro H. induction l as [|a l IH]; cbn; [reflexivity|].
  rewrite H, IH. reflexivity.
Qed.

Lemma constructed_map_none {A} (g : A -> event) (l : list A) :
  (forall a, is_NewAxis (g a) = false) -> constructed (map g l) = [].
Proof.
  intro H. apply constructed_none. apply Forall_forall. intros e He.
  apply in_map_iff in He. destruct He as (a & <- & _). apply H.
Qed.

(** What a life cycle of the shape found by [main_summary] contains. *)
Lemma lifecycle_shape t axes mains :
  lifecycle t
  = map new_axis_call axes ++ mains ++ map delete_axis_call axes
    ++ [Call PortsClose] ->
  (mains = map axis_main_call axes \/ mains = []) ->
  constructed t = axes
  /\ filter is_AxisMain t = mains
  /\ filter is_teardown t = map delete_axis_call axes ++ [Call PortsClose].
Proof.
  intros H Hm.
  rewrite <- constructed_lifecycle, <- filter_is_AxisMain_lifecycle,
    <- filter_is_teardown_lifecycle, H.
  rewrite !constructed_app, !filter_app.
  rewrite constructed_new.
  rewrite (constructed_map_none delete_axis_call) by reflexivity.
  rewrite (filter_map_none is_AxisMain new_axis_call) by reflexivity.
  rewrite (filter_map_none is_AxisMain delete_axis_call) by reflexivity.
  rewrite (filter_map_none is_teardown new_axis_call) by reflexivity.
  rewrite (filter_map_all is_teardown delete_axis_call) by reflexivity.
  destruct Hm as [-> | ->].
  - rewrite (constructed_map_none axis_main_call) by reflexivity.
    rewrite (filter_map_all is_AxisMain axis_main_call) by reflexivity.
    rewrite (filter_map_none is_teardown axis_main_call) by reflexivity.
    cbn. rewrite ?app_nil_r. auto.
  - cbn. rewrite ?app_nil_r. auto.
Qed.

(** The [try] block of [main] has run to its end: the driver calls it
    made were answered as by the quiet driver, the node count fits the
    counters that were used, and the run is the one of [main_run]. *)
Lemma main_when_try_block_completes mgr argv rv t0 n' :
  main_try mgr argv 0 0 = (Val (Continues rv), t0, n') ->
  List.length argv = 2%nat
  /\ main mgr argv = main (quiet_of mgr) argv
  /\ (nodeCount (ports mgr 0) < 2 ^ 32)%N
  /\ (nodeTypesGood (fst (bringup_run (quiet_of mgr) 1))
      && accessLvlsGood (fst (bringup_run (quiet_of mgr) 1)) = true ->
      (nodeCount (ports mgr 0) < 2 ^ 16)%N).
Proof.
  intro H.
  destruct (main_try_completes mgr argv 0 rv t0 n' H) as (Hlen & Hq).
  split; [exact Hlen|]. split.
  { unfold main, main_prog, bind, try_catch. rewrite H, Hq. reflexivity. }
  destruct argv as [|a0 [|a1 [|a2 argv]]]; try discriminate.
  unfold main_try in Hq.
  change (negb (Z.of_nat (List.length [a0; a1]) =? 2)%Z) with false in Hq.
  cbn iota zeta in Hq.
  apply bind_Val_inv in Hq.
  destruct Hq as (initialized & t1 & n1 & t2 & _ & Hq & _).
  destruct initialized; cbn [negb] in Hq.
  2:{ exfalso. revert Hq. unfold bind, printf, msgUser, emit, ret. cbn.
      discriminate. }
  apply bind_Val_inv in Hq. destruct Hq as (l & tb & n2 & t3 & Hb & Hq & _).
  apply bind_Val_inv in Hq. destruct Hq as (rv' & tr & n3 & t4 & Hr & _ & _).
  pose proof (bringup_returns_unsigned _ _ _ _ _ Hb) as Hc.
  cbn [ports quiet_of] in Hc. split; [exact Hc|].
  destruct (returns_bringup_one (quiet_of mgr)
              (fun n c => eq_refl) Hc n1) as [n'' E].
  rewrite E in Hb. injection Hb as Hl _ _. rewrite Hl. intro Hready.
  pose proof (run_axes_returns_Uint16 _ _ _ _ _ _ _ Hr Hready) as H16.
  destruct (bringup_run_spec (quiet_of mgr)) as (Hax & Hg & _).
  rewrite Hl in Hax, Hg. apply andb_true_iff in Hready.
  destruct Hready as (Hgood & _). rewrite Hgood in Hg. symmetry in Hg.
  rewrite (prefix_while_all _ _ _ Hg) in Hax.
  rewrite Hax, length_map, length_Nseq in H16.
  cbn [ports quiet_of] in H16. lia.
Qed.

(** C2, amended.  On every run of [main] in which control reaches the end
    of the [try] block (nothing is thrown and no [return] inside the block
    is taken: the ports are open and the run ends Ready or Rejected),
    teardown runs exactly once and in this order: every axis that was made
    is deleted, in the order the axes were made and after the last
    [AxisMain], then the ports are closed. *)
Theorem teardown_once_when_try_block_completes
    (mgr : SysManager) (argv : list string) (returnVal : Z)
    (t0 : list event) (n' : nat) :
  main_try mgr argv 0 0 = (Val (Continues returnVal), t0, n') ->
  exists code t,
    main mgr argv = (Some code, t)
    /\ ports_opened t
    /\ filter is_teardown t
       = map delete_axis_call (constructed t) ++ [Call PortsClose]
    /\ lifecycle t
       = map new_axis_call (constructed t) ++ filter is_AxisMain t
         ++ map delete_axis_call (constructed t) ++ [Call PortsClose].
Proof.
  intro H.
  destruct (main_when_try_block_completes mgr argv returnVal t0 n' H)
    as (Hlen & Hmain & Hc & H16).
  destruct (main_summary (quiet_of mgr) argv (fun n c => eq_refl) Hc H16 Hlen)
    as (t & Hq & Hlc & Hopen).
  cbn zeta in *. rewrite <- Hmain in Hq.
  eexists. exists t. split; [exact Hq|]. split; [exact Hopen|].
  destruct (lifecycle_shape t _ _ Hlc) as (Hcons & Hm & Ht).
  { match goal with
    | |- (if ?b then _ else _) = _ \/ _ => destruct b; auto
    end. }
  rewrite Hcons, Hm, Ht. split; [reflexivity | exact Hlc].
Qed.

Lemma teardown_once_when_try_block_completes_witness :
  exists code t,
    main mgr_access_missing example_argv = (Some code, t)
    /\ ports_opened t
    /\ filter is_teardown t
       = map delete_axis_call (constructed t) ++ [Call PortsClose]
    /\ lifecycle t
       = map new_axis_call (constructed t) ++ filter is_AxisMain t
         ++ map delete_axis_call (constructed t) ++ [Call PortsClose].
Proof.
  refine (teardown_once_when_try_block_completes
            mgr_access_missing example_argv (-6)%Z _ _ _).
  vm_compute. reflexivity.
Defined.

(** The two flags computed by bring-up, read as statements about the
    nodes. *)
Lemma verdicts (mgr : SysManager) :
  let n := nodeCount (ports mgr 0) in
  let tOk := fun j => typeOk (nodes (ports mgr 0) j) in
  let aOk := fun j => accessOk (nodes (ports mgr 0) j) in
  let tgood := forallb tOk (Nseq 0 (N.to_nat n)) in
  let agood := forallb aOk (prefix_while tOk 0 (N.to_nat n)) in
  (tgood = true <-> forall j, (j < n)%N -> tOk j = true)
  /\ (tgood = true ->
      prefix_while tOk 0 (N.to_nat n) = Nseq 0 (N.to_nat n)
      /\ (agood = true <-> forall j, (j < n)%N -> aOk j = true)).
Proof.
  cbn zeta. split.
  - rewrite forallb_Nseq. split; intros H j Hj; apply H; lia.
  - intro Ht. rewrite (prefix_while_all _ _ _ Ht). split; [reflexivity|].
    rewrite forallb_Nseq. split; intros H j Hj; apply H; lia.
Qed.

(** C3.  On a run of [main] with a port argument in which nothing throws
    (the node count fitting the [unsigned] counter): when every node
    passes the type check and the access check, and the node count is in
    the range of the [Uint16] axis counter, [AxisMain] is called once for
    each axis made, one per node, and the exit code is 0; when some node
    fails the type check the exit code is -5, whatever the access checks
    say, and [AxisMain] is not called; when all types are valid and some
    node lacks full access the exit code is -6 and [AxisMain] is not
    called.  So [AxisMain] is called only if every node passed both
    checks. *)
Theorem AxisMain_iff_all_nodes_pass (mgr : SysManager) (argv : list string) :
  never_throws mgr ->
  (nodeCount (ports mgr 0) < 2 ^ 32)%N ->
  List.length argv = 2%nat ->
  let n := nodeCount (ports mgr 0) in
  let nd := nodes (ports mgr 0) in
  ((forall j, (j < n)%N -> typeOk (nd j) = true /\ accessOk (nd j) = true) ->
   (n < 2 ^ 16)%N ->
   exists t,
     main mgr argv = (Some 0%Z, t)
     /\ constructed t = map (mkAxis 0) (Nseq 0 (N.to_nat n))
     /\ filter is_AxisMain t = map axis_main_call (constructed t))
  /\ ((exists j, (j < n)%N /\ typeOk (nd j) = false) ->
      exists t,
        main mgr argv = (Some (-5)%Z, t) /\ filter is_AxisMain t = [])
  /\ ((forall j, (j < n)%N -> typeOk (nd j) = true) ->
      (exists j, (j < n)%N /\ accessOk (nd j) = false) ->
      exists t,
        main mgr argv = (Some (-6)%Z, t) /\ filter is_AxisMain t = [])
  /\ (forall code t,
        main mgr argv = (code, t) ->
        filter is_AxisMain t <> [] ->
        forall j, (j < n)%N -> typeOk (nd j) = true /\ accessOk (nd j) = true).
Proof.
  intros Hq Hn Hlen. cbn zeta.
  pose proof (fun H16 => main_summary mgr argv Hq Hn H16 Hlen) as Hsum.
  cbn zeta in Hsum.
  destruct (bringup_run_spec mgr) as (_ & Hg & Hac & _).
  rewrite Hg, Hac in Hsum. clear Hg Hac.
  destruct (verdicts mgr) as (Ht & Ha). cbn zeta in *.
  remember (forallb (fun j => typeOk (nodes (ports mgr 0) j))
              (Nseq 0 (N.to_nat (nodeCount (ports mgr 0))))) as tgood.
  remember (forallb (fun j => accessOk (nodes (ports mgr 0) j))
              (prefix_while (fun j => typeOk (nodes (ports mgr 0) j)) 0
                 (N.to_nat (nodeCount (ports mgr 0))))) as agood.
  clear Heqtgood Heqagood.
  assert (Hshape : forall t axes mains,
            lifecycle t
            = map new_axis_call axes ++ mains ++ map delete_axis_call axes
              ++ [Call PortsClose] ->
            mains = map axis_main_call axes \/ mains = [] ->
            constructed t = axes /\ filter is_AxisMain t = mains).
  { intros t axes mains Hlc Hm.
    destruct (lifecycle_shape t axes mains Hlc Hm) as (Hc & Hf & _). auto. }
  split; [|split; [|split]].
  - intros Hall H16.
    assert (Et : tgood = true) by (apply Ht; intros j Hj; apply Hall, Hj).
    destruct (Ha Et) as (Hpw & Hag).
    assert (Ea : agood = true) by (apply Hag; intros j Hj; apply Hall, Hj).
    destruct (Hsum (fun _ => H16)) as (t & Hmain & Hlc & _).
    rewrite Et, Ea in Hmain, Hlc. cbn [andb] in *.
    destruct (Hshape t _ _ Hlc) as (Hc & Hm); [auto|].
    exists t. rewrite Hc, Hm, Hpw. auto.
  - intros (j & Hj & Hbad).
    assert (Et : tgood = false).
    { destruct tgood; [|reflexivity].
      rewrite (proj1 Ht eq_refl j Hj) in Hbad. discriminate. }
    rewrite Et in Hsum. cbn [andb negb] in Hsum.
    destruct (Hsum ltac:(discriminate)) as (t & Hmain & Hlc & _).
    destruct (Hshape t _ _ Hlc) as (_ & Hm); [auto|].
    exists t. auto.
  - intros Hall (j & Hj & Hbad).
    assert (Et : tgood = true) by (apply Ht; exact Hall).
    destruct (Ha Et) as (Hpw & Hag).
    assert (Ea : agood = false).
    { destruct agood; [|reflexivity].
      rewrite (proj1 Hag eq_refl j Hj) in Hbad. discriminate. }
    rewrite Et, Ea in Hsum. cbn [andb negb] in Hsum.
    destruct (Hsum ltac:(discriminate)) as (t & Hmain & Hlc & _).
    destruct (Hshape t _ _ Hlc) as (_ & Hm); [auto|].
    exists t. auto.
  - intros code t Hmain Hne j Hj.
    destruct tgood eqn:Et; [destruct agood eqn:Ea|].
    + destruct (Ha eq_refl) as (_ & Hag).
      split; [apply (proj1 Ht eq_refl j Hj) | apply (proj1 Hag eq_refl j Hj)].
    + exfalso. cbn [andb negb] in Hsum.
      destruct (Hsum ltac:(discriminate)) as (t' & Hmain' & Hlc & _).
      rewrite Hmain in Hmain'. injection Hmain' as _ <-.
      destruct (Hshape t _ _ Hlc) as (_ & Hm); [auto|].
      apply Hne, Hm.
    + exfalso. cbn [andb negb] in Hsum.
      destruct (Hsum ltac:(discriminate)) as (t' & Hmain' & Hlc & _).
      rewrite Hmain in Hmain'. injection Hmain' as _ <-.
      destruct (Hshape t _ _ Hlc) as (_ & Hm); [auto|].
      apply Hne, Hm.
Qed.

Lemma AxisMain_iff_all_nodes_pass_witness :
  exists t,
    main mgr_ready example_argv = (Some 0%Z, t)
    /\ constructed t = [mkAxis 0 0; mkAxis 0 1]
    /\ filter is_AxisMain t = map axis_main_call (constructed t).
Proof.
  destruct (AxisMain_iff_all_nodes_pass mgr_ready example_argv
              (quiet_mgr_never_throws _) eq_refl eq_refl)
    as (Hready & _).
  apply Hready; [|reflexivity].
  intros j Hj.
  assert (Hc : j = 0%N \/ j = 1%N) by (cbn in Hj; lia).
  destruct Hc as [-> | ->]; split; reflexivity.
Defined.

(** C4.  When every node has a valid type and some node is not in
    full-access mode (nothing throws, and the node count fits the
    [unsigned] counter): bring-up makes an [Axis] for every node and ends
    with [nodeTypesGood] true and [accessLvlsGood] false, so the decision
    is to reject; [AxisMain] is never called and [main] exits with -6. *)
Theorem rejected_for_access_after_making_all_axes
    (mgr : SysManager) (argv : list string) :
  never_throws mgr ->
  (nodeCount (ports mgr 0) < 2 ^ 32)%N ->
  List.length argv = 2%nat ->
  (forall j, (j < nodeCount (ports mgr 0))%N ->
             typeOk (nodes (ports mgr 0) j) = true) ->
  (exists j, (j < nodeCount (ports mgr 0))%N
             /\ accessOk (nodes (ports mgr 0) j) = false) ->
  let all_axes :=
    map (mkAxis 0) (Nseq 0 (N.to_nat (nodeCount (ports mgr 0)))) in
  (exists l tb,
     returns (bringup mgr 1) l tb
     /\ listOfAxes l = all_axes
     /\ nodeTypesGood l = true
     /\ accessLvlsGood l = false)
  /\ (exists t,
        main mgr argv = (Some (-6)%Z, t)
        /\ constructed t = all_axes
        /\ filter is_AxisMain t = []).
Proof.
  intros Hq Hn Hlen Htypes Haccess. cbn zeta.
  destruct (verdicts mgr) as (Ht & Ha). cbn zeta in *.
  assert (Et : forallb (fun j => typeOk (nodes (ports mgr 0) j))
                 (Nseq 0 (N.to_nat (nodeCount (ports mgr 0)))) = true)
    by (apply Ht, Htypes).
  destruct (Ha Et) as (Hpw & Hag).
  assert (Ea : forallb (fun j => accessOk (nodes (ports mgr 0) j))
                 (prefix_while (fun j => typeOk (nodes (ports mgr 0) j)) 0
                    (N.to_nat (nodeCount (ports mgr 0)))) = false).
  { destruct (forallb _ (prefix_while _ _ _)); [|reflexivity].
    destruct Haccess as (j & Hj & Hbad).
    rewrite (proj1 Hag eq_refl j Hj) in Hbad. discriminate. }
  destruct (bringup_run_spec mgr) as (Hax & Hg & Hac & _).
  split.
  - exists (fst (bringup_run mgr 1)), (snd (bringup_run mgr 1)).
    split; [apply returns_bringup_one; assumption|].
    rewrite Hax, Hg, Hac, Et, Ea, Hpw. auto.
  - assert (H16 : nodeTypesGood (fst (bringup_run mgr 1))
                  && accessLvlsGood (fst (bringup_run mgr 1)) = true ->
                  (nodeCount (ports mgr 0) < 2 ^ 16)%N).
    { rewrite Hac, Ea, andb_false_r. discriminate. }
    destruct (main_summary mgr argv Hq Hn H16 Hlen) as (t & Hmain & Hlc & _).
    cbn zeta in *. rewrite Et, Ea in Hmain, Hlc. cbn [andb negb] in *.
    exists t. split; [exact Hmain|].
    destruct (lifecycle_shape t _ _ Hlc) as (Hc & Hm & _); [auto|].
    rewrite Hc, Hm, Hpw. auto.
Qed.

Lemma rejected_for_access_after_making_all_axes_witness :
  (exists l tb,
     returns (bringup mgr_access_missing 1) l tb
     /\ listOfAxes l = [mkAxis 0 0; mkAxis 0 1]
     /\ nodeTypesGood l = true
     /\ accessLvlsGood l = false)
  /\ (exists t,
        main mgr_access_missing example_argv = (Some (-6)%Z, t)
        /\ constructed t = [mkAxis 0 0; mkAxis 0 1]
        /\ filter is_AxisMain t = []).
Proof.
  apply (rejected_for_access_after_making_all_axes
           mgr_access_missing example_argv).
  - apply quiet_mgr_never_throws.
  - reflexivity.
  - reflexivity.
  - intros j Hj.
    assert (Hc : j = 0%N \/ j = 1%N) by (cbn in Hj; lia).
    destruct Hc as [-> | ->]; reflexivity.
  - exists 1%N. split; reflexivity.
Defined.

(** C5.  If [ComHubPort] returns and [PortsOpen] throws the driver's
    structured error, [InitializeSysManager] reports the port setup error
    and returns false for every port list of length 1 or more, without any
    call that enumerates or queries a port or a node; and [main], whose
    list has one port, then returns -2, again without any such call. *)
Theorem no_enumeration_when_PortsOpen_throws
    (mgr : SysManager) (numPorts : N) (listOfPorts : N -> string)
    (printNodeStats : bool) (TheAddr ErrorCode : Z) (ErrorMsg : string) :
  (1 <= numPorts < 2 ^ 31)%N ->
  (forall n i s, throws mgr n (ComHubPort i s) = None) ->
  (forall n, throws mgr n (PortsOpen numPorts)
             = Some (mnErr TheAddr ErrorCode ErrorMsg)) ->
  (exists t,
     returns (InitializeSysManager mgr numPorts listOfPorts printNodeStats)
             false t
     /\ Forall (fun e => is_enumeration e = false) t
     /\ In (Fprintf_stderr "Error - Port setup issue\n" []) t)
  /\ (numPorts = 1%N ->
      forall argv, List.length argv = 2%nat ->
      exists t,
        main mgr argv = (Some (-2)%Z, t)
        /\ Forall (fun e => is_enumeration e = false) t
        /\ In (Fprintf_stderr "Error - Port setup issue\n" []) t
        /\ In (Printf " Caught error: addr=%d, err=0x%0x\n  msg=%s\n"
                 [Int TheAddr; Int ErrorCode; Str ErrorMsg]) t).
Proof.
  intros Hn Hcom Hopen.
  assert (Hfail : forall lp,
            Forall (fun e => is_enumeration e = false)
              (InitializeSysManager_fail numPorts lp TheAddr ErrorCode ErrorMsg)).
  { intro lp. unfold InitializeSysManager_fail. apply Forall_app. split.
    - apply Forall_ComHubPort_loop; reflexivity.
    - repeat constructor. }
  assert (Hrep : forall lp,
            In (Fprintf_stderr "Error - Port setup issue\n" [])
              (InitializeSysManager_fail numPorts lp TheAddr ErrorCode ErrorMsg)).
  { intro lp. unfold InitializeSysManager_fail.
    apply in_or_app. right. cbn. tauto. }
  split.
  - exists (InitializeSysManager_fail numPorts listOfPorts
              TheAddr ErrorCode ErrorMsg).
    split; [|split; [apply Hfail | apply Hrep]].
    apply returns_InitializeSysManager_fail; [exact Hcom | exact Hopen | lia].
  - intros -> argv Hlen.
    destruct argv as [|a0 [|a1 [|a2 argv]]]; try discriminate.
    exists (InitializeSysManager_fail 1 (portsList [a0; a1])
              TheAddr ErrorCode ErrorMsg
            ++ [Printf "Error: Unable to initialize the system\n" [];
                Cout "Press any key to continue."; Getchar]).
    split; [|split; [|split]].
    + unfold main.
      assert (Hr : returns (main_prog mgr [a0; a1]) (-2)%Z
                     (InitializeSysManager_fail 1 (portsList [a0; a1])
                        TheAddr ErrorCode ErrorMsg
                      ++ [Printf "Error: Unable to initialize the system\n" [];
                          Cout "Press any key to continue."; Getchar])).
      { unfold main_prog.
        eapply returns_eq; [ | reflexivity | ].
        - eapply returns_bind.
          + apply returns_try_catch. unfold main_try.
            change (negb (Z.of_nat (List.length [a0; a1]) =? 2)%Z) with false.
            cbn iota zeta.
            eapply returns_bind.
            * apply (returns_InitializeSysManager_fail mgr 1
                       (portsList [a0; a1]) true TheAddr ErrorCode ErrorMsg);
                [exact Hcom | exact Hopen | reflexivity].
            * cbn [negb]. cbn iota. run.
          + cbn iota. apply returns_ret.
        - rewrite ?app_nil_r. reflexivity. }
      destruct (Hr 0%nat) as [n' E]. rewrite E. reflexivity.
    + apply Forall_app. split; [apply Hfail | repeat constructor].
    + apply in_or_app. left. apply Hrep.
    + apply in_or_app. left. unfold InitializeSysManager_fail.
      apply in_or_app. right. cbn. tauto.
Qed.

Lemma no_enumeration_when_PortsOpen_throws_witness :
  exists t,
    main mgr_PortsOpen_throws example_argv = (Some (-2)%Z, t)
    /\ Forall (fun e => is_enumeration e = false) t
    /\ In (Fprintf_stderr "Error - Port setup issue\n" []) t
    /\ In (Printf " Caught error: addr=%d, err=0x%0x\n  msg=%s\n"
             [Int 0; Int 17; Str "port not found"]) t.
Proof.
  refine (proj2 (no_enumeration_when_PortsOpen_throws mgr_PortsOpen_throws 1
                   (portsList example_argv) true 0 17 "port not found"
                   _ _ _) eq_refl example_argv eq_refl).
  - split; [discriminate | reflexivity].
  - intros n i s. reflexivity.
  - intro n. reflexivity.
Defined.

(** C6.  Once a node [j] has failed the type check (nothing throws, and
    the node count fits the [unsigned] counter), [AccessLevelIsFull] is
    not called for [j] nor for any later node,
    while [NodeType] is still read for every node and the type diagnostic
    is printed for every node whose type does not match. *)
Theorem no_access_check_from_type_failure_on (mgr : SysManager) (j : N) :
  never_throws mgr ->
  (nodeCount (ports mgr 0) < 2 ^ 32)%N ->
  (j < nodeCount (ports mgr 0))%N ->
  typeOk (nodes (ports mgr 0) j) = false ->
  exists l t,
    returns (bringup mgr 1) l t
    /\ (forall p i, (j <= i)%N -> ~ In (Call (AccessLevelIsFull p i)) t)
    /\ (forall i, (i < nodeCount (ports mgr 0))%N ->
                  In (Call (NodeType 0 i)) t)
    /\ (forall i, (i < nodeCount (ports mgr 0))%N ->
                  typeOk (nodes (ports mgr 0) i) = false ->
                  In (type_diagnostic i) t).
Proof.
  intros Hq Hn Hj Hbad.
  exists (fst (bringup_run mgr 1)), (snd (bringup_run mgr 1)).
  split.
  { apply returns_bringup; [exact Hq | reflexivity |].
    intros iPort Hi. replace iPort with 0%N by lia. exact Hn. }
  destruct (bringup_run_spec mgr) as (_ & _ & _ & _ & Hfa & Hin & Hdiag).
  split; [|split].
  - intros p i Hi Hcall.
    assert (Hf : In (Call (AccessLevelIsFull p i))
                   (filter is_AccessLevelIsFull (snd (bringup_run mgr 1))))
      by (apply filter_In; split; [exact Hcall | reflexivity]).
    rewrite Hfa in Hf. apply in_map_iff in Hf.
    destruct Hf as (c & Hc & Hpw). injection Hc as _ ->.
    apply prefix_while_incl in Hpw. destruct Hpw as (_ & Hall).
    rewrite (Hall j) in Hbad by lia. discriminate.
  - intros i Hi. apply Hin, In_Nseq. lia.
  - intros i Hi Hb. apply Hdiag; [apply In_Nseq; lia | exact Hb].
Qed.

Lemma no_access_check_from_type_failure_on_witness :
  exists l t,
    returns (bringup mgr_sc_then_other 1) l t
    /\ (forall p i, (1 <= i)%N -> ~ In (Call (AccessLevelIsFull p i)) t)
    /\ (forall i, (i < 2)%N -> In (Call (NodeType 0 i)) t)
    /\ (forall i, (i < 2)%N ->
                  typeOk (nodes (ports mgr_sc_then_other 0) i) = false ->
                  In (type_diagnostic i) t).
Proof.
  apply (no_access_check_from_type_failure_on mgr_sc_then_other 1).
  - apply quiet_mgr_never_throws.
  - reflexivity.
  - reflexivity.
  - reflexivity.
Defined.

(** C7.  Whatever escapes the [try] block of [main] is caught by exactly
    one of the two handlers.  The driver's structured error is reported
    with its address, code and message on standard error and on standard
    output, and the exit code is -3; anything else is reported on both
    streams by the catch-all, and the exit code is -4.  In both cases the
    program then waits for the user and returns. *)
Theorem top_level_handlers
    (mgr : SysManager) (argv : list string) (e : exn)
    (t : list event) (n' : nat) :
  main_try mgr argv 0 0 = (Throw e, t, n') ->
  match e with
  | mnErr TheAddr ErrorCode ErrorMsg =>
      main mgr argv
      = (Some (-3)%Z,
         t ++ [Fprintf_stderr "Caught error: addr=%d, err=0x%0x\nmsg=%s\n"
                 [Int TheAddr; Int ErrorCode; Str ErrorMsg];
               Printf "Caught error: addr=%d, err=0x%08x\nmsg=%s\n"
                 [Int TheAddr; Int ErrorCode; Str ErrorMsg];
               Cout "Press any key to continue."; Getchar])
  | OtherExn =>
      main mgr argv
      = (Some (-4)%Z,
         t ++ [Fprintf_stderr "Error generic caught\n" [];
               Printf "Generic error caught\n" [];
               Cout "Press any key to continue."; Getchar])
  end.
Proof.
  intro H. unfold main, main_prog, bind, try_catch. rewrite H.
  destruct e as [a c s|]; cbn; rewrite <- app_assoc; reflexivity.
Qed.

Lemma top_level_handlers_witness :
  main mgr_AxisMain_throws example_argv
  = (Some (-3)%Z,
     snd (fst (main_try mgr_AxisMain_throws example_argv 0 0))
     ++ [Fprintf_stderr "Caught error: addr=%d, err=0x%0x\nmsg=%s\n"
           [Int 0; Int 256; Str "move failed"];
         Printf "Caught error: addr=%d, err=0x%08x\nmsg=%s\n"
           [Int 0; Int 256; Str "move failed"];
         Cout "Press any key to continue."; Getchar]).
Proof.
  refine (top_level_handlers mgr_AxisMain_throws example_argv
            (mnErr 0 256 "move failed") _ _ _).
  vm_compute. reflexivity.
Defined.

(* ================================================================== *)
(** * Part III: further properties of the code                         *)
(* ================================================================== *)

(** ** lnkAccessLinux.cpp: buffers *)

Module LnkBuffersFacts.
Import LnkAccess LnkBuffers.
Local Open Scope Z_scope.

Lemma c_chars_no_NUL (s : string) :
  Forall (fun c => is_NUL c = false) (c_chars s).
Proof.
  induction s as [|c s IH]; cbn; [constructor|].
  destruct (is_NUL c) eqn:E; constructor; assumption.
Qed.

Lemma c_str_app (l r : list ascii) :
  Forall (fun c => is_NUL c = false) l ->
  c_str (l ++ r) = match c_str r with Some s => Some (l ++ s) | None => None end.
Proof.
  induction 1 as [|c l Hc _ IH]; cbn [app c_str].
  - destruct (c_str r); reflexivity.
  - rewrite Hc, IH. destruct (c_str r); reflexivity.
Qed.

Lemma firstn_repeat {A} (x : A) (k n : nat) :
  (k <= n)%nat -> firstn k (repeat x n) = repeat x k.
Proof.
  revert n. induction k as [|k IH]; intros [|n] H; cbn; try reflexivity; try lia.
  f_equal. apply IH. lia.
Qed.

Lemma Forall_firstn {A} (P : A -> Prop) (k : nat) (l : list A) :
  Forall P l -> Forall P (firstn k l).
Proof.
  intro H. revert k. induction H as [|x l Hx _ IH]; intros [|k]; cbn;
    constructor; auto.
Qed.

(** [strncpy] when the source is shorter than [n]: the buffer then reads
    back as the source, and the bytes from [n] on are untouched. *)
Lemma strncpy_fits (dest : list ascii) (src : string) (n : Z) :
  Z.of_nat (List.length (c_chars src)) < n <= Z.of_nat (List.length dest) ->
  exists buf,
    strncpy dest src n = Returns buf
    /\ c_str buf = Some (c_chars src)
    /\ List.length buf = List.length dest
    /\ skipn (Z.to_nat n) buf = skipn (Z.to_nat n) dest.
Proof.
  intros [Hlt Hle]. unfold strncpy.
  destruct (Z.ltb_spec (Z.of_nat (List.length dest)) n) as [H|_]; [lia|].
  cbn zeta. set (k := Z.to_nat n). set (cs := c_chars src).
  assert (Hk : (List.length cs < k <= List.length dest)%nat)
    by (unfold k, cs; lia).
  assert (E : firstn k (cs ++ repeat NUL k)
              = cs ++ NUL :: repeat NUL (k - List.length cs - 1)).
  { rewrite firstn_app, firstn_all2 by lia. f_equal.
    rewrite firstn_repeat by lia.
    replace (k - List.length cs)%nat with (S (k - List.length cs - 1)) at 1 by lia.
    reflexivity. }
  eexists. split; [reflexivity|]. rewrite E.
  assert (Hlen : List.length (cs ++ NUL :: repeat NUL (k - List.length cs - 1)) = k).
  { rewrite length_app. cbn [List.length]. rewrite repeat_length. lia. }
  split; [|split].
  - rewrite <- app_assoc. rewrite c_str_app by apply c_chars_no_NUL.
    cbn. rewrite app_nil_r. reflexivity.
  - rewrite length_app, Hlen, length_skipn. lia.
  - rewrite skipn_app, Hlen, Nat.sub_diag. cbn [skipn].
    rewrite skipn_all2 by lia. reflexivity.
Qed.

(** [strncpy] when the source has [n] characters or more: the first [n]
    are stored and no terminator is written, so the buffer reads as these
    characters followed by whatever it held from index [n] on. *)
Lemma strncpy_cut (dest : list ascii) (src : string) (n : Z) :
  0 <= n <= Z.of_nat (List.length (c_chars src)) ->
  n <= Z.of_nat (List.length dest) ->
  let stored := firstn (Z.to_nat n) (c_chars src) in
  strncpy dest src n = Returns (stored ++ skipn (Z.to_nat n) dest)
  /\ c_str (stored ++ skipn (Z.to_nat n) dest)
     = match c_str (skipn (Z.to_nat n) dest) with
       | Some s => Some (stored ++ s)
       | None => None
       end.
Proof.
  intros [H0 Hle] Hd. cbn zeta. unfold strncpy.
  destruct (Z.ltb_spec (Z.of_nat (List.length dest)) n) as [H|_]; [lia|].
  cbn zeta. split.
  - rewrite firstn_app.
    replace (Z.to_nat n - List.length (c_chars src))%nat with 0%nat by lia.
    cbn [firstn]. rewrite app_nil_r. reflexivity.
  - apply c_str_app, Forall_firstn, c_chars_no_NUL.
Qed.

(** A size that does not fit the buffer, among them every negative one
    once converted to [size_t]. *)
Lemma strncpy_negative (dest : list ascii) (src : string) (n : Z) :
  - 2 ^ 63 <= n < 0 ->
  Z.of_nat (List.length dest) < 2 ^ 63 ->
  strncpy dest src (to_size_t n)
  = OutOfBounds (N.of_nat (List.length dest)) (N.of_nat (List.length dest)).
Proof.
  intros Hn Hd. unfold strncpy, to_size_t.
  assert (E : n mod 2 ^ 64 = n + 2 ^ 64).
  { symmetry. apply (Z.mod_unique _ _ (-1)); lia. }
  rewrite E.
  destruct (Z.ltb_spec (Z.of_nat (List.length dest)) (n + 2 ^ 64)); [reflexivity|lia].
Qed.

Lemma to_size_t_small (n : Z) : 0 <= n < 2 ^ 64 -> to_size_t n = n.
Proof. intro H. unfold to_size_t. apply Z.mod_small, H. Qed.

(** X1.  [infcGetDumpDir] with room for the 12 characters and their
    terminator ([maxLen] of 13 or more, inside the buffer): whatever
    [mkdir] did, the buffer reads back as ["/tmp/Teknic/"]; bytes from
    [maxLen] on keep their value. *)
Theorem infcGetDumpDir_delivers_path
    (mk : mkdir_result) (pStr : list ascii) (maxLen : Z) :
  13 <= maxLen < 2 ^ 63 ->
  maxLen <= Z.of_nat (List.length pStr) ->
  exists buf,
    snd (infcGetDumpDir mk pStr maxLen) = Returns buf
    /\ c_str buf = Some dump_dir
    /\ List.length buf = List.length pStr
    /\ skipn (Z.to_nat maxLen) buf = skipn (Z.to_nat maxLen) pStr.
Proof.
  intros Hm Hd. unfold infcGetDumpDir. cbn [snd].
  rewrite to_size_t_small by lia.
  apply (strncpy_fits pStr "/tmp/Teknic/" maxLen).
  change (Z.of_nat (List.length (c_chars "/tmp/Teknic/"))) with 12. lia.
Qed.

Lemma infcGetDumpDir_delivers_path_witness :
  exists buf,
    snd (infcGetDumpDir
           {| mkdir_ret := -1; mkdir_errno := 13;
              mkdir_strerror := "Permission denied" |}
           (repeat "x"%char 16) 13) = Returns buf
    /\ c_str buf = Some dump_dir
    /\ List.length buf = 16%nat
    /\ skipn 13 buf = repeat "x"%char 3.
Proof.
  apply (infcGetDumpDir_delivers_path
           {| mkdir_ret := -1; mkdir_errno := 13;
              mkdir_strerror := "Permission denied" |}
           (repeat "x"%char 16) 13).
  - lia.
  - cbn; lia.
Defined.

(** X2.  [infcGetDumpDir] with [maxLen] of 12 or less: the first [maxLen]
    characters of the path are stored and no terminator is written.  Read
    as a C string, the buffer gives these characters followed by what it
    held before from index [maxLen] on, and has no end inside the buffer
    when that part holds no NUL. *)
Theorem infcGetDumpDir_unterminated
    (mk : mkdir_result) (pStr : list ascii) (maxLen : Z) :
  0 <= maxLen <= 12 ->
  maxLen <= Z.of_nat (List.length pStr) ->
  let stored := firstn (Z.to_nat maxLen) dump_dir in
  let old := skipn (Z.to_nat maxLen) pStr in
  snd (infcGetDumpDir mk pStr maxLen) = Returns (stored ++ old)
  /\ c_str (stored ++ old)
     = match c_str old with Some s => Some (stored ++ s) | None => None end.
Proof.
  intros Hm Hd. unfold infcGetDumpDir. cbn [snd].
  rewrite to_size_t_small by lia.
  apply (strncpy_cut pStr "/tmp/Teknic/" maxLen); [|exact Hd].
  change (Z.of_nat (List.length (c_chars "/tmp/Teknic/"))) with 12. lia.
Qed.

Lemma infcGetDumpDir_unterminated_witness :
  snd (infcGetDumpDir
         {| mkdir_ret := 0; mkdir_errno := 0; mkdir_strerror := "" |}
         (repeat "x"%char 12) 12) = Returns dump_dir
  /\ c_str dump_dir = None.
Proof.
  apply (infcGetDumpDir_unterminated
           {| mkdir_ret := 0; mkdir_errno := 0; mkdir_strerror := "" |}
           (repeat "x"%char 12) 12).
  - lia.
  - cbn; lia.
Defined.

(** X3.  [infcFileNameA]: when the path found by [dladdr] is shorter than
    [len] the buffer reads back as that path; when it has [len] characters
    or more, only the first [len] are stored and no terminator is
    written. *)
Theorem infcFileNameA_copies_path
    (dli_fname : string) (fname : list ascii) (len : Z) :
  0 <= len < 2 ^ 63 ->
  len <= Z.of_nat (List.length fname) ->
  let path := c_chars dli_fname in
  (Z.of_nat (List.length path) < len ->
   exists buf,
     infcFileNameA dli_fname fname len = Returns buf
     /\ c_str buf = Some path
     /\ List.length buf = List.length fname)
  /\ (len <= Z.of_nat (List.length path) ->
      infcFileNameA dli_fname fname len
      = Returns (firstn (Z.to_nat len) path ++ skipn (Z.to_nat len) fname)
      /\ c_str (firstn (Z.to_nat len) path ++ skipn (Z.to_nat len) fname)
         = match c_str (skipn (Z.to_nat len) fname) with
           | Some s => Some (firstn (Z.to_nat len) path ++ s)
           | None => None
           end).
Proof.
  intros Hl Hd. cbn zeta. unfold infcFileNameA.
  rewrite to_size_t_small by lia. split.
  - intro Hfit.
    destruct (strncpy_fits fname dli_fname len) as (buf & E & Hs & Hlen & _);
      [lia|].
    exists buf. auto.
  - intro Hcut. apply (strncpy_cut fname dli_fname len); lia.
Qed.

Lemma infcFileNameA_copies_path_witness :
  infcFileNameA "/usr/lib/libsFoundation20.so" (repeat "x"%char 8) 8
  = Returns (list_ascii_of_string "/usr/lib")
  /\ c_str (list_ascii_of_string "/usr/lib") = None.
Proof.
  refine (proj2 (infcFileNameA_copies_path "/usr/lib/libsFoundation20.so"
                   (repeat "x"%char 8) 8 _ _) _).
  - lia.
  - cbn; lia.
  - cbn; lia.
Defined.

(** X4.  [infcFileNameA] with a negative [len]: converted to [size_t] the
    length is 2^63 or more, and [strncpy] writes past the end of any
    buffer. *)
Theorem infcFileNameA_negative_len
    (dli_fname : string) (fname : list ascii) (len : Z) :
  - 2 ^ 63 <= len < 0 ->
  Z.of_nat (List.length fname) < 2 ^ 63 ->
  infcFileNameA dli_fname fname len
  = OutOfBounds (N.of_nat (List.length fname)) (N.of_nat (List.length fname)).
Proof. intros Hl Hd. apply strncpy_negative; assumption. Qed.

Lemma infcFileNameA_negative_len_witness :
  infcFileNameA "/usr/lib/libsFoundation20.so" (repeat "x"%char 8) (-1)
  = OutOfBounds 8 8.
Proof.
  apply (infcFileNameA_negative_len "/usr/lib/libsFoundation20.so"
           (repeat "x"%char 8) (-1)).
  - lia.
  - cbn; lia.
Defined.

(** X5.  The [_controllerSpec] constructor: a [name] shorter than
    [MAX_PATH] is read back from [PortName] unchanged, and [PortRate] is
    the rate given; a [name] of [MAX_PATH] characters or more is stored
    without its terminator. *)
Theorem controllerSpec_keeps_name
    (MAX_PATH : Z) (PortName0 : list ascii) (name : string) (rate : Z) :
  0 <= MAX_PATH <= Z.of_nat (List.length PortName0) ->
  (Z.of_nat (List.length (c_chars name)) < MAX_PATH ->
   exists spec,
     new_controllerSpec MAX_PATH PortName0 name rate = Returns spec
     /\ c_str (PortName spec) = Some (c_chars name)
     /\ PortRate spec = rate)
  /\ (MAX_PATH <= Z.of_nat (List.length (c_chars name)) ->
      new_controllerSpec MAX_PATH PortName0 name rate
      = Returns {| PortName := firstn (Z.to_nat MAX_PATH) (c_chars name)
                               ++ skipn (Z.to_nat MAX_PATH) PortName0;
                   PortRate := rate |}).
Proof.
  intros Hm. unfold new_controllerSpec. split.
  - intro Hfit.
    destruct (strncpy_fits PortName0 name MAX_PATH) as (buf & E & Hs & _);
      [lia|].
    rewrite E. eexists. split; [reflexivity|]. auto.
  - intro Hcut.
    destruct (strncpy_cut PortName0 name MAX_PATH) as (E & _); [lia|lia|].
    rewrite E. reflexivity.
Qed.

Lemma controllerSpec_keeps_name_witness :
  exists spec,
    new_controllerSpec 8 (repeat "x"%char 9) "COM3" 2 = Returns spec
    /\ c_str (PortName spec) = Some (list_ascii_of_string "COM3")
    /\ PortRate spec = 2.
Proof.
  refine (proj1 (controllerSpec_keeps_name 8 (repeat "x"%char 9) "COM3" 2 _) _).
  - cbn; lia.
  - cbn; lia.
Defined.

End LnkBuffersFacts.

(** ** lnkAccessLinux.cpp: error text, inventory, time *)

Module LnkAccessMore.
Import LnkAccess.
Local Open Scope Z_scope.

(** One hexadecimal digit for every four bits. *)
Lemma length_Raw_of_pos :
  forall (p : positive) (rest : string),
  String.length (HexString.Raw.of_pos p rest)
  = ((Pos.size_nat p + 3) / 4 + String.length rest)%nat.
Proof.
  fix IH 1. intros p rest.
  assert (Hstep : forall q d,
            String.length (HexString.Raw.of_pos q (String d rest))
            = ((4 + Pos.size_nat q + 3) / 4 + String.length rest)%nat).
  { intros q d. rewrite IH. cbn [String.length].
    replace (4 + Pos.size_nat q + 3)%nat with (Pos.size_nat q + 3 + 1 * 4)%nat
      by lia.
    rewrite Nat.div_add by discriminate. lia. }
  do 4 try destruct p as [p|p|]; cbn [HexString.Raw.of_pos];
    first [ reflexivity | apply Hstep ].
Qed.

Lemma size_nat_32 (p : positive) :
  Z.pos p < 2 ^ 32 -> (1 <= Pos.size_nat p <= 32)%nat.
Proof.
  intro H. split; [destruct p; cbn; lia|].
  destruct (Pos.eq_dec p (2 ^ 32 - 1)) as [->|Hne]; [cbn; lia|].
  change 32%nat with (Pos.size_nat (2 ^ 32 - 1)).
  apply Pos.size_nat_monotone. lia.
Qed.

(** The text ["Error: 0x%x"] has between 10 and 17 characters. *)
Lemma nChars_range (lookupCode : cnErrCode) :
  10 <= Z.of_nat (String.length (format_Error lookupCode)) <= 17.
Proof.
  unfold format_Error.
  pose proof (Z.mod_pos_bound lookupCode (2 ^ 32) eq_refl) as Hr.
  destruct (lookupCode mod 2 ^ 32) as [|p|p] eqn:E; [cbn; lia | | lia].
  cbn [HexString.of_Z HexString.of_pos append String.length].
  rewrite length_Raw_of_pos. cbn [String.length].
  destruct (size_nat_32 p) as [H1 H32]; [lia|].
  assert (Hd : (1 <= (Pos.size_nat p + 3) / 4 < 9)%nat).
  { split.
    - apply Nat.div_le_lower_bound; lia.
    - apply Nat.Div0.div_lt_upper_bound; lia. }
  lia.
Qed.

Lemma length_substring_0 (s : string) :
  forall n, String.length (substring 0 n s) = Nat.min n (String.length s).
Proof.
  induction s as [|c s IH]; intros [|n]; cbn; try reflexivity.
  f_equal. apply IH.
Qed.

(** X6.  When [infcErrCodeStrA] answers [MN_OK], [maxLen] is between 10
    and 17 and the text in [resultStr] is the formatted text without its
    last character. *)
Theorem infcErrCodeStrA_ok_means_truncated
    (MN_OK MN_ERR_BADARG lookupCode maxLen : cnErrCode) (resultStr : string) :
  MN_OK <> MN_ERR_BADARG ->
  fst (infcErrCodeStrA MN_OK MN_ERR_BADARG lookupCode maxLen resultStr) = MN_OK ->
  let text := format_Error lookupCode in
  let stored :=
    snd (infcErrCodeStrA MN_OK MN_ERR_BADARG lookupCode maxLen resultStr) in
  10 <= maxLen <= 17
  /\ stored = substring 0 (String.length text - 1) text
  /\ S (String.length stored) = String.length text.
Proof.
  intros Hne Hok. cbn zeta.
  pose proof (nChars_range lookupCode) as Hr.
  unfold infcErrCodeStrA, snprintf_Error in *. cbn beta iota zeta in *.
  cbn [fst snd] in *.
  destruct (Z.eqb_spec (Z.of_nat (String.length (format_Error lookupCode)))
              maxLen) as [E|E]; [|congruence].
  destruct (Z.eqb_spec maxLen 0) as [E0|_]; [lia|].
  replace (Z.to_nat (maxLen - 1))
    with (String.length (format_Error lookupCode) - 1)%nat by lia.
  split; [lia|]. split; [reflexivity|].
  rewrite length_substring_0. lia.
Qed.

Lemma infcErrCodeStrA_ok_means_truncated_witness :
  infcErrCodeStrA 0 3 255 11 EmptyString = (0, "Error: 0xf"%string).
Proof.
  pose proof (infcErrCodeStrA_ok_means_truncated 0 3 255 11 EmptyString
                ltac:(discriminate) eq_refl) as H.
  cbn zeta in H. destruct H as (_ & Hs & _).
  apply injective_projections; [reflexivity | exact Hs].
Defined.

(** X7.  With a buffer of 18 bytes or more, or of 9 or less,
    [infcErrCodeStrA] answers [MN_ERR_BADARG] for every code; with 18 or
    more the complete text is in [resultStr]. *)
Theorem infcErrCodeStrA_badarg_outside_10_17
    (MN_OK MN_ERR_BADARG lookupCode maxLen : cnErrCode) (resultStr : string) :
  (maxLen <= 9 \/ 18 <= maxLen ->
   fst (infcErrCodeStrA MN_OK MN_ERR_BADARG lookupCode maxLen resultStr)
   = MN_ERR_BADARG)
  /\ (18 <= maxLen ->
      snd (infcErrCodeStrA MN_OK MN_ERR_BADARG lookupCode maxLen resultStr)
      = format_Error lookupCode)
  /\ (maxLen = 0 ->
      snd (infcErrCodeStrA MN_OK MN_ERR_BADARG lookupCode maxLen resultStr)
      = resultStr).
Proof.
  pose proof (nChars_range lookupCode) as Hr.
  unfold infcErrCodeStrA, snprintf_Error. cbn beta iota zeta. cbn [fst snd].
  split; [|split].
  - intro H.
    destruct (Z.eqb_spec (Z.of_nat (String.length (format_Error lookupCode)))
                maxLen); [lia | reflexivity].
  - intro H. destruct (Z.eqb_spec maxLen 0); [lia|].
    apply LnkAccessFacts.substring_whole. lia.
  - intros ->. reflexivity.
Qed.

(** X8.  On an inventory of [NET_CONTROLLER_MAX] records, [infcDbgDepth]
    reads outside the array for [cNum = NET_CONTROLLER_MAX] and for no
    other controller number. *)
Theorem infcDbgDepth_out_of_bounds_iff
    (NET_CONTROLLER_MAX cNum : N) (SysInventory : list mnNetInvRecords) :
  N.of_nat (List.length SysInventory) = NET_CONTROLLER_MAX ->
  ((exists i s, infcDbgDepth NET_CONTROLLER_MAX SysInventory cNum
                = OutOfBounds i s)
   <-> cNum = NET_CONTROLLER_MAX).
Proof.
  intro Hlen. split.
  - intros (i & s & H).
    destruct (N.lt_trichotomy cNum NET_CONTROLLER_MAX) as [Hlt|[E|Hgt]].
    + destruct (LnkAccessFacts.infcDbgDepth_below_max _ _ _ Hlen Hlt) as [d E].
      rewrite E in H. discriminate.
    + exact E.
    + rewrite (LnkAccessFacts.infcDbgDepth_rejected _ _ _ Hgt) in H.
      discriminate.
  - intros ->. unfold infcDbgDepth. rewrite N.ltb_irrefl.
    destruct (nth_error SysInventory (N.to_nat NET_CONTROLLER_MAX)) eqn:E.
    + assert (Hn : nth_error SysInventory (N.to_nat NET_CONTROLLER_MAX) = None)
        by (apply nth_error_None; lia).
      congruence.
    + eauto.
Qed.

Lemma infcDbgDepth_out_of_bounds_iff_witness :
  (exists i s, infcDbgDepth 2 [ {| pNCS := None |};
                                 {| pNCS := Some {| MaxDepth := 4 |} |} ] 1
               = OutOfBounds i s)
  <-> 1%N = 2%N.
Proof.
  apply (infcDbgDepth_out_of_bounds_iff 2 1
           [ {| pNCS := None |}; {| pNCS := Some {| MaxDepth := 4 |} |} ]).
  reflexivity.
Defined.

(** X9.  Once the epoch of [infcCoreTime] is set (the static is not zero),
    no call changes it: every later call, whatever the clock gives, is
    computed against the same epoch, and a call whose clock read fails
    returns 0. *)
Theorem infcCoreTime_epoch_is_kept
    (initial : float) (clocks : list (option timespec)) :
  is_zero initial = false ->
  infcCoreTime_calls clocks initial
  = map (fun c => fst (infcCoreTime c initial)) clocks
  /\ Forall (fun c => snd (infcCoreTime c initial) = initial) clocks
  /\ (forall c, In c clocks -> c = None -> fst (infcCoreTime c initial) = 0%float).
Proof.
  intro Hz.
  assert (Hkeep : forall c, snd (infcCoreTime c initial) = initial).
  { intros [now|]; unfold infcCoreTime; cbn [snd]; [rewrite Hz|]; reflexivity. }
  split; [|split].
  - induction clocks as [|c clocks IH]; cbn [infcCoreTime_calls map];
      [reflexivity|].
    specialize (Hkeep c). destruct (infcCoreTime c initial) as [r i'].
    cbn [fst snd] in *. subst i'. f_equal. exact IH.
  - apply Forall_forall. intros c _. apply Hkeep.
  - intros c _ ->. reflexivity.
Qed.

Lemma infcCoreTime_epoch_is_kept_witness :
  infcCoreTime_calls
    [Some {| tv_sec := 1700000001; tv_nsec := 500000000 |}; None;
     Some {| tv_sec := 1700000003; tv_nsec := 0 |}] 1700000000000%float
  = [1500%float; 0%float; 3000%float].
Proof.
  refine (eq_trans
            (proj1 (infcCoreTime_epoch_is_kept 1700000000000%float
                      [Some {| tv_sec := 1700000001; tv_nsec := 500000000 |};
                       None;
                       Some {| tv_sec := 1700000003; tv_nsec := 0 |}] _)) _).
  - reflexivity.
  - reflexivity.
Defined.

End LnkAccessMore.

(** ** main.cpp: how a run can end *)

Lemma bind_inv {A B} (m : M A) (f : A -> M B) n r t n' :
  bind m f n = (r, t, n') ->
  (exists a t1 n1 t2,
     m n = (Val a, t1, n1) /\ f a n1 = (r, t2, n') /\ t = t1 ++ t2)
  \/ (stops r /\ exists r0, m n = (r0, t, n') /\ stops r0).
Proof.
  unfold bind. intro H.
  destruct (m n) as [[[a|e|] t1] n1].
  - left. destruct (f a n1) as [[r2 t2] n2] eqn:E. injection H as <- <- <-.
    exists a, t1, n1, t2. auto.
  - right. injection H as <- <- <-. split; [exact I|]. eexists. split; [reflexivity | exact I].
  - right. injection H as <- <- <-. split; [exact I|]. eexists. split; [reflexivity | exact I].
Qed.

(** *** Events a piece of code can produce *)

Lemma emits_ret {A} P (a : A) : emits_only P (ret a).
Proof. intros n r t n' H. injection H as _ <- _. constructor. Qed.

Lemma emits_emit P e : P e -> emits_only P (emit e).
Proof. intros He n r t n' H. injection H as _ <- _. repeat constructor. exact He. Qed.

Lemma emits_drv P mgr c : P (Call c) -> emits_only P (drv mgr c).
Proof.
  intros Hc n r t n' H. unfold drv in H.
  destruct (throws mgr n c); injection H as _ <- _; repeat constructor; exact Hc.
Qed.

Lemma emits_bind {A B} P (m : M A) (f : A -> M B) :
  emits_only P m -> (forall a, emits_only P (f a)) -> emits_only P (bind m f).
Proof.
  intros Hm Hf n r t n' H. apply bind_inv in H.
  destruct H as [(a & t1 & n1 & t2 & H1 & H2 & ->) | (_ & r0 & H1 & _)].
  - apply Forall_app. split; [exact (Hm _ _ _ _ H1) | exact (Hf _ _ _ _ _ H2)].
  - exact (Hm _ _ _ _ H1).
Qed.

Lemma emits_for_loop {St} P next (cond : N -> St -> M bool)
    (body : N -> St -> M St) fuel :
  (forall i s, emits_only P (cond i s)) ->
  (forall i s, emits_only P (body i s)) ->
  forall i s, emits_only P (for_loop next fuel cond body i s).
Proof.
  intros Hc Hb. induction fuel as [|fuel IH]; intros i s.
  - intros n r t n' H. injection H as _ <- _. constructor.
  - cbn [for_loop]. apply emits_bind; [apply Hc|].
    intros [|]; [|apply emits_ret].
    apply emits_bind; [apply Hb|]. intro s'. apply IH.
Qed.

Lemma emits_try_catch {A} P (m : M A) h1 h2 :
  emits_only P m -> (forall a c s, emits_only P (h1 a c s)) ->
  (forall h, h2 = Some h -> emits_only P h) ->
  emits_only P (try_catch m h1 h2).
Proof.
  intros Hm H1 H2 n r t n' H. unfold try_catch in H.
  destruct (m n) as [[[a|[a c s|]|] t1] n1] eqn:E.
  - injection H as _ <- _. exact (Hm _ _ _ _ E).
  - destruct (h1 a c s n1) as [[r2 t2] n2] eqn:E2. injection H as _ <- _.
    apply Forall_app. split; [exact (Hm _ _ _ _ E) | exact (H1 _ _ _ _ _ _ _ E2)].
  - destruct h2 as [h|].
    + destruct (h n1) as [[r2 t2] n2] eqn:E2. injection H as _ <- _.
      apply Forall_app. split; [exact (Hm _ _ _ _ E) | exact (H2 h eq_refl _ _ _ _ E2)].
    + injection H as _ <- _. exact (Hm _ _ _ _ E).
  - injection H as _ <- _. exact (Hm _ _ _ _ E).
Qed.

Ltac emits :=
  repeat first
    [ apply emits_ret
    | apply emits_emit; solve [auto]
    | apply emits_drv; solve [auto]
    | apply emits_bind; [|intro]
    | apply emits_for_loop; intros
    | match goal with
      | |- emits_only _ (if ?b then _ else _) => destruct b
      | |- emits_only _ (match ?x with _ => _ end) => destruct x
      end ].

(** [main], unfolded over the ways its [try] block can end. *)
Lemma main_unfold mgr argv :
  main mgr argv
  = match main_try mgr argv 0 0 with
    | (Val (Returned code), t, _) => (Some code, t)
    | (Val (Continues returnVal), t, _) => (Some returnVal, t ++ wait_for_user)
    | (Throw (mnErr a c s), t, _) =>
        (Some (-3)%Z,
         t ++ [Fprintf_stderr "Caught error: addr=%d, err=0x%0x\nmsg=%s\n"
                 [Int a; Int c; Str s];
               Printf "Caught error: addr=%d, err=0x%08x\nmsg=%s\n"
                 [Int a; Int c; Str s]] ++ wait_for_user)
    | (Throw OtherExn, t, _) =>
        (Some (-4)%Z,
         t ++ [Fprintf_stderr "Error generic caught\n" [];
               Printf "Generic error caught\n" []] ++ wait_for_user)
    | (Diverge, t, _) => (None, t)
    end.
Proof.
  unfold main, main_prog, bind, try_catch.
  destruct (main_try mgr argv 0 0) as [[[[c|rv]|[a c s|]|] t] n]; cbn;
    rewrite ?app_nil_r, <- ?app_assoc; reflexivity.
Qed.

Lemma argv_loop_run (g : string -> event) (post : list string) :
  forall pre,
  snd (loop_run
         (fun i (s : unit) =>
            (s, [g (nth (N.to_nat i) (pre ++ post) EmptyString)]))
         [] (List.length post) (N.of_nat (List.length pre)) tt)
  = map g post.
Proof.
  induction post as [|a post IH]; intro pre; cbn [loop_run List.length map].
  - reflexivity.
  - specialize (IH (pre ++ [a])).
    rewrite <- app_assoc in IH. cbn [app] in IH.
    rewrite length_app in IH. cbn [List.length] in IH.
    replace (N.of_nat (List.length pre + 1)) with (N.of_nat (List.length pre) + 1)%N
      in IH by lia.
    destruct (loop_run _ [] (List.length post) (N.of_nat (List.length pre) + 1) tt)
      as [u t] eqn:E.
    cbn [snd] in *. rewrite Nat2N.id.
    rewrite app_nth2 by lia. rewrite Nat.sub_diag. cbn [nth app].
    f_equal. exact IH.
Qed.

Lemma returns_main_try_usage mgr argv returnVal :
  List.length argv <> 2%nat ->
  returns (main_try mgr argv returnVal) (Returned (-1)) (usage_run argv).
Proof.
  intro Hlen. unfold main_try, usage_run.
  assert (E : negb (Z.of_nat (List.length argv) =? 2)%Z = true).
  { apply negb_true_iff, Z.eqb_neq. lia. }
  rewrite E. cbn iota zeta.
  eapply returns_eq; [ | reflexivity | ].
  - eapply returns_bind; [run_leaf|].
    eapply returns_bind; [run_leaf|].
    eapply returns_bind; [run_leaf|].
    eapply returns_bind.
    + eapply returns_eq;
        [ apply (returns_for_loop_unit incr_int _ _
                   (N.of_nat (List.length argv))
                   (fun i => [Printf "%s " [Str (nth (N.to_nat i) argv EmptyString)]])
                   [])
            with (k := List.length argv) (i := 0%N)
        | reflexivity
        | exact (argv_loop_run (fun a => Printf "%s " [Str a]) argv []) ].
      * intros i s _. eapply returns_eq; [apply returns_ret | | reflexivity].
        destruct (N.ltb_spec i (N.of_nat (List.length argv)));
          [apply Z.ltb_lt | apply Z.ltb_ge]; lia.
      * intros i _. run_exact.
      * intros i _. reflexivity.
      * lia.
    + run.
  - cbn [app]. rewrite ?app_nil_r, <- ?app_assoc. reflexivity.
Qed.

(** X10.  Without exactly one argument, [main] prints the usage text with
    the argument count and every argument in order, waits for the user and
    returns -1; it makes no call into the driver, so no port is touched
    whatever the driver would do. *)
Theorem main_usage (mgr : SysManager) (argv : list string) :
  List.length argv <> 2%nat ->
  main mgr argv = (Some (-1)%Z, usage_run argv)
  /\ calls (usage_run argv) = [].
Proof.
  intro Hlen. split.
  - rewrite main_unfold.
    destruct (returns_main_try_usage mgr argv 0 Hlen 0%nat) as [n' E].
    rewrite E. reflexivity.
  - unfold usage_run. cbn [app calls].
    induction argv as [|a argv IH]; cbn; [reflexivity|].
    clear Hlen IH. induction argv as [|b argv IH]; cbn; [reflexivity | exact IH].
Qed.

Lemma main_usage_witness :
  main mgr_AxisMain_throws ["prog"%string; "a"%string; "b"%string]
  = (Some (-1)%Z, usage_run ["prog"%string; "a"%string; "b"%string])
  /\ calls (usage_run ["prog"%string; "a"%string; "b"%string]) = [].
Proof.
  apply (main_usage mgr_AxisMain_throws
           ["prog"%string; "a"%string; "b"%string]).
  discriminate.
Defined.

Lemma returns_unique {A} (m : M A) a t n a' t' n' :
  returns m a t -> m n = (Val a', t', n') -> a' = a /\ t' = t.
Proof.
  intros Hr H. destruct (Hr n) as [n'' E]. rewrite E in H.
  injection H as <- <- _. auto.
Qed.

(** [InitializeSysManager] returns false only from its handler: [PortsOpen]
    threw the driver's error after every port had been registered. *)
Lemma InitializeSysManager_false mgr numPorts listOfPorts stats n t n' :
  (numPorts < 2 ^ 31)%N ->
  InitializeSysManager mgr numPorts listOfPorts stats n = (Val false, t, n') ->
  exists a c s, t = InitializeSysManager_fail numPorts listOfPorts a c s.
Proof.
  intros Hn H. unfold InitializeSysManager in H.
  apply bind_Val_inv in H. destruct H as ([] & t1 & n1 & t2 & H1 & H2 & ->).
  apply bind_Val_inv in H2. destruct H2 as (opened & t3 & n3 & t4 & H3 & H4 & ->).
  destruct opened.
  { exfalso. apply bind_Val_inv in H4.
    destruct H4 as (u & t5 & n5 & t6 & _ & H4 & _). discriminate H4. }
  injection H4 as <- _.
  assert (E1 : t1 = snd (loop_run (fun iPort (s : unit) =>
                                     (s, ComHubPort_run listOfPorts iPort))
                           [] (N.to_nat numPorts) 0%N tt)).
  { assert (Hq : for_loop incr_int (S (N.to_nat numPorts))
                   (fun iPort _ => ret (Z.of_N iPort <? to_int numPorts)%Z)
                   (fun iPort _ =>
                      printf "Initializing port %d, port number %s\n"
                        [Int (Z.of_N iPort); Str (listOfPorts iPort)] ;;
                      drv (quiet_of mgr) (ComHubPort iPort (listOfPorts iPort)))
                   0%N tt n = (Val tt, t1, n1)).
    { apply (alike_apply _ _ _ _ _ _ H1). alike. }
    apply (returns_unique _ _ _ _ _ _ _
             (returns_ComHubPort_loop (quiet_of mgr) numPorts listOfPorts
                (fun _ _ _ => eq_refl) Hn) Hq). }
  unfold try_catch, bind, printf, emit, drv, ret in H3.
  unfold InitializeSysManager_fail.
  destruct (throws mgr n1 (PortsOpen numPorts)) as [[a c s|]|];
    try discriminate.
  injection H3 as <- _. exists a, c, s. rewrite E1, app_nil_r. reflexivity.
Qed.

(** The two [return] statements inside the [try] block. *)
Lemma main_try_Returned mgr argv rv0 n code t n' :
  main_try mgr argv rv0 n = (Val (Returned code), t, n') ->
  (code = (-1)%Z /\ List.length argv <> 2%nat /\ t = usage_run argv)
  \/ (code = (-2)%Z /\ List.length argv = 2%nat
      /\ exists a c s,
           t = InitializeSysManager_fail 1 (portsList argv) a c s
               ++ [Printf "Error: Unable to initialize the system\n" []]
               ++ wait_for_user).
Proof.
  intro H. destruct (Nat.eq_dec (List.length argv) 2) as [Hlen|Hlen].
  - right. unfold main_try in H.
    assert (E : negb (Z.of_nat (List.length argv) =? 2)%Z = false).
    { apply negb_false_iff, Z.eqb_eq. lia. }
    rewrite E in H. cbn iota zeta in H.
    apply bind_Val_inv in H.
    destruct H as (initialized & t1 & n1 & t2 & H1 & H2 & ->).
    destruct initialized; cbn [negb] in H2.
    + exfalso.
      repeat (apply bind_Val_inv in H2;
              destruct H2 as (? & ? & ? & ? & _ & H2 & _)).
      discriminate H2.
    + destruct (InitializeSysManager_false mgr 1 _ _ _ _ _ eq_refl H1)
        as (a & c & s & ->).
      unfold bind, printf, msgUser, emit, ret in H2. cbn in H2.
      injection H2 as <- <- _. repeat split; try assumption. exists a, c, s.
      reflexivity.
  - left. destruct (returns_unique _ _ _ _ _ _ _
                      (returns_main_try_usage mgr argv rv0 Hlen) H) as (E & ->).
    injection E as ->. auto.
Qed.

Lemma run_axes_Val mgr l rv0 n rv t n' :
  run_axes mgr l rv0 n = (Val rv, t, n') ->
  (nodeTypesGood l && accessLvlsGood l = true /\ rv = rv0)
  \/ (nodeTypesGood l = false /\ rv = (-5)%Z)
  \/ (nodeTypesGood l = true /\ accessLvlsGood l = false /\ rv = (-6)%Z).
Proof.
  unfold run_axes. intro H.
  destruct (nodeTypesGood l), (accessLvlsGood l); cbn [andb negb] in H.
  - left. apply bind_Val_inv in H. destruct H as (u & t1 & n1 & t2 & _ & H & _).
    injection H as <- _. auto.
  - right. right. injection H as <- _. auto.
  - right. left. injection H as <- _. auto.
  - right. left. injection H as <- _. auto.
Qed.

(** The end of the [try] block is reached with 0, -5 or -6. *)
Lemma main_try_Continues mgr argv n rv t n' :
  main_try mgr argv 0 n = (Val (Continues rv), t, n') ->
  rv = 0%Z \/ rv = (-5)%Z \/ rv = (-6)%Z.
Proof.
  intro H. unfold main_try in H.
  destruct (negb (Z.of_nat (List.length argv) =? 2)%Z).
  - exfalso.
    repeat (apply bind_Val_inv in H;
            destruct H as (? & ? & ? & ? & _ & H & _)).
    discriminate H.
  - cbn zeta in H. apply bind_Val_inv in H.
    destruct H as (initialized & t1 & n1 & t2 & _ & H & _).
    destruct initialized; cbn [negb] in H.
    + apply bind_Val_inv in H. destruct H as (l & tb & n2 & t3 & _ & H & _).
      apply bind_Val_inv in H. destruct H as (rv' & tr & n3 & t4 & Hr & H & _).
      apply bind_Val_inv in H. destruct H as (u & td & n4 & t5 & _ & H & _).
      injection H as <- _.
      destruct (run_axes_Val _ _ _ _ _ _ _ Hr) as [(_ & ->)|[(_ & ->)|(_ & _ & ->)]];
        auto.
    + exfalso.
      repeat (apply bind_Val_inv in H;
              destruct H as (? & ? & ? & ? & _ & H & _)).
      discriminate H.
Qed.

(** X11.  Every run of [main] that returns does so with one of the exit
    codes 0, -1, ..., -6, and the last thing it did was to prompt the user
    and wait for a key: this holds on all paths, the two early returns and
    the two handlers included, whatever the driver throws. *)
Theorem main_exits_after_waiting
    (mgr : SysManager) (argv : list string) (code : Z) (t : list event) :
  main mgr argv = (Some code, t) ->
  In code exit_codes /\ exists t', t = t' ++ wait_for_user.
Proof.
  rewrite main_unfold.
  destruct (main_try mgr argv 0 0) as [[[[c|rv]|[a c s|]|] t0] n] eqn:E;
    intro H; first [discriminate H | injection H as <- <-].
  - destruct (main_try_Returned _ _ _ _ _ _ _ E)
      as [(-> & _ & ->)|(-> & _ & a & c' & s & ->)].
    + split; [cbn; tauto|]. unfold usage_run. eexists.
      rewrite !app_assoc. reflexivity.
    + split; [cbn; tauto|]. eexists. rewrite !app_assoc. reflexivity.
  - split; [|eauto].
    destruct (main_try_Continues _ _ _ _ _ _ E) as [-> | [-> | ->]]; cbn; tauto.
  - split; [cbn; tauto|].
    match goal with
    | |- exists t', ?t ++ ?x :: ?y :: wait_for_user = _ =>
        exists (t ++ [x; y]); rewrite <- app_assoc; reflexivity
    end.
  - split; [cbn; tauto|].
    match goal with
    | |- exists t', ?t ++ ?x :: ?y :: wait_for_user = _ =>
        exists (t ++ [x; y]); rewrite <- app_assoc; reflexivity
    end.
Qed.

Lemma main_exits_after_waiting_witness :
  In (-3)%Z exit_codes
  /\ exists t',
       snd (main mgr_AxisMain_throws example_argv) = t' ++ wait_for_user.
Proof.
  apply (main_exits_after_waiting mgr_AxisMain_throws example_argv (-3)
           (snd (main mgr_AxisMain_throws example_argv))).
  vm_compute. reflexivity.
Defined.

(** X12.  [main] returns -3 exactly when the driver's structured error
    escaped the [try] block, and -4 exactly when something else was
    thrown; no other path gives these two codes. *)
Theorem handler_codes_iff (mgr : SysManager) (argv : list string) :
  ((exists t, main mgr argv = (Some (-3)%Z, t))
   <-> exists a c s t0 n', main_try mgr argv 0 0 = (Throw (mnErr a c s), t0, n'))
  /\ ((exists t, main mgr argv = (Some (-4)%Z, t))
      <-> exists t0 n', main_try mgr argv 0 0 = (Throw OtherExn, t0, n')).
Proof.
  rewrite main_unfold.
  destruct (main_try mgr argv 0 0) as [[[[c|rv]|[a c s|]|] t0] n] eqn:E.
  - assert (Hc : c = (-1)%Z \/ c = (-2)%Z).
    { destruct (main_try_Returned _ _ _ _ _ _ _ E) as [(-> & _)|(-> & _)]; auto. }
    split; split;
      try (intros (t & H); injection H as H _; lia);
      intros H; repeat destruct H as (? & H); discriminate H.
  - pose proof (main_try_Continues _ _ _ _ _ _ E) as Hc.
    split; split;
      try (intros (t & H); injection H as H _; lia);
      intros H; repeat destruct H as (? & H); discriminate H.
  - split; split.
    + intros _. eauto 6.
    + intros _. eauto.
    + intros (t & H). discriminate H.
    + intros H. repeat destruct H as (? & H). discriminate H.
  - split; split.
    + intros (t & H). discriminate H.
    + intros H. repeat destruct H as (? & H). discriminate H.
    + intros _. eauto.
    + intros _. eauto.
  - split; split;
      try (intros (t & H); discriminate H);
      intros H; repeat destruct H as (? & H); discriminate H.
Qed.

(** ** main.cpp: what an exit code says about the run *)

Lemma forallb_Nseq_exists (f : N -> bool) k :
  forall i, forallb f (Nseq i k) = false ->
  exists j, (i <= j < i + N.of_nat k)%N /\ f j = false.
Proof.
  induction k as [|k IH]; intros i H; cbn in H; [discriminate|].
  destruct (f i) eqn:Ef.
  - destruct (IH (i + 1)%N H) as (j & Hj & Hf). exists j. split; [lia | exact Hf].
  - exists i. split; [lia | exact Ef].
Qed.

(** Exit code and life cycle of any run that reaches the end of the [try]
    block. *)
Lemma main_completes_summary mgr argv rv t0 n' :
  main_try mgr argv 0 0 = (Val (Continues rv), t0, n') ->
  let count := N.to_nat (nodeCount (ports mgr 0)) in
  let tOk := fun j => typeOk (nodes (ports mgr 0) j) in
  let aOk := fun j => accessOk (nodes (ports mgr 0) j) in
  let axes := map (mkAxis 0) (prefix_while tOk 0 count) in
  let tgood := forallb tOk (Nseq 0 count) in
  let agood := forallb aOk (prefix_while tOk 0 count) in
  List.length argv = 2%nat
  /\ rv = (if tgood && agood then 0 else if negb tgood then -5 else -6)%Z
  /\ exists t,
       main mgr argv = (Some rv, t)
       /\ lifecycle t
          = map new_axis_call axes
            ++ (if tgood && agood then map axis_main_call axes else [])
            ++ map delete_axis_call axes ++ [Call PortsClose]
       /\ ports_opened t.
Proof.
  intro H. cbn zeta.
  destruct (main_when_try_block_completes mgr argv rv t0 n' H)
    as (Hlen & Hmain & Hc & H16).
  destruct (main_summary (quiet_of mgr) argv (fun n c => eq_refl) Hc H16 Hlen)
    as (t & Hq & Hlc & Hopen).
  cbn zeta in *. cbn [ports quiet_of] in *.
  rewrite <- Hmain in Hq.
  assert (Hrv : main mgr argv = (Some rv, t0 ++ wait_for_user)).
  { rewrite main_unfold, H. reflexivity. }
  rewrite Hrv in Hq. injection Hq as Hcode Ht.
  split; [exact Hlen|]. split; [exact Hcode|].
  exists t. rewrite Hrv, Ht. auto.
Qed.

(** Which way a returning run left the [try] block, by its exit code. *)
Lemma main_code_completes mgr argv code t :
  main mgr argv = (Some code, t) ->
  code = 0%Z \/ code = (-5)%Z \/ code = (-6)%Z ->
  exists t0 n', main_try mgr argv 0 0 = (Val (Continues code), t0, n').
Proof.
  rewrite main_unfold. intros H Hcode.
  destruct (main_try mgr argv 0 0) as [[[[c|rv]|[a c s|]|] t0] n] eqn:E;
    first [discriminate H | injection H as <- <-]; try lia.
  - exfalso.
    destruct (main_try_Returned _ _ _ _ _ _ _ E) as [(-> & _)|(-> & _)]; lia.
  - eauto.
Qed.

(** X13.  Exit code 0 is returned only after a complete run: [main] had
    one argument, the ports opened, every node passed the type check and
    the access check, an [Axis] was made for every node, [AxisMain] ran
    once on each, every axis was deleted and the ports were closed, in
    this order. *)
Theorem exit_0_means_all_axes_ran
    (mgr : SysManager) (argv : list string) (t : list event) :
  main mgr argv = (Some 0%Z, t) ->
  let n := nodeCount (ports mgr 0) in
  let all := map (mkAxis 0) (Nseq 0 (N.to_nat n)) in
  List.length argv = 2%nat
  /\ ports_opened t
  /\ (forall j, (j < n)%N ->
        typeOk (nodes (ports mgr 0) j) = true
        /\ accessOk (nodes (ports mgr 0) j) = true)
  /\ lifecycle t
     = map new_axis_call all ++ map axis_main_call all
       ++ map delete_axis_call all ++ [Call PortsClose].
Proof.
  intro H. cbn zeta.
  destruct (main_code_completes mgr argv 0 t H ltac:(auto)) as (t0 & n' & E).
  destruct (main_completes_summary mgr argv 0 t0 n' E)
    as (Hlen & Hcode & t' & Hmain & Hlc & Hopen).
  rewrite H in Hmain. injection Hmain as <-.
  destruct (verdicts mgr) as (Ht & Ha). cbn zeta in *.
  destruct (forallb (fun j => typeOk (nodes (ports mgr 0) j))
              (Nseq 0 (N.to_nat (nodeCount (ports mgr 0))))) eqn:Et;
    [|cbn in Hcode; discriminate].
  destruct (Ha eq_refl) as (Hpw & Hag).
  destruct (forallb (fun j => accessOk (nodes (ports mgr 0) j))
              (prefix_while (fun j => typeOk (nodes (ports mgr 0) j)) 0
                 (N.to_nat (nodeCount (ports mgr 0))))) eqn:Ea;
    [|cbn in Hcode; discriminate].
  cbn [andb] in Hlc. rewrite Hpw in Hlc.
  split; [exact Hlen|]. split; [exact Hopen|]. split; [|exact Hlc].
  intros j Hj. split; [apply (proj1 Ht eq_refl j Hj) | apply (proj1 Hag eq_refl j Hj)].
Qed.

Lemma exit_0_means_all_axes_ran_witness :
  lifecycle (snd (main mgr_ready example_argv))
  = [Call (NewAxis 0 0); Call (NewAxis 0 1);
     Call (AxisMain 0 0); Call (AxisMain 0 1);
     Call (DeleteAxis 0 0); Call (DeleteAxis 0 1); Call PortsClose].
Proof.
  refine (proj2 (proj2 (proj2
            (exit_0_means_all_axes_ran mgr_ready example_argv
               (snd (main mgr_ready example_argv)) _)))).
  vm_compute. reflexivity.
Defined.

(** X14.  Exit code -5 is returned only when the ports opened and some
    node failed the type check; then [AxisMain] was not called, and every
    axis that had been made was deleted before the ports were closed. *)
Theorem exit_minus_5_means_type_mismatch
    (mgr : SysManager) (argv : list string) (t : list event) :
  main mgr argv = (Some (-5)%Z, t) ->
  List.length argv = 2%nat
  /\ ports_opened t
  /\ (exists j, (j < nodeCount (ports mgr 0))%N
               /\ typeOk (nodes (ports mgr 0) j) = false)
  /\ lifecycle t
     = map new_axis_call (constructed t)
       ++ map delete_axis_call (constructed t) ++ [Call PortsClose].
Proof.
  intro H.
  destruct (main_code_completes mgr argv _ t H ltac:(auto)) as (t0 & n' & E).
  destruct (main_completes_summary mgr argv _ t0 n' E)
    as (Hlen & Hcode & t' & Hmain & Hlc & Hopen).
  rewrite H in Hmain. injection Hmain as <-. cbn zeta in *.
  destruct (forallb (fun j => typeOk (nodes (ports mgr 0) j))
              (Nseq 0 (N.to_nat (nodeCount (ports mgr 0))))) eqn:Et.
  { exfalso. destruct (forallb _ (prefix_while _ _ _)); cbn in Hcode; discriminate. }
  cbn [andb] in Hlc.
  destruct (lifecycle_shape t _ _ Hlc) as (Hc & _); [auto|].
  split; [exact Hlen|]. split; [exact Hopen|]. split.
  - destruct (forallb_Nseq_exists _ _ _ Et) as (j & Hj & Hf).
    exists j. split; [lia | exact Hf].
  - rewrite Hc. exact Hlc.
Qed.

Lemma exit_minus_5_means_type_mismatch_witness :
  lifecycle (snd (main mgr_sc_then_other example_argv))
  = [Call (NewAxis 0 0); Call (DeleteAxis 0 0); Call PortsClose].
Proof.
  destruct (exit_minus_5_means_type_mismatch mgr_sc_then_other example_argv
              (snd (main mgr_sc_then_other example_argv)))
    as (_ & _ & _ & Hlc).
  - vm_compute. reflexivity.
  - rewrite Hlc. vm_compute. reflexivity.
Defined.

(** X15.  Exit code -6 is returned only when the ports opened, every node
    had a valid type and some node lacked full access; then an [Axis] was
    made for every node, none was run, and all were deleted before the
    ports were closed. *)
Theorem exit_minus_6_means_access_missing
    (mgr : SysManager) (argv : list string) (t : list event) :
  main mgr argv = (Some (-6)%Z, t) ->
  let n := nodeCount (ports mgr 0) in
  let all := map (mkAxis 0) (Nseq 0 (N.to_nat n)) in
  List.length argv = 2%nat
  /\ ports_opened t
  /\ (forall j, (j < n)%N -> typeOk (nodes (ports mgr 0) j) = true)
  /\ (exists j, (j < n)%N /\ accessOk (nodes (ports mgr 0) j) = false)
  /\ lifecycle t
     = map new_axis_call all ++ map delete_axis_call all ++ [Call PortsClose].
Proof.
  intro H. cbn zeta.
  destruct (main_code_completes mgr argv _ t H ltac:(auto)) as (t0 & n' & E).
  destruct (main_completes_summary mgr argv _ t0 n' E)
    as (Hlen & Hcode & t' & Hmain & Hlc & Hopen).
  rewrite H in Hmain. injection Hmain as <-.
  destruct (verdicts mgr) as (Ht & Ha). cbn zeta in *.
  destruct (forallb (fun j => typeOk (nodes (ports mgr 0) j))
              (Nseq 0 (N.to_nat (nodeCount (ports mgr 0))))) eqn:Et.
  2:{ exfalso. cbn in Hcode. discriminate. }
  destruct (Ha eq_refl) as (Hpw & Hag).
  rewrite Hpw in Hlc, Hcode.
  destruct (forallb (fun j => accessOk (nodes (ports mgr 0) j))
              (Nseq 0 (N.to_nat (nodeCount (ports mgr 0))))) eqn:Ea.
  { exfalso. cbn in Hcode. discriminate. }
  cbn [andb] in Hlc.
  split; [exact Hlen|]. split; [exact Hopen|].
  split; [exact (proj1 Ht eq_refl)|]. split; [|exact Hlc].
  destruct (forallb_Nseq_exists _ _ _ Ea) as (j & Hj & Hf).
  exists j. split; [lia | exact Hf].
Qed.

Lemma exit_minus_6_means_access_missing_witness :
  lifecycle (snd (main mgr_access_missing example_argv))
  = [Call (NewAxis 0 0); Call (NewAxis 0 1);
     Call (DeleteAxis 0 0); Call (DeleteAxis 0 1); Call PortsClose].
Proof.
  refine (proj2 (proj2 (proj2 (proj2
            (exit_minus_6_means_access_missing mgr_access_missing example_argv
               (snd (main mgr_access_missing example_argv)) _))))).
  vm_compute. reflexivity.
Defined.

(** X16.  Exit code -2 is returned only when [PortsOpen] threw the
    driver's error: the run made exactly two driver calls, [ComHubPort]
    for the port named on the command line and [PortsOpen]; the port
    setup error was written to standard error; the ports were not
    reported open and [PortsClose] was not called. *)
Theorem exit_minus_2_means_PortsOpen_failed
    (mgr : SysManager) (argv : list string) (t : list event) :
  main mgr argv = (Some (-2)%Z, t) ->
  List.length argv = 2%nat
  /\ calls t = [ComHubPort 0 (nth 1 argv EmptyString); PortsOpen 1]
  /\ In (Fprintf_stderr "Error - Port setup issue\n" []) t
  /\ ~ ports_opened t.
Proof.
  rewrite main_unfold. intro H.
  destruct (main_try mgr argv 0 0) as [[[[c|rv]|[a c s|]|] t0] n] eqn:E;
    first [discriminate H | injection H as H <-].
  - subst c.
    destruct (main_try_Returned _ _ _ _ _ _ _ E)
      as [(Hc & _)|(_ & Hlen & a & c & s & ->)]; [discriminate Hc|].
    split; [exact Hlen|].
    unfold InitializeSysManager_fail, ports_opened.
    change (N.to_nat 1) with 1%nat. cbn.
    repeat split; try tauto.
    intros [H|[H|[H|[H|[H|[H|[H|[H|[H|[H|H]]]]]]]]]]; try discriminate H; exact H.
  - exfalso. destruct (main_try_Continues _ _ _ _ _ _ E) as [-> | [-> | ->]];
      discriminate H.
Qed.

Lemma exit_minus_2_means_PortsOpen_failed_witness :
  calls (snd (main mgr_PortsOpen_throws example_argv))
  = [ComHubPort 0 "/dev/ttyXRUSB0"; PortsOpen 1].
Proof.
  refine (proj1 (proj2
            (exit_minus_2_means_PortsOpen_failed mgr_PortsOpen_throws
               example_argv (snd (main mgr_PortsOpen_throws example_argv)) _))).
  vm_compute. reflexivity.
Defined.

(** ** main.cpp: what no run does, whatever the driver throws *)

Ltac emits_all :=
  unfold print_port_stats, print_node, check_port, check_node, node_cond,
    print_port, query, printf, fprintf_stderr, msgUser, at_;
  repeat first
    [ apply emits_ret
    | apply emits_emit; first [reflexivity | split; reflexivity]
    | apply emits_drv; first [reflexivity | split; reflexivity]
    | apply emits_bind; [|intro]
    | apply emits_for_loop; intros
    | apply emits_try_catch;
        [ | intros | let h := fresh in let E := fresh in
                     intros h E; first [discriminate E | injection E as <-] ]
    | match goal with
      | |- emits_only _ (if ?b then _ else _) => destruct b
      | |- emits_only _ (match ?x with _ => _ end) => destruct x
      | |- emits_only _ (fun n => (Throw _, [], n)) =>
          let H := fresh in
          intros ? ? ? ? H; injection H as _ <- _; constructor
      end ].

Lemma emits_InitializeSysManager mgr numPorts listOfPorts stats :
  emits_only (fun e => is_lifecycle e = false)
    (InitializeSysManager mgr numPorts listOfPorts stats).
Proof. unfold InitializeSysManager. emits_all. Qed.

Lemma emits_bringup mgr numPorts :
  emits_only (fun e => is_AxisMain e = false /\ is_teardown e = false)
    (bringup mgr numPorts).
Proof. unfold bringup. emits_all. Qed.

Lemma emits_run_axes mgr l rv :
  emits_only (fun e => is_NewAxis e = false /\ is_teardown e = false)
    (run_axes mgr l rv).
Proof. unfold run_axes. emits_all. Qed.

Lemma emits_teardown mgr l :
  emits_only (fun e => is_NewAxis e = false /\ is_AxisMain e = false)
    (teardown mgr l).
Proof. unfold teardown. emits_all. Qed.

Lemma emits_delete_loop mgr l :
  emits_only (fun e => e <> Call PortsClose)
    (for_loop incr_size_t (S (List.length (listOfAxes l)))
       (fun iAxis _ => ret (iAxis <? N.of_nat (List.length (listOfAxes l)))%N)
       (fun iAxis _ =>
          a <- at_ (listOfAxes l) iAxis ;;
          drv mgr (DeleteAxis (axis_port a) (axis_node a)))
       0%N tt).
Proof.
  apply emits_for_loop; intros.
  - apply emits_ret.
  - unfold at_. apply emits_bind.
    + destruct (nth_error (listOfAxes l) (N.to_nat i)).
      * apply emits_ret.
      * intros ? ? ? ? H. injection H as _ <- _. constructor.
    + intro a. apply emits_drv. discriminate.
Qed.

Lemma Forall_In_holds {A} (P : A -> Prop) (l : list A) (x : A) :
  Forall P l -> In x l -> P x.
Proof. intros H Hin. rewrite Forall_forall in H. apply H, Hin. Qed.

(** Bring-up on one port, when it returns, is the run of [bringup_run]. *)
Lemma bringup_Val_spec mgr n l t n' :
  bringup mgr 1 n = (Val l, t, n') ->
  (nodeCount (ports mgr 0) < 2 ^ 32)%N
  /\ l = fst (bringup_run mgr 1) /\ t = snd (bringup_run mgr 1).
Proof.
  intro H. pose proof (bringup_returns_unsigned _ _ _ _ _ H) as Hc.
  split; [exact Hc|].
  pose proof (alike_apply _ _ _ _ _ _ H (alike_bringup mgr 1)) as Hq.
  exact (returns_unique _ _ _ _ _ _ _
           (returns_bringup_one (quiet_of mgr) (fun _ _ => eq_refl) Hc) Hq).
Qed.

Lemma bringup_ready_all_pass mgr n l t n' :
  bringup mgr 1 n = (Val l, t, n') ->
  nodeTypesGood l && accessLvlsGood l = true ->
  forall j, (j < nodeCount (ports mgr 0))%N ->
  typeOk (nodes (ports mgr 0) j) = true
  /\ accessOk (nodes (ports mgr 0) j) = true.
Proof.
  intros H Hready.
  destruct (bringup_Val_spec _ _ _ _ _ H) as (_ & -> & _).
  destruct (bringup_run_spec mgr) as (_ & Hg & Hac & _).
  rewrite Hg, Hac in Hready. apply andb_true_iff in Hready.
  destruct Hready as (Et & Ea).
  destruct (verdicts mgr) as (Ht & Ha). cbn zeta in *.
  destruct (Ha Et) as (_ & Hag).
  intros j Hj. split; [apply (proj1 Ht Et j Hj) | apply (proj1 Hag Ea j Hj)].
Qed.

(** Every driver call of a run of [main] is made inside its [try]
    block. *)
Lemma main_call_in_try mgr argv c :
  In (Call c) (snd (main mgr argv)) ->
  exists r t0 n', main_try mgr argv 0 0 = (r, t0, n') /\ In (Call c) t0.
Proof.
  rewrite main_unfold.
  destruct (main_try mgr argv 0 0) as [[r t0] n] eqn:E.
  intro H. exists r, t0, n. split; [reflexivity|].
  destruct r as [[code|rv]|[a c' s|]|]; cbn [snd] in H;
    try exact H;
    apply in_app_or in H; destruct H as [H|H]; try exact H;
    cbn in H; repeat (destruct H as [H|H]; [discriminate H|]); contradiction.
Qed.

Lemma emits_usage mgr argv returnVal :
  List.length argv <> 2%nat ->
  emits_only (fun e => is_call e = false) (main_try mgr argv returnVal).
Proof.
  intros Hlen n r t n' H.
  destruct (returns_main_try_usage mgr argv returnVal Hlen n) as [n'' E].
  rewrite E in H. injection H as _ <- _.
  unfold usage_run. repeat (apply Forall_app; split); try (repeat constructor).
  apply Forall_forall. intros e He. apply in_map_iff in He.
  destruct He as (a & <- & _). reflexivity.
Qed.

Lemma run_axes_AxisMain mgr l rv n r t n' p i :
  run_axes mgr l rv n = (r, t, n') ->
  In (Call (AxisMain p i)) t ->
  nodeTypesGood l && accessLvlsGood l = true.
Proof.
  unfold run_axes. intros H Hin.
  destruct (nodeTypesGood l), (accessLvlsGood l); cbn [andb negb] in *;
    try reflexivity;
    injection H as _ <- _; cbn in Hin; destruct Hin as [Hin|[]]; discriminate Hin.
Qed.

(** The part of the [try] block that follows a successful
    [InitializeSysManager]. *)
Lemma main_rest_inv mgr n r t n' :
  (l <- bringup mgr 1 ;;
   returnVal' <- run_axes mgr l 0 ;;
   teardown mgr l ;;
   ret (Continues returnVal')) n = (r, t, n') ->
  (stops r /\ exists r0, bringup mgr 1 n = (r0, t, n') /\ stops r0)
  \/ exists l tb n1,
       bringup mgr 1 n = (Val l, tb, n1)
       /\ ((stops r /\ exists r0 tr, run_axes mgr l 0 n1 = (r0, tr, n')
                                     /\ stops r0 /\ t = tb ++ tr)
           \/ exists rv tr n2 r1 td,
                run_axes mgr l 0 n1 = (Val rv, tr, n2)
                /\ teardown mgr l n2 = (r1, td, n')
                /\ t = tb ++ tr ++ td).
Proof.
  intro H. apply bind_inv in H.
  destruct H as [(l & tb & n1 & t2 & Hb & H & ->) | (Hs & r0 & Hb & Hs0)].
  2:{ left. eauto. }
  right. exists l, tb, n1. split; [exact Hb|].
  apply bind_inv in H.
  destruct H as [(rv & tr & n2 & t3 & Hr & H & ->) | (Hs & r0 & Hr & Hs0)].
  2:{ left. split; [exact Hs|]. exists r0, t2. auto. }
  right. apply bind_inv in H.
  destruct H as [(u & td & n3 & t4 & Htd & H & ->) | (Hs & r0 & Htd & Hs0)].
  - injection H as _ <- <-. exists rv, tr, n2, (Val u), td.
    rewrite app_nil_r. auto.
  - exists rv, tr, n2, r0, t3. auto.
Qed.

(** The [try] block past the argument check. *)
Lemma main_try_inv mgr argv n r t n' :
  List.length argv = 2%nat ->
  main_try mgr argv 0 n = (r, t, n') ->
  (exists r0, InitializeSysManager mgr 1 (portsList argv) true n = (r0, t, n'))
  \/ (exists t1 n1 a c s,
        InitializeSysManager mgr 1 (portsList argv) true n = (Val false, t1, n1)
        /\ t = InitializeSysManager_fail 1 (portsList argv) a c s
               ++ [Printf "Error: Unable to initialize the system\n" []]
               ++ wait_for_user)
  \/ exists t1 n1 t2,
       InitializeSysManager mgr 1 (portsList argv) true n = (Val true, t1, n1)
       /\ (l <- bringup mgr 1 ;;
           returnVal' <- run_axes mgr l 0 ;;
           teardown mgr l ;;
           ret (Continues returnVal')) n1 = (r, t2, n')
       /\ t = t1 ++ t2.
Proof.
  intros Hlen H. unfold main_try in H.
  assert (E : negb (Z.of_nat (List.length argv) =? 2)%Z = false).
  { apply negb_false_iff, Z.eqb_eq. lia. }
  rewrite E in H. cbn iota zeta in H.
  apply bind_inv in H.
  destruct H as [(initialized & t1 & n1 & t2 & H1 & H2 & ->) | (_ & r0 & H1 & _)].
  2:{ left. eauto. }
  destruct initialized; cbn [negb] in H2.
  - right. right. exists t1, n1, t2. auto.
  - right. left.
    destruct (InitializeSysManager_false mgr 1 _ _ _ _ _ eq_refl H1)
      as (a & c & s & Ht1).
    unfold bind, printf, msgUser, emit, ret in H2. cbn in H2.
    injection H2 as _ <- _. exists t1, n1, a, c, s. rewrite <- Ht1. auto.
Qed.

(** X17.  Whatever the driver throws and wherever the run stops,
    [AxisMain] is called in a run of [main] only if every node passed the
    type check and the access check. *)
Theorem AxisMain_only_if_all_nodes_pass
    (mgr : SysManager) (argv : list string) (p i : N) :
  In (Call (AxisMain p i)) (snd (main mgr argv)) ->
  forall j, (j < nodeCount (ports mgr 0))%N ->
  typeOk (nodes (ports mgr 0) j) = true
  /\ accessOk (nodes (ports mgr 0) j) = true.
Proof.
  intro Hin. apply main_call_in_try in Hin.
  destruct Hin as (r & t0 & n' & H & Hin).
  destruct (Nat.eq_dec (List.length argv) 2) as [Hlen|Hlen].
  2:{ exfalso.
      pose proof (Forall_In_holds _ _ _ (emits_usage mgr argv 0 Hlen _ _ _ _ H) Hin)
        as Hc. discriminate Hc. }
  destruct (main_try_inv mgr argv 0 r t0 n' Hlen H)
    as [(r0 & H1) | [(t1 & n1 & a & c & s & _ & ->) | (t1 & n1 & t2 & H1 & H2 & ->)]].
  - exfalso.
    pose proof (Forall_In_holds _ _ _ (emits_InitializeSysManager _ _ _ _ _ _ _ _ H1) Hin)
      as Hc. discriminate Hc.
  - exfalso. unfold InitializeSysManager_fail in Hin.
    change (N.to_nat 1) with 1%nat in Hin. cbn in Hin.
    repeat (destruct Hin as [Hin|Hin]; [discriminate Hin|]). contradiction.
  - apply in_app_or in Hin. destruct Hin as [Hin|Hin].
    { exfalso.
      pose proof (Forall_In_holds _ _ _ (emits_InitializeSysManager _ _ _ _ _ _ _ _ H1) Hin)
        as Hc. discriminate Hc. }
    destruct (main_rest_inv mgr n1 r t2 n' H2)
      as [(_ & r0 & Hb & _) | (l & tb & n2 & Hb & Hrest)].
    { exfalso.
      destruct (Forall_In_holds _ _ _ (emits_bringup _ _ _ _ _ _ Hb) Hin) as (Hc & _).
      discriminate Hc. }
    assert (Hready : nodeTypesGood l && accessLvlsGood l = true).
    { destruct Hrest as [(_ & r0 & tr & Hr & _ & ->)
                        | (rv & tr & n3 & r1 & td & Hr & Htd & ->)].
      - apply in_app_or in Hin. destruct Hin as [Hin|Hin].
        + exfalso.
          destruct (Forall_In_holds _ _ _ (emits_bringup _ _ _ _ _ _ Hb) Hin) as (Hc & _).
          discriminate Hc.
        + exact (run_axes_AxisMain _ _ _ _ _ _ _ _ _ Hr Hin).
      - apply in_app_or in Hin. destruct Hin as [Hin|Hin].
        + exfalso.
          destruct (Forall_In_holds _ _ _ (emits_bringup _ _ _ _ _ _ Hb) Hin) as (Hc & _).
          discriminate Hc.
        + apply in_app_or in Hin. destruct Hin as [Hin|Hin].
          * exact (run_axes_AxisMain _ _ _ _ _ _ _ _ _ Hr Hin).
          * exfalso.
            destruct (Forall_In_holds _ _ _ (emits_teardown _ _ _ _ _ _ Htd) Hin)
              as (_ & Hc).
            discriminate Hc. }
    exact (bringup_ready_all_pass _ _ _ _ _ Hb Hready).
Qed.

Lemma AxisMain_only_if_all_nodes_pass_witness :
  typeOk (nodes (ports mgr_AxisMain_throws 0) 0) = true
  /\ accessOk (nodes (ports mgr_AxisMain_throws 0) 0) = true.
Proof.
  apply (AxisMain_only_if_all_nodes_pass mgr_AxisMain_throws example_argv 0 0).
  - vm_compute. tauto.
  - reflexivity.
Defined.

Lemma main_trace_of_try mgr argv r t0 n' :
  main_try mgr argv 0 0 = (r, t0, n') ->
  exists tail,
    snd (main mgr argv) = t0 ++ tail
    /\ Forall (fun e => is_call e = false) tail.
Proof.
  intro H. rewrite main_unfold, H.
  destruct r as [[code|rv]|[a c s|]|]; cbn [snd].
  - exists []. rewrite app_nil_r. split; [reflexivity | constructor].
  - eexists. split; [reflexivity | repeat constructor].
  - eexists. split; [reflexivity | repeat constructor].
  - eexists. split; [reflexivity | repeat constructor].
  - exists []. rewrite app_nil_r. split; [reflexivity | constructor].
Qed.

Lemma lifecycle_no_calls tail :
  Forall (fun e => is_call e = false) tail -> lifecycle tail = [].
Proof.
  intro H. apply filter_nil_Forall.
  apply Forall_forall. intros e He.
  pose proof (Forall_In_holds _ _ _ H He) as Hc.
  destruct e; [discriminate Hc | reflexivity ..].
Qed.

Lemma lifecycle_run_axes_run l rv :
  lifecycle (snd (run_axes_run l rv))
  = if nodeTypesGood l && accessLvlsGood l
    then map axis_main_call (listOfAxes l) else [].
Proof.
  unfold run_axes_run.
  destruct (nodeTypesGood l), (accessLvlsGood l); cbn [andb negb snd];
    try reflexivity.
  apply lifecycle_axis_main.
Qed.

Lemma run_axes_Val_spec mgr l rv0 n rv t n' :
  run_axes mgr l rv0 n = (Val rv, t, n') ->
  t = snd (run_axes_run l rv0).
Proof.
  intro H.
  pose proof (alike_apply _ _ _ _ _ _ H (alike_run_axes mgr l rv0)) as Hq.
  apply (returns_unique _ _ _ _ _ _ _
           (returns_run_axes (quiet_of mgr) (fun _ _ => eq_refl) l rv0
              (run_axes_returns_Uint16 _ _ _ _ _ _ _ H)) Hq).
Qed.

(** The trace of [teardown] once [PortsClose] has been called, whether the
    call returned or threw. *)
Lemma teardown_PortsClose mgr l n r t n' :
  (N.of_nat (List.length (listOfAxes l)) < 2 ^ 64)%N ->
  teardown mgr l n = (r, t, n') ->
  In (Call PortsClose) t ->
  t = teardown_run l.
Proof.
  intros Hlen H Hin. unfold teardown in H. apply bind_inv in H.
  destruct H as [(u & tl & n1 & t2 & Hl & Hd & ->) | (_ & r0 & Hl & _)].
  - unfold teardown_run. f_equal.
    + assert (Hq : for_loop incr_size_t (S (List.length (listOfAxes l)))
                     (fun iAxis _ =>
                        ret (iAxis <? N.of_nat (List.length (listOfAxes l)))%N)
                     (fun iAxis _ =>
                        a <- at_ (listOfAxes l) iAxis ;;
                        drv (quiet_of mgr) (DeleteAxis (axis_port a) (axis_node a)))
                     0%N tt n = (Val u, tl, n1)).
      { apply (alike_apply _ _ _ _ _ _ Hl). unfold at_. alike. }
      apply (returns_unique _ _ _ _ _ _ _
               (returns_axis_loop (quiet_of mgr) (fun _ _ => eq_refl) incr_size_t
                  (fun a => DeleteAxis (axis_port a) (axis_node a))
                  (listOfAxes l)
                  ltac:(intros i Hi; unfold incr_size_t; apply N.mod_small; lia))
               Hq).
    + unfold drv in Hd. destruct (throws mgr n1 PortsClose);
        injection Hd as _ <- _; reflexivity.
  - exfalso.
    exact (Forall_In_holds _ _ _ (emits_delete_loop _ _ _ _ _ _ Hl) Hin eq_refl).
Qed.

(** X18.  Whatever the driver throws: if [PortsClose] is called in a run
    of [main], the ports had been opened, and every axis made in that run
    has been deleted before, once each and in the order they were made,
    after the last [AxisMain]; nothing of the life cycle follows the
    call, even when the call itself throws. *)
Theorem PortsClose_only_after_all_deletes
    (mgr : SysManager) (argv : list string) :
  In (Call PortsClose) (snd (main mgr argv)) ->
  let t := snd (main mgr argv) in
  ports_opened t
  /\ lifecycle t
     = map new_axis_call (constructed t) ++ filter is_AxisMain t
       ++ map delete_axis_call (constructed t) ++ [Call PortsClose].
Proof.
  intro Hin. cbn zeta.
  destruct (main_call_in_try _ _ _ Hin) as (r & t0 & n' & H & Hin0).
  destruct (main_trace_of_try _ _ _ _ _ H) as (tail & -> & Htail).
  clear Hin.
  destruct (Nat.eq_dec (List.length argv) 2) as [Hlen|Hlen].
  2:{ exfalso.
      pose proof (Forall_In_holds _ _ _ (emits_usage mgr argv 0 Hlen _ _ _ _ H) Hin0)
        as Hc. discriminate Hc. }
  destruct (main_try_inv mgr argv 0 r t0 n' Hlen H)
    as [(r0 & H1) | [(t1 & n1 & a & c & s & _ & ->) | (t1 & n1 & t2 & H1 & H2 & ->)]].
  - exfalso.
    pose proof (Forall_In_holds _ _ _ (emits_InitializeSysManager _ _ _ _ _ _ _ _ H1) Hin0)
      as Hc. discriminate Hc.
  - exfalso. unfold InitializeSysManager_fail in Hin0.
    change (N.to_nat 1) with 1%nat in Hin0. cbn in Hin0.
    repeat (destruct Hin0 as [Hin0|Hin0]; [discriminate Hin0|]). contradiction.
  - pose proof (emits_InitializeSysManager _ _ _ _ _ _ _ _ H1) as He1.
    apply in_app_or in Hin0. destruct Hin0 as [Hin0|Hin0].
    { exfalso. pose proof (Forall_In_holds _ _ _ He1 Hin0) as Hc. discriminate Hc. }
    destruct (main_rest_inv mgr n1 r t2 n' H2)
      as [(_ & r0 & Hb & _) | (l & tb & n2 & Hb & Hrest)].
    { exfalso.
      destruct (Forall_In_holds _ _ _ (emits_bringup _ _ _ _ _ _ Hb) Hin0) as (_ & Hc).
      discriminate Hc. }
    pose proof (emits_bringup _ _ _ _ _ _ Hb) as Heb.
    destruct Hrest as [(_ & r0 & tr & Hr & _ & ->)
                      | (rv & tr & n3 & r1 & td & Hr & Htd & ->)].
    { exfalso. apply in_app_or in Hin0. destruct Hin0 as [Hin0|Hin0].
      - destruct (Forall_In_holds _ _ _ Heb Hin0) as (_ & Hc). discriminate Hc.
      - destruct (Forall_In_holds _ _ _ (emits_run_axes _ _ _ _ _ _ _ Hr) Hin0)
          as (_ & Hc). discriminate Hc. }
    assert (Hintd : In (Call PortsClose) td).
    { apply in_app_or in Hin0. destruct Hin0 as [Hin0|Hin0].
      - exfalso. destruct (Forall_In_holds _ _ _ Heb Hin0) as (_ & Hc).
        discriminate Hc.
      - apply in_app_or in Hin0. destruct Hin0 as [Hin0|Hin0]; [|exact Hin0].
        exfalso.
        destruct (Forall_In_holds _ _ _ (emits_run_axes _ _ _ _ _ _ _ Hr) Hin0)
          as (_ & Hc). discriminate Hc. }
    destruct (bringup_Val_spec _ _ _ _ _ Hb) as (Hc & Hl & Htb).
    destruct (bringup_run_spec mgr) as (Hax & _ & _ & Hlc & _).
    rewrite <- Hl in Hax. rewrite <- Htb in Hlc.
    assert (Hlen_axes : (N.of_nat (List.length (listOfAxes l)) < 2 ^ 64)%N).
    { rewrite Hax, length_map.
      pose proof (length_prefix_while
                    (fun j => typeOk (nodes (ports mgr 0) j))
                    (N.to_nat (nodeCount (ports mgr 0))) 0). lia. }
    pose proof (teardown_PortsClose _ _ _ _ _ _ Hlen_axes Htd Hintd) as ->.
    pose proof (run_axes_Val_spec _ _ _ _ _ _ _ Hr) as ->.
    split.
    + unfold ports_opened. apply in_or_app. left. apply in_or_app. left.
      pose proof (InitializeSysManager_true_quiet _ _ _ _ _ _ _ H1) as Hq1.
      destruct (returns_unique _ _ _ _ _ _ _
                  (returns_InitializeSysManager (quiet_of mgr)
                     (fun _ _ => eq_refl) 1 (portsList argv) true eq_refl
                     ltac:(intros iPort Hi; replace iPort with 0%N by lia;
                           cbn [ports quiet_of]; lia)) Hq1) as (_ & ->).
      apply ports_opened_InitializeSysManager_run.
    + assert (Hlife :
        lifecycle ((t1 ++ tb ++ snd (run_axes_run l 0) ++ teardown_run l) ++ tail)
        = map new_axis_call (listOfAxes l)
          ++ (if nodeTypesGood l && accessLvlsGood l
              then map axis_main_call (listOfAxes l) else [])
          ++ map delete_axis_call (listOfAxes l) ++ [Call PortsClose]).
      { assert (Hl1 : lifecycle t1 = []) by (apply filter_nil_Forall, He1).
        rewrite !lifecycle_app, Hl1, Hlc,
          lifecycle_run_axes_run, lifecycle_teardown_run,
          (lifecycle_no_calls _ Htail), map_new_axis_call, <- Hax, app_nil_r.
        reflexivity. }
      destruct (lifecycle_shape _ _ _ Hlife) as (Hcons & Hm & _).
      { destruct (nodeTypesGood l && accessLvlsGood l); auto. }
      rewrite Hcons, Hm. exact Hlife.
Qed.

Lemma PortsClose_only_after_all_deletes_witness :
  ports_opened (snd (main mgr_access_missing example_argv))
  /\ lifecycle (snd (main mgr_access_missing example_argv))
     = map new_axis_call (constructed (snd (main mgr_access_missing example_argv)))
       ++ filter is_AxisMain (snd (main mgr_access_missing example_argv))
       ++ map delete_axis_call
            (constructed (snd (main mgr_access_missing example_argv)))
       ++ [Call PortsClose].
Proof.
  apply (PortsClose_only_after_all_deletes mgr_access_missing example_argv).
  vm_compute. tauto.
Defined.

(** ** main.cpp: [InitializeSysManager] *)

Lemma calls_app t1 t2 : calls (t1 ++ t2) = calls t1 ++ calls t2.
Proof.
  induction t1 as [|e t1 IH]; cbn; [reflexivity|].
  destruct e; cbn; rewrite ?IH; reflexivity.
Qed.

Lemma calls_ComHubPort_loop listOfPorts k :
  forall i,
  calls (snd (loop_run (fun iPort (s : unit) =>
                          (s, ComHubPort_run listOfPorts iPort))
                [] k i tt))
  = map (fun iPort => ComHubPort iPort (listOfPorts iPort)) (Nseq i k).
Proof.
  induction k as [|k IH]; intro i; cbn [loop_run Nseq map]; [reflexivity|].
  specialize (IH (i + 1)%N).
  destruct (loop_run _ [] k (i + 1)%N tt) as [u t]. cbn [snd] in *.
  cbn. f_equal. exact IH.
Qed.

Lemma enumeration_stats_loop mgr k :
  forall i,
  Forall (fun e => negb (is_call e) || is_enumeration e = true)
    (snd (loop_run (fun iPort (s : unit) => (s, print_port_stats_run mgr iPort))
            [] k i tt)).
Proof.
  intro i. apply loop_run_Forall; [constructor|].
  intros iPort s. cbn [snd]. unfold print_port_stats_run.
  constructor; [reflexivity|].
  apply Forall_app; split; [repeat constructor|].
  apply loop_run_Forall; [repeat constructor|].
  intros iNode u. cbn [snd]. unfold print_node_run.
  repeat constructor.
Qed.

(** X19.  When [InitializeSysManager] returns true, its driver calls were:
    [ComHubPort] once for each of the [numPorts] ports, in order and with
    the name from [listOfPorts], then [PortsOpen], then, only if
    [printNodeStats] is set, calls that read port and node information;
    it has made, run or deleted no axis and has not closed the ports.
    With a driver that does not throw it does return true. *)
Theorem InitializeSysManager_registers_then_opens
    (mgr : SysManager) (numPorts : N) (listOfPorts : N -> string)
    (printNodeStats : bool) :
  (numPorts < 2 ^ 31)%N ->
  (forall iPort, (iPort < numPorts)%N ->
                 (nodeCount (ports mgr iPort) < 2 ^ 64)%N) ->
  (forall n t n',
     InitializeSysManager mgr numPorts listOfPorts printNodeStats n
     = (Val true, t, n') ->
     exists reads,
       calls t
       = map (fun iPort => ComHubPort iPort (listOfPorts iPort))
           (Nseq 0 (N.to_nat numPorts))
         ++ [PortsOpen numPorts] ++ calls reads
       /\ (printNodeStats = false -> reads = [])
       /\ Forall (fun e => negb (is_call e) || is_enumeration e = true) reads
       /\ lifecycle t = [])
  /\ (never_throws mgr ->
      exists t,
        returns (InitializeSysManager mgr numPorts listOfPorts printNodeStats)
                true t).
Proof.
  intros Hn Hc. split.
  - intros n t n' H.
    pose proof (emits_InitializeSysManager _ _ _ _ _ _ _ _ H) as He.
    apply InitializeSysManager_true_quiet in H.
    destruct (returns_unique _ _ _ _ _ _ _
                (returns_InitializeSysManager (quiet_of mgr)
                   (fun _ _ => eq_refl) numPorts listOfPorts printNodeStats
                   Hn Hc) H) as (_ & ->).
    unfold InitializeSysManager_run.
    exists (if printNodeStats
            then snd (loop_run (fun iPort (s : unit) =>
                                  (s, print_port_stats_run (quiet_of mgr) iPort))
                        [] (N.to_nat numPorts) 0%N tt)
            else []).
    split; [|split; [|split]].
    + rewrite !calls_app, calls_ComHubPort_loop. reflexivity.
    + intros ->. reflexivity.
    + destruct printNodeStats; [apply enumeration_stats_loop | constructor].
    + apply filter_nil_Forall, He.
  - intro Hq. eexists.
    apply (returns_InitializeSysManager mgr Hq numPorts listOfPorts
             printNodeStats Hn Hc).
Qed.

Lemma InitializeSysManager_registers_then_opens_witness :
  exists t,
    returns (InitializeSysManager mgr_ready 2
               (fun i => if (i =? 0)%N then "/dev/ttyS0"%string else "/dev/ttyS1"%string)
               false) true t.
Proof.
  refine (proj2 (InitializeSysManager_registers_then_opens mgr_ready 2
                   (fun i => if (i =? 0)%N then "/dev/ttyS0"%string else "/dev/ttyS1"%string)
                   false _ _) (quiet_mgr_never_throws _)).
  - reflexivity.
  - intros iPort _. reflexivity.
Defined.

Lemma raises_try_catch_other {A} (m : M A) h1 t :
  raises m OtherExn t -> raises (try_catch m h1 None) OtherExn t.
Proof.
  intros H n. unfold try_catch. destruct (H n) as [n' E]. rewrite E.
  exists n'. reflexivity.
Qed.

(** X20.  The handler of [InitializeSysManager] covers [PortsOpen] and
    the driver's structured error only.  When [PortsOpen] throws
    something else, [InitializeSysManager] lets it through without a
    port setup message, and [main] ends in its catch-all with exit code
    -4, having made no call but [ComHubPort] and [PortsOpen]. *)
Theorem PortsOpen_other_exception_reaches_main
    (mgr : SysManager) (numPorts : N) (listOfPorts : N -> string)
    (printNodeStats : bool) :
  (numPorts < 2 ^ 31)%N ->
  (forall n i s, throws mgr n (ComHubPort i s) = None) ->
  (forall n, throws mgr n (PortsOpen numPorts) = Some OtherExn) ->
  (exists t,
     raises (InitializeSysManager mgr numPorts listOfPorts printNodeStats)
            OtherExn t
     /\ calls t
        = map (fun iPort => ComHubPort iPort (listOfPorts iPort))
            (Nseq 0 (N.to_nat numPorts)) ++ [PortsOpen numPorts]
     /\ Forall (fun e => match e with Fprintf_stderr _ _ => False | _ => True end) t)
  /\ (numPorts = 1%N ->
      forall argv, List.length argv = 2%nat ->
      exists t,
        main mgr argv = (Some (-4)%Z, t)
        /\ calls t = [ComHubPort 0 (nth 1 argv EmptyString); PortsOpen 1]
        /\ ~ In (Fprintf_stderr "Error - Port setup issue\n" []) t).
Proof.
  intros Hn Hcom Hopen.
  assert (Hraise : forall lp st,
            raises (InitializeSysManager mgr numPorts lp st) OtherExn
              (snd (loop_run (fun iPort (s : unit) => (s, ComHubPort_run lp iPort))
                      [] (N.to_nat numPorts) 0%N tt)
               ++ [Printf "Opening ports...\n" []; Call (PortsOpen numPorts)])).
  { intros lp st. unfold InitializeSysManager.
    eapply raises_bind_r; [apply returns_ComHubPort_loop; assumption|].
    apply raises_bind_l. apply raises_try_catch_other.
    apply (raises_bind_r _ _ tt [Printf "Opening ports...\n" []] OtherExn
             [Call (PortsOpen numPorts)]); [apply returns_printf|].
    apply raises_bind_l. apply raises_drv. exact Hopen. }
  split.
  - eexists. split; [apply Hraise|]. split.
    + rewrite calls_app, calls_ComHubPort_loop. reflexivity.
    + apply Forall_app. split; [|repeat constructor].
      apply Forall_ComHubPort_loop; intros; exact I.
  - intros -> argv Hlen.
    destruct argv as [|a0 [|a1 [|a2 argv]]]; try discriminate.
    assert (Hm : raises (main_try mgr [a0; a1] 0) OtherExn
                   (snd (loop_run (fun iPort (s : unit) =>
                                     (s, ComHubPort_run (portsList [a0; a1]) iPort))
                           [] (N.to_nat 1) 0%N tt)
                    ++ [Printf "Opening ports...\n" []; Call (PortsOpen 1)])).
    { unfold main_try.
      change (negb (Z.of_nat (List.length [a0; a1]) =? 2)%Z) with false.
      cbn iota zeta. apply raises_bind_l. apply Hraise. }
    destruct (Hm 0%nat) as [n' E].
    eexists. rewrite main_unfold, E. split; [reflexivity|].
    change (N.to_nat 1) with 1%nat. cbn. split; [reflexivity|].
    intros [H|[H|[H|[H|[H|[H|[H|[H|H]]]]]]]]; try discriminate H; exact H.
Qed.

Lemma PortsOpen_other_exception_reaches_main_witness :
  exists t,
    main {| ports := fun _ => port_of [node_of CLEARPATH_SC true];
            throws := fun _ c =>
              match c with PortsOpen _ => Some OtherExn | _ => None end |}
         example_argv = (Some (-4)%Z, t)
    /\ calls t = [ComHubPort 0 "/dev/ttyXRUSB0"; PortsOpen 1]
    /\ ~ In (Fprintf_stderr "Error - Port setup issue\n" []) t.
Proof.
  refine (proj2 (PortsOpen_other_exception_reaches_main
                   {| ports := fun _ => port_of [node_of CLEARPATH_SC true];
                      throws := fun _ c =>
                        match c with PortsOpen _ => Some OtherExn | _ => None end |}
                   1 (portsList example_argv) true _ _ _)
            eq_refl example_argv eq_refl).
  - reflexivity.
  - intros n i s. reflexivity.
  - intro n. reflexivity.
Defined.

(** ** main.cpp: the loops of bring-up, for any number of ports *)

(** A loop keeps what its condition and its body keep: [J] relates the
    state before, the events and the state after a part that returned, [K]
    the state before and the events of a part that did not. *)
Lemma for_loop_inv {St} (J : St -> list event -> St -> Prop)
    (K : St -> list event -> Prop)
    next (cond : N -> St -> M bool) (body : N -> St -> M St) :
  (forall s, J s [] s) ->
  (forall s, K s []) ->
  (forall s0 t1 s1 t2 s2, J s0 t1 s1 -> J s1 t2 s2 -> J s0 (t1 ++ t2) s2) ->
  (forall s0 t1 s1 t2, J s0 t1 s1 -> K s1 t2 -> K s0 (t1 ++ t2)) ->
  (forall i s n r t n', cond i s n = (r, t, n') ->
     match r with Val _ => J s t s | _ => K s t end) ->
  (forall i s n r t n', body i s n = (r, t, n') ->
     match r with Val s' => J s t s' | _ => K s t end) ->
  forall fuel i s n r t n',
  for_loop next fuel cond body i s n = (r, t, n') ->
  match r with Val s' => J s t s' | _ => K s t end.
Proof.
  intros Hrefl HK Htrans HJK Hcond Hbody fuel.
  induction fuel as [|fuel IH]; intros i s n r t n' H.
  - injection H as <- <- _. apply HK.
  - cbn [for_loop] in H. apply bind_inv in H.
    destruct H as [(b & tc & n1 & t2 & Hc & H & ->) | (Hs & r0 & Hc & Hs0)].
    2:{ pose proof (Hcond _ _ _ _ _ _ Hc) as Hk.
        destruct r0; [contradiction| |]; destruct r; try contradiction; exact Hk. }
    pose proof (Hcond _ _ _ _ _ _ Hc) as Hj. cbn in Hj.
    destruct b.
    + apply bind_inv in H.
      destruct H as [(s1 & tb & n2 & t3 & Hb & H & ->) | (Hs & r0 & Hb & Hs0)].
      * pose proof (Hbody _ _ _ _ _ _ Hb) as Hj1. cbn in Hj1.
        pose proof (IH _ _ _ _ _ _ H) as Hrest.
        destruct r.
        -- apply (Htrans _ _ s); [exact Hj|].
           apply (Htrans _ _ s1); assumption.
        -- apply (HJK _ _ s); [exact Hj|]. apply (HJK _ _ s1); assumption.
        -- apply (HJK _ _ s); [exact Hj|]. apply (HJK _ _ s1); assumption.
      * pose proof (Hbody _ _ _ _ _ _ Hb) as Hk.
        destruct r0; [contradiction| |]; destruct r; try contradiction;
          apply (HJK _ _ s); assumption.
    + injection H as <- <- _. rewrite app_nil_r. exact Hj.
Qed.

Lemma after_type_failure_app failed t1 t2 :
  after_type_failure failed (t1 ++ t2)
  = after_type_failure failed t1
    ++ after_type_failure (failed || existsb is_type_diagnostic t1) t2.
Proof.
  revert failed. induction t1 as [|e t1 IH]; intro failed; cbn [app after_type_failure existsb].
  - rewrite orb_false_r. reflexivity.
  - destruct (is_type_diagnostic e) eqn:Ed; cbn [orb].
    + rewrite IH, orb_true_r. reflexivity.
    + destruct (failed && (is_NewAxis e || is_AccessLevelIsFull e));
        rewrite IH; reflexivity.
Qed.

Lemma bringup_invariant_refl l : bringup_invariant l [] l.
Proof.
  unfold bringup_invariant. cbn. rewrite app_nil_r, !andb_true_r. auto.
Qed.

Lemma bringup_invariant_trans l0 t1 l1 t2 l2 :
  bringup_invariant l0 t1 l1 -> bringup_invariant l1 t2 l2 ->
  bringup_invariant l0 (t1 ++ t2) l2.
Proof.
  intros (A1 & B1 & C1 & D1) (A2 & B2 & C2 & D2). unfold bringup_invariant.
  rewrite constructed_app, !existsb_app, after_type_failure_app, D1.
  rewrite A2, A1, B2, B1, C2, C1, app_assoc.
  rewrite B1 in D2.
  replace (negb (nodeTypesGood l0) || existsb is_type_diagnostic t1)
    with (negb (nodeTypesGood l0 && negb (existsb is_type_diagnostic t1)))
    by (destruct (nodeTypesGood l0), (existsb is_type_diagnostic t1); reflexivity).
  rewrite D2.
  repeat split;
    destruct (nodeTypesGood l0), (accessLvlsGood l0),
      (existsb is_type_diagnostic t1), (existsb is_type_diagnostic t2),
      (existsb is_access_diagnostic t1), (existsb is_access_diagnostic t2);
    reflexivity.
Qed.

(** A piece of the trace that makes no axis, prints no diagnostic and
    reads no access level changes nothing. *)
Lemma no_mark_spec t :
  Forall (fun e => is_mark e = false) t ->
  constructed t = []
  /\ existsb is_type_diagnostic t = false
  /\ existsb is_access_diagnostic t = false
  /\ forall f, after_type_failure f t = [].
Proof.
  induction 1 as [|e t He _ (I0 & I1 & I2 & I3)]; [cbn; auto|].
  unfold is_mark in He. apply orb_false_iff in He. destruct He as (He & H4).
  apply orb_false_iff in He. destruct He as (He & H3).
  apply orb_false_iff in He. destruct He as (H1 & H2).
  cbn [existsb after_type_failure]. rewrite H3, H4, I1, I2, H1, H2.
  split; [|cbn; split; [reflexivity|]; split; [reflexivity|];
           intro f; rewrite andb_false_r; apply I3].
  destruct e as [[]| | | |]; cbn in H1 |- *; try discriminate; exact I0.
Qed.

Lemma bringup_invariant_neutral l t :
  Forall (fun e => is_mark e = false) t -> bringup_invariant l t l.
Proof.
  intro H. destruct (no_mark_spec t H) as (D0 & D1 & D2 & D3).
  unfold bringup_invariant.
  rewrite D0, D1, D2, D3, app_nil_r, !andb_true_r. auto.
Qed.

Lemma bringup_invariant_stops l0 t1 l1 t2 :
  bringup_invariant l0 t1 l1 ->
  after_type_failure (negb (nodeTypesGood l1)) t2 = [] ->
  after_type_failure (negb (nodeTypesGood l0)) (t1 ++ t2) = [].
Proof.
  intros (_ & B & _ & D) H. rewrite after_type_failure_app, D. cbn [app].
  rewrite B in H.
  replace (negb (nodeTypesGood l0) || existsb is_type_diagnostic t1)
    with (negb (nodeTypesGood l0 && negb (existsb is_type_diagnostic t1)))
    by (destruct (nodeTypesGood l0), (existsb is_type_diagnostic t1); reflexivity).
  exact H.
Qed.

(** One iteration of the node loop, however it ends. *)
Lemma check_node_step mgr iPort iNode l :
  bringup_step (check_node mgr iPort iNode l) l.
Proof.
  intros n r t n'.
  unfold check_node, query, printf, emit, bind, drv, ret, bringup_invariant.
  intro H.
  repeat match type of H with
         | context [throws ?m ?k ?c] => destruct (throws m k c)
         | context [nodeTypes_eqb ?a ?b] => destruct (nodeTypes_eqb a b)
         | context [accessLevelIsFull ?a] => destruct (accessLevelIsFull a)
         | context [if nodeTypesGood ?a then _ else _] =>
             destruct (nodeTypesGood a) eqn:?
         | _ => progress cbn in H
         end;
    injection H as <- <- _; cbn;
    repeat match goal with
           | E : nodeTypesGood _ = _ |- _ => rewrite E
           end; cbn;
    rewrite ?andb_true_r, ?andb_false_r, ?app_nil_r; auto.
Qed.

Lemma bringup_step_bind {A} (m : M A) (f : A -> M locals) l :
  emits_only (fun e => is_mark e = false) m ->
  (forall a, bringup_step (f a) l) ->
  bringup_step (bind m f) l.
Proof.
  intros He Hf n r t n' H. apply bind_inv in H.
  destruct H as [(a & t1 & n1 & t2 & H1 & H2 & ->) | (Hs & r0 & H1 & Hs0)].
  - pose proof (bringup_invariant_neutral l _ (He _ _ _ _ H1)) as Hj.
    pose proof (Hf a _ _ _ _ H2) as Hk.
    destruct r.
    + exact (bringup_invariant_trans _ _ _ _ _ Hj Hk).
    + exact (bringup_invariant_stops _ _ _ _ Hj Hk).
    + exact (bringup_invariant_stops _ _ _ _ Hj Hk).
  - pose proof (He _ _ _ _ H1) as Hn.
    destruct r; [contradiction| |]; apply no_mark_spec, Hn.
Qed.

Lemma bringup_step_for_loop next fuel (cond : N -> locals -> M bool)
    (body : N -> locals -> M locals) :
  (forall i l, emits_only (fun e => is_mark e = false) (cond i l)) ->
  (forall i l, bringup_step (body i l) l) ->
  forall i l, bringup_step (for_loop next fuel cond body i l) l.
Proof.
  intros Hc Hb i l n r t n' H.
  refine (for_loop_inv bringup_invariant
            (fun l t => after_type_failure (negb (nodeTypesGood l)) t = [])
            next cond body bringup_invariant_refl (fun _ => eq_refl)
            bringup_invariant_trans bringup_invariant_stops _ _
            fuel i l n r t n' H).
  - intros i0 s n0 r0 t0 n0' H0. pose proof (Hc _ _ _ _ _ _ H0) as Hn.
    destruct r0; [apply bringup_invariant_neutral, Hn | |];
      apply no_mark_spec, Hn.
  - intros i0 s n0 r0 t0 n0' H0. exact (Hb _ _ _ _ _ _ H0).
Qed.

Lemma check_port_step mgr iPort l : bringup_step (check_port mgr iPort l) l.
Proof.
  unfold check_port.
  apply bringup_step_bind; [apply emits_drv; reflexivity | intros _].
  apply bringup_step_bind; [unfold print_port; emits_all | intros _].
  apply bringup_step_for_loop.
  - intros. unfold node_cond. emits_all.
  - intros. apply check_node_step.
Qed.

Lemma bringup_keeps_invariant mgr numPorts :
  bringup_step (bringup mgr numPorts)
    {| listOfAxes := []; nodeTypesGood := true; accessLvlsGood := true |}.
Proof.
  unfold bringup. apply bringup_step_for_loop.
  - intros. apply emits_ret.
  - intros. apply check_port_step.
Qed.

(** X21.  Whatever the driver throws and however many ports are scanned:
    when the loops of bring-up return, the axis list holds exactly the
    axes made, in the order they were made; [nodeTypesGood] is false
    exactly when the type diagnostic was printed, and [accessLvlsGood] is
    false exactly when the access diagnostic was printed. *)
Theorem bringup_flags_tell_diagnostics
    (mgr : SysManager) (numPorts : N) (n : nat)
    (l : locals) (t : list event) (n' : nat) :
  bringup mgr numPorts n = (Val l, t, n') ->
  listOfAxes l = constructed t
  /\ nodeTypesGood l = negb (existsb is_type_diagnostic t)
  /\ accessLvlsGood l = negb (existsb is_access_diagnostic t).
Proof.
  intro H.
  destruct (bringup_keeps_invariant mgr numPorts _ _ _ _ H) as (A & B & C & _).
  cbn in A, B, C. auto.
Qed.

Lemma bringup_flags_tell_diagnostics_witness :
  listOfAxes (fst (bringup_run mgr_sc_then_other 1)) = [mkAxis 0 0]
  /\ nodeTypesGood (fst (bringup_run mgr_sc_then_other 1)) = false
  /\ accessLvlsGood (fst (bringup_run mgr_sc_then_other 1)) = true.
Proof.
  destruct (bringup_flags_tell_diagnostics mgr_sc_then_other 1 0
              (fst (bringup_run mgr_sc_then_other 1))
              (snd (bringup_run mgr_sc_then_other 1))
              (snd (bringup mgr_sc_then_other 1 0)))
    as (A & B & C).
  - vm_compute. reflexivity.
  - rewrite A, B, C. vm_compute. auto.
Defined.

Lemma after_failure_nil t :
  after_type_failure true t = [] ->
  Forall (fun e => is_NewAxis e = false /\ is_AccessLevelIsFull e = false) t.
Proof.
  induction t as [|e t IH]; cbn [after_type_failure]; intro H; [constructor|].
  destruct (is_type_diagnostic e) eqn:Ed.
  - constructor; [|exact (IH H)].
    destruct e as [[]| | | |]; try discriminate Ed; auto.
  - cbn [andb] in H.
    destruct (is_NewAxis e) eqn:E1, (is_AccessLevelIsFull e) eqn:E2;
      cbn [orb] in H; try discriminate H.
    constructor; [auto | exact (IH H)].
Qed.

Lemma after_type_failure_split f t t1 e t2 :
  after_type_failure f t = [] ->
  t = t1 ++ e :: t2 -> is_type_diagnostic e = true ->
  Forall (fun e' => is_NewAxis e' = false /\ is_AccessLevelIsFull e' = false) t2.
Proof.
  intros H -> He. rewrite after_type_failure_app in H.
  apply app_eq_nil in H. destruct H as (_ & H).
  cbn [after_type_failure] in H. rewrite He in H.
  exact (after_failure_nil _ H).
Qed.

Lemma no_mark_prefix t1 t2 f :
  Forall (fun e => is_mark e = false) t1 ->
  after_type_failure f (t1 ++ t2) = after_type_failure f t2.
Proof.
  intro H. destruct (no_mark_spec t1 H) as (_ & D1 & _ & D3).
  rewrite after_type_failure_app, D1, D3, orb_false_r. reflexivity.
Qed.

Lemma no_mark_suffix t1 t2 f :
  after_type_failure f t1 = [] ->
  Forall (fun e => is_mark e = false) t2 ->
  after_type_failure f (t1 ++ t2) = [].
Proof.
  intros H1 H. destruct (no_mark_spec t2 H) as (_ & _ & _ & D3).
  rewrite after_type_failure_app, H1, D3. reflexivity.
Qed.

Lemma emits_no_mark_InitializeSysManager mgr numPorts listOfPorts stats :
  emits_only (fun e => is_mark e = false)
    (InitializeSysManager mgr numPorts listOfPorts stats).
Proof. unfold InitializeSysManager. emits_all. Qed.

Lemma emits_no_mark_after_bringup mgr l rv :
  emits_only (fun e => is_mark e = false)
    (returnVal' <- run_axes mgr l rv ;;
     teardown mgr l ;;
     ret (Continues returnVal')).
Proof. unfold run_axes, teardown. emits_all. Qed.

(** The [try] block of [main], however it ends. *)
Lemma main_try_after_type_failure mgr argv rv n r t n' :
  main_try mgr argv rv n = (r, t, n') -> after_type_failure false t = [].
Proof.
  unfold main_try. cbn zeta.
  destruct (negb (Z.of_nat (List.length argv) =? 2)%Z).
  - intro H. apply no_mark_spec. revert n r t n' H.
    change (emits_only (fun e => is_mark e = false)
              (printf " USAGE: Example-SingleThreaded.exe <Port#>\n" [] ;;
               printf "   Given Args: count: %d\n"
                 [Int (Z.of_nat (List.length argv))] ;;
               printf "                argv: " [] ;;
               for_loop incr_int (S (List.length argv))
                 (fun i _ => ret (Z.of_N i <? Z.of_nat (List.length argv))%Z)
                 (fun i _ =>
                    printf "%s " [Str (nth (N.to_nat i) argv EmptyString)])
                 0%N tt ;;
               printf "\n" [] ;;
               msgUser "Press any key to continue." ;;
               ret (Returned (-1)))).
    emits_all.
  - intro H. apply bind_inv in H.
    destruct H as [(b & t1 & n1 & t2 & H1 & H2 & ->) | (_ & r0 & H1 & _)].
    2:{ apply no_mark_spec.
        exact (emits_no_mark_InitializeSysManager _ _ _ _ _ _ _ _ H1). }
    rewrite (no_mark_prefix _ _ _
               (emits_no_mark_InitializeSysManager _ _ _ _ _ _ _ _ H1)).
    destruct b; cbn [negb] in H2.
    + apply bind_inv in H2.
      destruct H2 as [(l & tb & n2 & t3 & Hb & H3 & ->) | (Hs & r0 & Hb & Hs0)].
      * pose proof (bringup_keeps_invariant mgr 1 _ _ _ _ Hb) as (_ & _ & _ & D).
        cbn [negb nodeTypesGood] in D.
        apply no_mark_suffix; [exact D|].
        exact (emits_no_mark_after_bringup _ _ _ _ _ _ _ H3).
      * pose proof (bringup_keeps_invariant mgr 1 _ _ _ _ Hb) as D.
        destruct r0; [contradiction| |]; exact D.
    + apply no_mark_spec. clear H1. revert n1 r t2 n' H2.
      change (emits_only (fun e => is_mark e = false)
                (printf "Error: Unable to initialize the system\n" [] ;;
                 msgUser "Press any key to continue." ;;
                 ret (Returned (-2)))).
      emits_all.
Qed.

Lemma main_trace_no_mark_tail mgr argv r t0 n' :
  main_try mgr argv 0 0 = (r, t0, n') ->
  exists tail,
    snd (main mgr argv) = t0 ++ tail
    /\ Forall (fun e => is_mark e = false) tail.
Proof.
  intro H. rewrite main_unfold, H.
  destruct r as [[code|rv]|[a c s|]|]; cbn [snd].
  - exists []. rewrite app_nil_r. split; [reflexivity | constructor].
  - eexists. split; [reflexivity | repeat constructor].
  - eexists. split; [reflexivity | repeat constructor].
  - eexists. split; [reflexivity | repeat constructor].
  - exists []. rewrite app_nil_r. split; [reflexivity | constructor].
Qed.

(** X22.  Whatever the driver throws and wherever the run stops: once
    the type diagnostic has been printed in a run of [main], no [Axis] is
    made and no access level is read in the rest of the run. *)
Theorem no_axis_after_type_diagnostic
    (mgr : SysManager) (argv : list string)
    (t1 : list event) (e : event) (t2 : list event) :
  snd (main mgr argv) = t1 ++ e :: t2 ->
  is_type_diagnostic e = true ->
  Forall (fun e' => is_NewAxis e' = false /\ is_AccessLevelIsFull e' = false)
         t2.
Proof.
  intros Ht He.
  destruct (main_try mgr argv 0 0) as [[r t0] n'] eqn:E.
  destruct (main_trace_no_mark_tail _ _ _ _ _ E) as (tail & Hmain & Htail).
  apply (after_type_failure_split false (snd (main mgr argv)) t1 e t2);
    [|exact Ht | exact He].
  rewrite Hmain. apply no_mark_suffix.
  - exact (main_try_after_type_failure _ _ _ _ _ _ _ E).
  - exact Htail.
Qed.

Lemma no_axis_after_type_diagnostic_witness :
  Forall (fun e' => is_NewAxis e' = false /\ is_AccessLevelIsFull e' = false)
    (skipn 49 (snd (main mgr_other_then_sc example_argv))).
Proof.
  apply (no_axis_after_type_diagnostic mgr_other_then_sc example_argv
           (firstn 48 (snd (main mgr_other_then_sc example_argv)))
           (type_diagnostic 0)
           (skipn 49 (snd (main mgr_other_then_sc example_argv)))).
  - vm_compute. reflexivity.
  - reflexivity.
Defined.

(** ** main.cpp: [InitializeSysManager] with a port count past [INT_MAX] *)

(** X23.  The registration loop of [InitializeSysManager] compares an
    [int] counter with [(int)numPorts].  For a port count from 2^31 on the
    cast is negative: no port is registered with [ComHubPort], and
    [PortsOpen] is still called with the full count, as the first driver
    call of the function. *)
Theorem InitializeSysManager_count_past_INT_MAX
    (mgr : SysManager) (numPorts : N) (listOfPorts : N -> string)
    (printNodeStats : bool) (n : nat)
    (r : result bool) (t : list event) (n' : nat) :
  (2 ^ 31 <= numPorts < 2 ^ 32)%N ->
  InitializeSysManager mgr numPorts listOfPorts printNodeStats n = (r, t, n') ->
  exists rest,
    t = Printf "Opening ports...\n" [] :: Call (PortsOpen numPorts) :: rest
    /\ Forall (fun e => is_ComHubPort e = false) rest.
Proof.
  intros Hn H.
  assert (E : (Z.of_N 0 <? to_int numPorts)%Z = false).
  { unfold to_int. rewrite (N.mod_small numPorts) by lia.
    destruct (N.ltb_spec numPorts (2 ^ 31)); [lia|].
    apply Z.ltb_ge. lia. }
  assert (Hskip : for_loop incr_int (S (N.to_nat numPorts))
                     (fun iPort (_ : unit) =>
                        ret (Z.of_N iPort <? to_int numPorts)%Z)
                     (fun iPort (_ : unit) =>
                        printf "Initializing port %d, port number %s\n"
                          [Int (Z.of_N iPort); Str (listOfPorts iPort)] ;;
                        drv mgr (ComHubPort iPort (listOfPorts iPort)))
                     0%N tt n = (Val tt, [], n)).
  { cbn [for_loop]. unfold bind at 1. unfold ret at 1. rewrite E. reflexivity. }
  unfold InitializeSysManager in H. apply bind_inv in H.
  destruct H as [(u & t1 & n1 & t2 & H1 & E2 & ->) | (_ & r0 & H1 & Hs0)].
  2:{ rewrite Hskip in H1. injection H1 as <- _ _. contradiction. }
  rewrite Hskip in H1. injection H1 as _ <- <-. cbn [app].
  apply bind_inv in E2.
  assert (Hopen : forall r0 t0 n0,
            try_catch
              (printf "Opening ports...\n" [] ;;
               drv mgr (PortsOpen numPorts) ;;
               printf "  ... ports are open\n" [] ;; ret true)
              (fun TheAddr ErrorCode ErrorMsg =>
                 fprintf_stderr "Error - Port setup issue\n" [] ;;
                 fprintf_stderr
                   " Caught error: addr=%d, err=0x%0x\n  msg=%s\n"
                   [Int TheAddr; Int ErrorCode; Str ErrorMsg] ;;
                 printf " Caught error: addr=%d, err=0x%0x\n  msg=%s\n"
                   [Int TheAddr; Int ErrorCode; Str ErrorMsg] ;;
                 ret false)
              None n = (r0, t0, n0) ->
            exists rest,
              t0 = Printf "Opening ports...\n" []
                   :: Call (PortsOpen numPorts) :: rest
              /\ Forall (fun e => is_ComHubPort e = false) rest).
  { intros r0 t0 n0 H0.
    unfold try_catch, bind, printf, fprintf_stderr, emit, drv, ret in H0.
    destruct (throws mgr n (PortsOpen numPorts)) as [[a c s|]|];
      cbn in H0; injection H0 as _ <- _;
      eexists; (split; [reflexivity | repeat constructor]). }
  destruct E2 as [(opened & t1 & n1 & t3 & H1 & H2 & ->) | (_ & r0 & H1 & _)].
  - destruct (Hopen _ _ _ H1) as (rest & -> & Hrest).
    exists (rest ++ t3). split; [reflexivity|].
    apply Forall_app. split; [exact Hrest|].
    revert H2. generalize n1 r t3 n'.
    change (emits_only (fun e => is_ComHubPort e = false)
              (if opened
               then (if printNodeStats
                     then for_loop incr_size_t (S (N.to_nat numPorts))
                            (fun iPort _ => ret (iPort <? numPorts)%N)
                            (print_port_stats mgr) 0%N tt
                     else ret tt) ;; ret true
               else ret false)).
    emits_all.
  - exact (Hopen _ _ _ H1).
Qed.

Lemma InitializeSysManager_count_past_INT_MAX_witness :
  exists rest,
    [Printf "Opening ports...\n" []; Call (PortsOpen (2 ^ 31));
     Printf "  ... ports are open\n" []]
    = Printf "Opening ports...\n" [] :: Call (PortsOpen (2 ^ 31)) :: rest
    /\ Forall (fun e => is_ComHubPort e = false) rest.
Proof.
  apply (InitializeSysManager_count_past_INT_MAX mgr_ready (2 ^ 31)
           (fun _ => "/dev/ttyS0"%string) false 0 (Val true) _ 1%nat).
  - split; [reflexivity | reflexivity].
  - reflexivity.
Defined.

(** ** main.cpp: the loop counters and the node count *)

(** X24.  The node loop counts with an [unsigned] and the loop that runs
    the axes with a [Uint16], against a [size_t] bound.  So whatever the
    driver does, [main] reaches the end of its [try] block (exit code 0,
    -5 or -6) only if the port holds fewer than 2^32 nodes, and returns 0
    only if it holds fewer than 2^16: from there on the counter wraps
    before it reaches the bound. *)
Theorem main_returns_only_if_counters_fit
    (mgr : SysManager) (argv : list string) (code : Z) (t : list event) :
  main mgr argv = (Some code, t) ->
  (code = 0%Z \/ code = (-5)%Z \/ code = (-6)%Z ->
   (nodeCount (ports mgr 0) < 2 ^ 32)%N)
  /\ (code = 0%Z -> (nodeCount (ports mgr 0) < 2 ^ 16)%N).
Proof.
  intro H.
  assert (Hend : code = 0%Z \/ code = (-5)%Z \/ code = (-6)%Z ->
                 (nodeCount (ports mgr 0) < 2 ^ 32)%N
                 /\ (code = 0%Z -> (nodeCount (ports mgr 0) < 2 ^ 16)%N)).
  { intro Hcode.
    destruct (main_code_completes mgr argv code t H Hcode) as (t0 & n' & E).
    destruct (main_when_try_block_completes mgr argv code t0 n' E)
      as (_ & _ & Hc & H16).
    split; [exact Hc|]. intros ->.
    destruct (main_completes_summary mgr argv 0 t0 n' E) as (_ & Hrv & _).
    cbn zeta in Hrv.
    destruct (bringup_run_spec (quiet_of mgr)) as (_ & Hg & Hac & _).
    cbn zeta in Hg, Hac. cbn [ports quiet_of] in Hg, Hac.
    apply H16. rewrite Hg, Hac.
    destruct (forallb (fun j => typeOk (nodes (ports mgr 0) j))
                (Nseq 0 (N.to_nat (nodeCount (ports mgr 0))))
              && forallb (fun j => accessOk (nodes (ports mgr 0) j))
                   (prefix_while (fun j => typeOk (nodes (ports mgr 0) j)) 0
                      (N.to_nat (nodeCount (ports mgr 0))))) eqn:Eb;
      [reflexivity|].
    destruct (negb _) in Hrv; discriminate Hrv. }
  split.
  - intro Hcode. apply Hend, Hcode.
  - intro Hcode. apply Hend; auto.
Qed.

Lemma main_returns_only_if_counters_fit_witness :
  (nodeCount (ports mgr_ready 0) < 2 ^ 16)%N.
Proof.
  refine (proj2 (main_returns_only_if_counters_fit mgr_ready example_argv 0
                   (snd (main mgr_ready example_argv)) _) eq_refl).
  vm_compute. reflexivity.
Defined.
